(** * Mad Libs template pipeline ([madlibs_cli.py]): sanitizer, validator, renderer

    A shallow embedding of the template pipeline of [madlibs_cli.py]:

    - [strip_code_fence]        (the sanitizer),
    - [parse_template_payload]  (structural parse followed by validation),
    - [StoryTemplate.build], [prompt_for_words], [build_story] (the renderer),
    - [enforce_blank_range]     (the [--blanks] argument),
    - [build_template_prompt], [request_template] (the request to Gemini),

    and of the game of [hangman_cli.py]: [get_random_word], [display_word]
    and [play_hangman].

    Python values are dynamically typed, so the fields read out of a decoded
    JSON document are kept as [JSON] values; Python exceptions are values of
    [PyError] carried by the [Err] side of [PyResult].

    Characters are the code points below 256 (Rocq's [ascii]); the predicates
    of [str] ([isspace], [lower]) are the ones CPython uses on that range. *)

From Stdlib Require Import ZArith Ascii String.
From stdpp Require Import base option list strings gmap pretty.

Set Default Proof Using "Type".

(** ** Python strings *)

Module PyStr.

(** [str.isspace] on one character: TAB..CR, FS..US, SPACE, NEL and NBSP. *)
Definition isspace (c : ascii) : bool :=
  let n := nat_of_ascii c in
  (((9 <=? n) && (n <=? 13)) || ((28 <=? n) && (n <=? 32))
   || (n =? 133) || (n =? 160))%nat.

(** [str.lower] on one character: A..Z and the Latin-1 capitals
    (U+00C0..U+00DE without the multiplication sign U+00D7). *)
Definition lower_char (c : ascii) : ascii :=
  let n := nat_of_ascii c in
  if (((65 <=? n) && (n <=? 90))
      || ((192 <=? n) && (n <=? 222) && negb (n =? 215)))%nat
  then ascii_of_nat (n + 32) else c.

(** [s.lower()].  On the code points below 256 the lower-case mapping of
    CPython sends one character to one character, so a string is lowered
    character by character.  That is particular to this range: above it a
    capital can lower to more than one code point (U+0130 gives [i]
    followed by the combining dot U+0307), and such text is outside the
    strings modelled here. *)
Fixpoint lower (s : string) : string :=
  match s with
  | EmptyString => EmptyString
  | String c s' => String (lower_char c) (lower s')
  end.

Fixpoint lstrip (s : string) : string :=
  match s with
  | EmptyString => EmptyString
  | String c s' => if isspace c then lstrip s' else s
  end.

Fixpoint rstrip (s : string) : string :=
  match s with
  | EmptyString => EmptyString
  | String c s' =>
      match rstrip s' with
      | EmptyString => if isspace c then EmptyString else String c EmptyString
      | r => String c r
      end
  end.

(** [s.strip()] *)
Definition strip (s : string) : string := rstrip (lstrip s).

(** [s.startswith(p)] *)
Definition startswith (s p : string) : bool := String.prefix p s.

Fixpoint drop (n : nat) (s : string) : string :=
  match n, s with
  | O, _ => s
  | S _, EmptyString => EmptyString
  | S n', String _ s' => drop n' s'
  end.

(** Prepend a character to the first piece of a split. *)
Definition push_head (c : ascii) (pieces : list string) : list string :=
  match pieces with
  | [] => [String c EmptyString]
  | p :: ps => String c p :: ps
  end.

(** [s.split(sep)] for a non-empty [sep]: leftmost, non-overlapping
    occurrences of [sep] cut the string.  The recursion jumps over a whole
    separator, so it is driven by a counter that starts above [len(s)]. *)
Fixpoint split_from (fuel : nat) (sep s : string) : list string :=
  match fuel with
  | O => [s]
  | S fuel' =>
      match s with
      | EmptyString => [EmptyString]
      | String c s' =>
          if String.prefix sep s
          then EmptyString :: split_from fuel' sep (drop (String.length sep) s)
          else push_head c (split_from fuel' sep s')
      end
  end.

Definition split (s sep : string) : list string :=
  split_from (S (String.length s)) sep s.

(** [sep] occurs in [s] as a substring. *)
Definition occurs (sep s : string) : Prop :=
  ∃ pre post, s = pre +:+ sep +:+ post.

End PyStr.

(** ** The sanitizer *)

Definition FENCE : string := "```".

(** The [for chunk in parts] loop of [strip_code_fence]: the first chunk that,
    once stripped, is neither empty nor the bare word [json] is returned; when
    the loop runs out the function falls through to [return cleaned]. *)
Fixpoint first_chunk (parts : list string) (cleaned : string) : string :=
  match parts with
  | [] => cleaned
  | chunk :: parts' =>
      let chunk := PyStr.strip chunk in
      if (String.eqb chunk "" || String.eqb (PyStr.lower chunk) "json")%bool
      then first_chunk parts' cleaned
      else chunk
  end.

Definition strip_code_fence (text : string) : string :=
  let cleaned := PyStr.strip text in
  if PyStr.startswith cleaned FENCE
  then first_chunk (PyStr.split cleaned FENCE) cleaned
  else cleaned.

(** ** Python values and exceptions *)

(** The value [json.loads] returns: [None], [bool], [int], [float], [str],
    [list] and [dict] (a [dict] is a finite map from strings). *)
#[warnings="-register-all"]
Inductive JSON : Type :=
| JNull
| JBool (b : bool)
| JInt (n : Z)
| JFloat (mantissa exponent : Z)
| JStr (s : string)
| JArr (items : list JSON)
| JObj (members : gmap string JSON).

Inductive PyError : Type :=
| ValueError (msg : string)
| RuntimeError (msg : string)
| KeyError (key : string)
| IndexError (index : Z)
| TypeError (msg : string)
| AttributeError (attr : string)
| EOFError
| RecursionError (msg : string).

Inductive PyResult (A : Type) : Type :=
| Ok (a : A)
| Err (e : PyError).
Arguments Ok {A} a.
Arguments Err {A} e.

#[global] Instance PyResult_ret : MRet PyResult := λ A a, Ok a.
#[global] Instance PyResult_bind : MBind PyResult := λ A B k r,
  match r with Ok a => k a | Err e => Err e end.
#[global] Instance PyResult_fmap : FMap PyResult := λ A B f r,
  match r with Ok a => Ok (f a) | Err e => Err e end.

(** [for x in xs: ...] collecting results, stopping at the first exception. *)
Fixpoint for_each {A B} (f : A → PyResult B) (xs : list A) : PyResult (list B) :=
  match xs with
  | [] => Ok []
  | x :: xs' => y ← f x; ys ← for_each f xs'; Ok (y :: ys)
  end.

(** ** The data model *)

(** The dataclasses carry no run-time type checks: a field holds whatever
    value the decoded document had at that place. *)
Record Blank : Type := { key : JSON; prompt : JSON }.

Record StoryTemplate : Type :=
  { title : JSON; blanks : list Blank; skeleton : JSON }.

(** ** The validator *)

Definition type_name (v : JSON) : string :=
  match v with
  | JNull => "NoneType" | JBool _ => "bool" | JInt _ => "int"
  | JFloat _ _ => "float" | JStr _ => "str" | JArr _ => "list"
  | JObj _ => "dict"
  end.

(** [v[name]] for a string [name]. *)
Definition subscript (v : JSON) (name : string) : PyResult JSON :=
  match v with
  | JObj members =>
      match members !! name with
      | Some x => Ok x
      | None => Err (KeyError name)
      end
  | JArr _ => Err (TypeError "list indices must be integers or slices, not str")
  | JStr _ => Err (TypeError "string indices must be integers, not 'str'")
  | _ => Err (TypeError ("'" +:+ type_name v +:+ "' object is not subscriptable"))
  end.

Fixpoint chars (s : string) : list string :=
  match s with
  | EmptyString => []
  | String c s' => String c EmptyString :: chars s'
  end.

(** [for item in v]: a list yields its elements, a dict its keys, a string
    its characters; nothing else is iterable.  (A dict is iterated in
    insertion order, a [gmap] in key order; every key is a string, which is
    all the caller can observe.) *)
Definition iterate (v : JSON) : PyResult (list JSON) :=
  match v with
  | JArr items => Ok items
  | JObj members => Ok (JStr <$> (map_to_list members).*1)
  | JStr s => Ok (JStr <$> chars s)
  | _ => Err (TypeError ("'" +:+ type_name v +:+ "' object is not iterable"))
  end.

(** [Blank(key=item["key"], prompt=item["prompt"])] *)
Definition make_blank (item : JSON) : PyResult Blank :=
  k ← subscript item "key";
  p ← subscript item "prompt";
  Ok {| key := k; prompt := p |}.

(** The body of the second [try] of [parse_template_payload]. *)
Definition read_template (as_dict : JSON) : PyResult StoryTemplate :=
  blanks_data ← subscript as_dict "blanks";
  items ← iterate blanks_data;
  blanks ← for_each make_blank items;
  title ← subscript as_dict "title";
  skeleton ← subscript as_dict "skeleton";
  Ok {| title := title; blanks := blanks; skeleton := skeleton |}.

Definition MISSED_FIELDS : PyError :=
  ValueError "Gemini response JSON missed required fields.".
Definition BLANK_COUNT : PyError :=
  ValueError "Template must contain between 8 and 10 blanks.".
Definition NOT_JSON : PyError :=
  ValueError "Gemini response was not valid JSON.".

(** [except (KeyError, TypeError) as exc: raise ValueError(...) from exc] *)
Definition except_KeyError_TypeError {A} (handler : PyError)
    (r : PyResult A) : PyResult A :=
  match r with
  | Err (KeyError _) | Err (TypeError _) => Err handler
  | _ => r
  end.

(** [parse_template_payload] after [json.loads] has produced [as_dict]. *)
Definition parse_template_dict (as_dict : JSON) : PyResult StoryTemplate :=
  template ← except_KeyError_TypeError MISSED_FIELDS (read_template as_dict);
  if negb ((8 <=? length (blanks template)) && (length (blanks template) <=? 10))%nat
  then Err BLANK_COUNT
  else Ok template.

(** What [json.loads] does with a text: it returns the decoded value, or it
    raises [JSONDecodeError], or it raises something else, which
    [except json.JSONDecodeError] does not catch: [RecursionError] on a
    document nested too deeply, a plain [ValueError] on an integer of more
    than 4300 digits. *)
Inductive Loaded : Type :=
| Decoded (value : JSON)
| JSONDecodeError
| Raises (e : PyError).

(** [json.loads] is the standard library's. *)
Definition parse_template_payload (json_loads : string → Loaded)
    (payload : string) : PyResult StoryTemplate :=
  match json_loads payload with
  | Decoded as_dict => parse_template_dict as_dict
  | JSONDecodeError => Err NOT_JSON
  | Raises e => Err e
  end.

(** ** [str.format]

    [StoryTemplate.build] is one call of [str.format], the answers being
    its keyword arguments.  CPython's formatter walks the format string with
    a markup iterator that yields, one at a time, a run of literal text
    optionally followed by a replacement field; each field is resolved and
    written out before the next one is parsed.  The iterator, the field parser and the name lookup are modelled
    in full; what CPython does to a looked-up value beyond plain insertion
    (attribute and index access, [!r]-style conversions, non-empty format
    specs) is left to a [FieldFormatter]. *)

Module Format.

Record Field : Type :=
  { field_name : string;
    conversion : option ascii;
    format_spec : string;
    format_spec_needs_expanding : bool }.

Record Markup : Type := { literal : string; field : option Field }.

Definition is_brace (c : ascii) : bool :=
  Ascii.eqb c "{" || Ascii.eqb c "}".

(** The literal run up to the first brace, and the text from that brace on. *)
Fixpoint scan_literal (s : string) : string * string :=
  match s with
  | EmptyString => (EmptyString, EmptyString)
  | String c s' =>
      if is_brace c then (EmptyString, s)
      else let '(lit, rest) := scan_literal s' in (String c lit, rest)
  end.

(** First loop of [parse_field]: the field name runs to the first [}], [:]
    or [!] outside square brackets; inside [[ ]] every character is skipped.
    Returns the name, the terminator and the text after it. *)
Fixpoint scan_field_name (in_bracket : bool) (s : string)
    : PyResult (string * ascii * string) :=
  match s with
  | EmptyString => Err (ValueError "expected '}' before end of string")
  | String c s' =>
      let keep (in_bracket' : bool) :=
        '(name, stop, rest) ← scan_field_name in_bracket' s';
        Ok (String c name, stop, rest) in
      if in_bracket then keep (negb (Ascii.eqb c "]"))
      else if Ascii.eqb c "{"
      then Err (ValueError "unexpected '{' in field name")
      else if Ascii.eqb c "[" then keep true
      else if Ascii.eqb c "}" || Ascii.eqb c ":" || Ascii.eqb c "!"
      then Ok (EmptyString, c, s')
      else keep false
  end.

(** Second loop of [parse_field]: the format spec runs to the [}] that
    balances the field's own [{]; [nested] counts the braces opened inside
    the spec.  The flag tells whether the spec contains a [{]. *)
Fixpoint scan_format_spec (nested : nat) (s : string)
    : PyResult (string * bool * string) :=
  match s with
  | EmptyString => Err (ValueError "unmatched '{' in format spec")
  | String c s' =>
      if Ascii.eqb c "{" then
        '(spec, _, rest) ← scan_format_spec (S nested) s';
        Ok (String c spec, true, rest)
      else if Ascii.eqb c "}" then
        match nested with
        | O => Ok (EmptyString, false, s')
        | S nested' =>
            '(spec, expand, rest) ← scan_format_spec nested' s';
            Ok (String c spec, expand, rest)
        end
      else
        '(spec, expand, rest) ← scan_format_spec nested s';
        Ok (String c spec, expand, rest)
  end.

Definition with_format_spec (name : string) (conv : option ascii)
    (s : string) : PyResult (Field * string) :=
  '(spec, expand, rest) ← scan_format_spec 0 s;
  Ok ({| field_name := name; conversion := conv; format_spec := spec;
         format_spec_needs_expanding := expand |}, rest).

(** [parse_field], entered just after the opening brace. *)
Definition parse_field (s : string) : PyResult (Field * string) :=
  '(name, stop, rest) ← scan_field_name false s;
  if Ascii.eqb stop "}" then
    Ok ({| field_name := name; conversion := None;
           format_spec := EmptyString;
           format_spec_needs_expanding := false |}, rest)
  else if Ascii.eqb stop "!" then
    match rest with
    | EmptyString =>
        Err (ValueError
               "end of string while looking for conversion specifier")
    | String conv EmptyString => with_format_spec name (Some conv) EmptyString
    | String conv (String d rest') =>
        if Ascii.eqb d "}" then
          Ok ({| field_name := name; conversion := Some conv;
                 format_spec := EmptyString;
                 format_spec_needs_expanding := false |}, rest')
        else if Ascii.eqb d ":" then with_format_spec name (Some conv) rest'
        else Err (ValueError "expected ':' after conversion specifier")
    end
  else with_format_spec name None rest.

Inductive Next : Type :=
| Stop
| Raise (e : PyError)
| Yield (m : Markup) (rest : string).

(** [MarkupIterator_next] *)
Definition MarkupIterator_next (s : string) : Next :=
  match s with
  | EmptyString => Stop
  | _ =>
      let '(lit, at_brace) := scan_literal s in
      match at_brace with
      | EmptyString => Yield {| literal := lit; field := None |} EmptyString
      | String c EmptyString =>
          Raise (ValueError
                   (if Ascii.eqb c "}"
                    then "Single '}' encountered in format string"
                    else "Single '{' encountered in format string"))
      | String c (String d rest as after) =>
          if Ascii.eqb c d then
            Yield {| literal := lit +:+ String c EmptyString;
                     field := None |} rest
          else if Ascii.eqb c "}" then
            Raise (ValueError "Single '}' encountered in format string")
          else
            match parse_field after with
            | Ok (f, rest') =>
                Yield {| literal := lit; field := Some f |} rest'
            | Err e => Raise e
            end
      end
  end.

(** The iterator run to exhaustion: what it yields, and the exception that
    ends the run, if any.  Every step consumes at least one character, so
    a counter that starts at [len(s)] is never exhausted. *)
Fixpoint markup_from (fuel : nat) (s : string)
    : list Markup * option PyError :=
  match fuel with
  | O => ([], None)
  | S fuel' =>
      match MarkupIterator_next s with
      | Stop => ([], None)
      | Raise e => ([], Some e)
      | Yield m rest =>
          let '(ms, e) := markup_from fuel' rest in (m :: ms, e)
      end
  end.

Definition markup (s : string) : list Markup * option PyError :=
  markup_from (String.length s) s.

(** [field_name_split]: the name proper ends at the first [.] or [[]. *)
Fixpoint field_name_split (name : string) : string * string :=
  match name with
  | EmptyString => (EmptyString, EmptyString)
  | String c name' =>
      if Ascii.eqb c "." || Ascii.eqb c "[" then (EmptyString, name)
      else let '(first, rest) := field_name_split name' in
           (String c first, rest)
  end.

Definition decimal_digit (c : ascii) : option Z :=
  let n := nat_of_ascii c in
  if ((48 <=? n) && (n <=? 57))%nat then Some (Z.of_nat n - 48)%Z else None.

Definition PY_SSIZE_T_MAX : Z := (2 ^ 63 - 1)%Z.

Fixpoint get_integer_from (accumulator : Z) (s : string)
    : PyResult (option Z) :=
  match s with
  | EmptyString => Ok (Some accumulator)
  | String c s' =>
      match decimal_digit c with
      | None => Ok None
      | Some digitval =>
          if (accumulator >? (PY_SSIZE_T_MAX - digitval) / 10)%Z
          then Err (ValueError "Too many decimal digits in format string")
          else get_integer_from (accumulator * 10 + digitval)%Z s'
      end
  end.

(** [get_integer]: [None] stands for the C function's [-1]. *)
Definition get_integer (s : string) : PyResult (option Z) :=
  match s with
  | EmptyString => Ok None
  | _ => get_integer_from 0 s
  end.

(** What CPython does with the value of a field that is more than a bare
    name.  [field_object first v rest conv] applies the accessors [rest] and
    the conversion [conv] to the answer passed under the name [first], whose
    text is [v]; it raises, or gives the object's formatter, which takes the
    expanded format spec.  The result can depend on more than the text:
    [{animal.upper}] shows the bound method with the address of the answer
    object.  Within one call the name tells which object that is; where the
    objects live is part of the state of the interpreter, and an instance
    stands for one such state.  [str_format_spec v spec] is [format(v, spec)]
    for a string [v] and a non-empty [spec]. *)
Class FieldFormatter : Type :=
  { field_object :
      string → string → string → option ascii
      → PyResult (string → PyResult string);
    str_format_spec : string → string → PyResult string }.

Section Formatter.
Context {formatter : FieldFormatter}.
Variable answers : gmap string string.

(** First half of [get_field_object]: a name that is empty or a decimal
    number indexes the positional arguments, of which this call has
    none; any other name is looked up among the keywords. *)
Definition get_first (first : string) : PyResult string :=
  index ← get_integer first;
  match index with
  | Some i => Err (IndexError i)
  | None =>
      if String.eqb first "" then Err (IndexError 0)
      else match answers !! first with
           | Some v => Ok v
           | None => Err (KeyError first)
           end
  end.

(** [format(v, spec)] for a string [v]: the empty spec gives [v] itself. *)
Definition format_str (v spec : string) : PyResult string :=
  if String.eqb spec "" then Ok v else str_format_spec v spec.

(** [output_markup]: resolve the field, convert, expand the format spec
    (through [expand], the formatter one recursion level down), render. *)
Definition output_markup (expand : string → PyResult string) (f : Field)
    : PyResult string :=
  let '(first, rest) := field_name_split (field_name f) in
  v ← get_first first;
  formatter ←
    (match rest, conversion f with
     | EmptyString, None => Ok (format_str v)
     | _, _ => field_object first v rest (conversion f)
     end);
  spec ←
    (if format_spec_needs_expanding f then expand (format_spec f)
     else Ok (format_spec f));
  formatter spec.

(** [do_markup] over the unrolled iterator. *)
Fixpoint do_markup (expand : string → PyResult string)
    (items : list Markup) (stop : option PyError) : PyResult string :=
  match items with
  | [] => match stop with Some e => Err e | None => Ok EmptyString end
  | m :: items' =>
      out ← (match field m with
             | Some f => output_markup expand f
             | None => Ok EmptyString
             end);
      tail ← do_markup expand items' stop;
      Ok (literal m +:+ out +:+ tail)
  end.

(** [build_string] *)
Fixpoint build_string (recursion_depth : nat) (s : string)
    : PyResult string :=
  match recursion_depth with
  | O => Err (ValueError "Max string recursion exceeded")
  | S depth' =>
      let '(items, stop) := markup s in
      do_markup (build_string depth') items stop
  end.

(** [s.format] with [answers] as keyword arguments *)
Definition format (s : string) : PyResult string := build_string 2 s.

End Formatter.

End Format.

(** ** The renderer *)

(** [repr] of a string, which is how [str(KeyError(k))] shows the key. *)
Module Repr.

Definition DQUOTE : ascii := ascii_of_nat 34.
Definition SQUOTE : ascii := "'".
Definition BACKSLASH : ascii := "\".

Fixpoint contains (c : ascii) (s : string) : bool :=
  match s with
  | EmptyString => false
  | String d s' => Ascii.eqb c d || contains c s'
  end.

Definition isprintable (c : ascii) : bool :=
  let n := nat_of_ascii c in
  (((32 <=? n) && (n <=? 126)) || ((161 <=? n) && negb (n =? 173)))%nat.

Definition hex_digit (n : nat) : ascii :=
  ascii_of_nat (if (n <? 10)%nat then 48 + n else 87 + n).

Definition escape (quote c : ascii) : string :=
  let n := nat_of_ascii c in
  if Ascii.eqb c quote || Ascii.eqb c BACKSLASH
  then String BACKSLASH (String c EmptyString)
  else if (n =? 9)%nat then "\t"
  else if (n =? 10)%nat then "\n"
  else if (n =? 13)%nat then "\r"
  else if isprintable c then String c EmptyString
  else "\x" +:+ String (hex_digit (n / 16))
                  (String (hex_digit (n mod 16)) EmptyString).

Fixpoint escape_all (quote : ascii) (s : string) : string :=
  match s with
  | EmptyString => EmptyString
  | String c s' => escape quote c +:+ escape_all quote s'
  end.

Definition repr (s : string) : string :=
  let quote :=
    if contains SQUOTE s && negb (contains DQUOTE s) then DQUOTE
    else SQUOTE in
  String quote (escape_all quote s) +:+ String quote EmptyString.

End Repr.

Section Renderer.
Context {formatter : Format.FieldFormatter}.

(** [StoryTemplate.build]: [self.skeleton.format] exists only on a [str]. *)
Definition build (self : StoryTemplate) (answers : gmap string string)
    : PyResult string :=
  match skeleton self with
  | JStr s => Format.format answers s
  | _ => Err (AttributeError "format")
  end.

(** [prompt_for_words], the console being the list of lines [input()] will
    return.  [answers] holds the string keys of the dict under
    construction: an entry under any other hashable key ([None], a bool, a
    number) can never be named by a placeholder and is left out; a [list]
    or [dict] key is unhashable. *)
Fixpoint prompt_for_words (blanks : list Blank) (stdin : list string)
    (answers : gmap string string) : PyResult (gmap string string) :=
  match blanks with
  | [] => Ok answers
  | blank :: blanks' =>
      match prompt blank with
      | JStr _ =>
          match stdin with
          | [] => Err EOFError
          | line :: stdin' =>
              let user_input := PyStr.strip line in
              match key blank with
              | JStr k =>
                  prompt_for_words blanks' stdin' (<[k := user_input]> answers)
              | JArr _ => Err (TypeError "unhashable type: 'list'")
              | JObj _ => Err (TypeError "unhashable type: 'dict'")
              | _ => prompt_for_words blanks' stdin' answers
              end
          end
      | _ => Err (AttributeError "strip")
      end
  end.

(** [except KeyError as exc: raise RuntimeError(...) from exc] *)
Definition except_KeyError {A} (r : PyResult A) : PyResult A :=
  match r with
  | Err (KeyError k) =>
      Err (RuntimeError ("Missing answer for placeholder: " +:+ Repr.repr k))
  | _ => r
  end.

(** [build_story] *)
Definition build_story (template : StoryTemplate) (stdin : list string)
    : PyResult string :=
  answers ← prompt_for_words (blanks template) stdin ∅;
  except_KeyError (build template answers).

End Renderer.

(** A formatter that refuses everything beyond plain insertion; used where a
    statement is evaluated on a concrete template. *)
Definition plain_only : Format.FieldFormatter :=
  {| Format.field_object := λ _ _ _ _, Err (ValueError "unsupported field");
     Format.str_format_spec := λ _ _, Err (ValueError "unsupported format spec") |}.


(** ** Vocabulary of the statements *)

Fixpoint all_chars (P : ascii → bool) (s : string) : bool :=
  match s with
  | EmptyString => true
  | String c s' => P c && all_chars P s'
  end.

Definition is_digit (c : ascii) : bool :=
  let n := nat_of_ascii c in ((48 <=? n) && (n <=? 57))%nat.

Definition is_letter (c : ascii) : bool :=
  let n := nat_of_ascii c in
  (((65 <=? n) && (n <=? 90)) || ((97 <=? n) && (n <=? 122)))%nat.

Definition identifier_char (c : ascii) : bool :=
  is_letter c || is_digit c || Ascii.eqb c "_".

(** The identifier pattern of the contract: not empty, only letters, digits
    and underscores, not only digits. *)
Definition identifier (k : string) : bool :=
  negb (String.eqb k "") && all_chars identifier_char k
  && negb (all_chars is_digit k).

(** The number spelled by the decimal digits a string starts with. *)
Fixpoint leading_number_from (accumulator : Z) (s : string) : Z :=
  match s with
  | EmptyString => accumulator
  | String c s' =>
      match Format.decimal_digit c with
      | Some d => leading_number_from (accumulator * 10 + d)%Z s'
      | None => accumulator
      end
  end.

Definition leading_number (s : string) : Z := leading_number_from 0 s.

(** Text without braces. *)
Definition plain_text (s : string) : bool :=
  all_chars (λ c, negb (Format.is_brace c)) s.

(** A skeleton written out as narrative text with placeholders: each part is
    a run of text followed by the placeholder for a name; [ending] is the text
    after the last placeholder. *)
Fixpoint skeleton_text (parts : list (string * string)) (ending : string)
    : string :=
  match parts with
  | [] => ending
  | (text, name) :: parts' =>
      text +:+ "{" +:+ name +:+ "}" +:+ skeleton_text parts' ending
  end.

(** The same skeleton with every placeholder replaced by its answer. *)
Fixpoint fill (answers : gmap string string) (parts : list (string * string))
    (ending : string) : string :=
  match parts with
  | [] => ending
  | (text, name) :: parts' =>
      text +:+ default EmptyString (answers !! name) +:+ fill answers parts' ending
  end.

(** The first placeholder, in skeleton order, that has no answer. *)
Fixpoint first_unresolved (answers : gmap string string)
    (parts : list (string * string)) : option string :=
  match parts with
  | [] => None
  | (_, name) :: parts' =>
      match answers !! name with
      | Some _ => first_unresolved answers parts'
      | None => Some name
      end
  end.

(** The names the formatter looks up in a format string: those of its
    replacement fields and, one recursion level down, of the fields nested in
    their format specs. *)
Definition field_names (nested : string → list string) (f : Format.Field)
    : list string :=
  (Format.field_name_split (Format.field_name f)).1
  :: (if Format.format_spec_needs_expanding f
      then nested (Format.format_spec f) else []).

Fixpoint markup_names (nested : string → list string)
    (items : list Format.Markup) : list string :=
  match items with
  | [] => []
  | m :: items' =>
      match Format.field m with
      | Some f => field_names nested f
      | None => []
      end ++ markup_names nested items'
  end.

Fixpoint placeholder_names (recursion_depth : nat) (s : string) : list string :=
  match recursion_depth with
  | O => []
  | S depth' => markup_names (placeholder_names depth') (Format.markup s).1
  end.

Definition placeholders (s : string) : list string := placeholder_names 2 s.

(** [item] is an object whose [key] and [prompt] members are those of [b]. *)
Definition blank_of (item : JSON) (b : Blank) : Prop :=
  ∃ o, item = JObj o ∧ o !! "key" = Some (key b)
       ∧ o !! "prompt" = Some (prompt b).

(** [as_dict] is an object with members [title] and [skeleton] and an array
    [blanks] of objects, which together spell out the template [t]. *)
Definition template_of (as_dict : JSON) (t : StoryTemplate) : Prop :=
  ∃ o items,
    as_dict = JObj o
    ∧ o !! "title" = Some (title t)
    ∧ o !! "skeleton" = Some (skeleton t)
    ∧ o !! "blanks" = Some (JArr items)
    ∧ Forall2 blank_of items (blanks t).

Definition str_blank (kp : string * string) : Blank :=
  {| key := JStr kp.1; prompt := JStr kp.2 |}.

(** The template with the given title, (key, prompt) pairs and skeleton, all
    of them strings. *)
Definition str_template (title : string) (bs : list (string * string))
    (skeleton : string) : StoryTemplate :=
  {| title := JStr title; blanks := str_blank <$> bs;
     skeleton := JStr skeleton |}.

(** The decoded documents used in the examples. *)
Definition blank_object (b : Blank) : JSON :=
  JObj {[ "key" := key b; "prompt" := prompt b ]}.

Definition template_object (t : StoryTemplate) : JSON :=
  JObj {[ "title" := title t;
          "blanks" := JArr (blank_object <$> blanks t);
          "skeleton" := skeleton t ]}.

(** A top-level value that lacks one of the three required members (a value
    that is not an object lacks them all). *)
Definition lacks_member (as_dict : JSON) : Prop :=
  match as_dict with
  | JObj o =>
      o !! "title" = None ∨ o !! "blanks" = None ∨ o !! "skeleton" = None
  | _ => True
  end.

(** The values other than arrays over which [for item in v] runs without a
    single round: the empty string and the empty object. *)
Definition iterates_empty (v : JSON) : Prop :=
  v = JStr EmptyString ∨ v = JObj ∅.

Definition is_array (v : JSON) : bool :=
  match v with JArr _ => true | _ => false end.

Definition is_str (v : JSON) : bool :=
  match v with JStr _ => true | _ => false end.

Definition key_or_type_error (e : PyError) : Prop :=
  match e with KeyError _ | TypeError _ => True | _ => False end.

(** Characters that end or structure a field name. *)
Definition name_char (c : ascii) : bool :=
  negb (Format.is_brace c || Ascii.eqb c "[" || Ascii.eqb c "."
        || Ascii.eqb c "!" || Ascii.eqb c ":").

(** A name that [str.format] looks up among the keyword arguments exactly as
    it is written between the braces. *)
Definition lookup_name (k : string) : Prop :=
  all_chars name_char k = true ∧ k ≠ EmptyString
  ∧ Format.get_integer k = Ok None.

(** The replacement field [{name}]. *)
Definition plain_field (name : string) : Format.Field :=
  {| Format.field_name := name; Format.conversion := None;
     Format.format_spec := EmptyString;
     Format.format_spec_needs_expanding := false |}.




Definition well_formed_part (part : string * string) : Prop :=
  plain_text part.1 = true ∧ all_chars name_char part.2 = true.

(** What the markup iterator yields on [skeleton_text parts ending]. *)
Definition items_of (parts : list (string * string)) (ending : string)
    : list Format.Markup :=
  ((λ part : string * string,
      {| Format.literal := part.1;
         Format.field := Some (plain_field part.2) |}) <$> parts)
  ++ match ending with
     | EmptyString => []
     | _ => [{| Format.literal := ending; Format.field := None |}]
     end.

(** ** Example templates *)

Module Examples.

Definition LF : string := String "010" EmptyString.

(** A raw response in a fenced block with a language tag line. *)
Definition fenced_json : string :=
  "```json" +:+ LF +:+ "{}" +:+ LF +:+ "```".

Definition eight_blanks : list (string * string) :=
  [("animal", "An animal:"); ("colour", "A colour:"); ("food", "A food:");
   ("place", "A place:"); ("verb", "A verb:"); ("mood", "A mood:");
   ("tool", "A tool:"); ("name", "A name:")].

Definition eight_parts : list (string * string) :=
  [("A wild ", "animal"); (" appeared. It was ", "colour");
   (" and ate ", "food"); (" in ", "place"); (", where it would ", "verb");
   (" in a ", "mood"); (" way with a ", "tool"); (" named ", "name")].

Definition eight_words : list string :=
  ["walrus"; "teal"; "soup"; "Oslo"; "dance"; "jolly"; "spoon"; "Bo"].

(** One answer for each of the eight keys. *)
Definition eight_answers : gmap string string :=
  list_to_map (zip eight_blanks.*1 eight_words).

(** Scenario A: eight blanks, each referenced once. *)
Definition scenario_A : StoryTemplate :=
  str_template "T" eight_blanks (skeleton_text eight_parts ".").

(** Scenario B: the same with seven blanks. *)
Definition scenario_B : StoryTemplate :=
  str_template "T" (take 7 eight_blanks) "A wild {animal} appeared.".

(** The key [animal] declared twice. *)
Definition twice_animal : StoryTemplate :=
  str_template "T" (("animal", "Another animal:") :: take 7 eight_blanks)
    "A wild {animal} appeared.".

(** A key with a space in it. *)
Definition spaced_key : StoryTemplate :=
  str_template "T" (("my animal", "An animal:") :: take 7 eight_blanks)
    "A wild {animal} appeared.".

(** A title that is a number. *)
Definition numeric_title : StoryTemplate :=
  {| title := JInt 5; blanks := str_blank <$> eight_blanks;
     skeleton := JStr "A wild {animal} appeared." |}.

(** A document without [title]. *)
Definition untitled : JSON :=
  JObj {[ "blanks" := JArr (blank_object <$> (str_blank <$> eight_blanks));
          "skeleton" := JStr "A wild {animal} appeared." ]}.

(** An identifier that starts with nineteen digits. *)
Definition long_number_key : string := "9223372036854775808a".

Definition long_number_blanks : list (string * string) :=
  (long_number_key, "A number:") :: take 7 eight_blanks.

Definition long_number_parts : list (string * string) :=
  ("Take ", long_number_key) :: take 7 eight_parts.

Definition long_number_template : StoryTemplate :=
  str_template "T" long_number_blanks (skeleton_text long_number_parts ".").

Definition long_number_answers : gmap string string :=
  list_to_map (zip long_number_blanks.*1 ("seven" :: take 7 eight_words)).

(** A skeleton whose placeholder [ghost] is no blank's key. *)
Definition ghost_template : StoryTemplate :=
  str_template "T" eight_blanks "A wild {animal} met a {ghost}.".

(** A skeleton with a brace that belongs to no placeholder, before the
    placeholder [ghost]. *)
Definition stray_brace_template : StoryTemplate :=
  str_template "T" eight_blanks "A wild } met a {ghost}.".

(** A skeleton that names one key and ends with a brace. *)
Definition closing_brace_template : StoryTemplate :=
  str_template "T" eight_blanks "A wild {animal} appeared. }".

(** Eleven blanks. *)
Definition eleven_blanks : list (string * string) :=
  eight_blanks
  ++ [("sound", "A sound:"); ("number", "A number:"); ("planet", "A planet:")].

Definition eleven : StoryTemplate :=
  str_template "T" eleven_blanks "A wild {animal} appeared.".


End Examples.

(** ** The command line: [--blanks] *)

(** [int(value)] for a string, in base 10. *)
Module PyInt.

(** White space for the C scanner: space, TAB..CR. *)
Definition c_isspace (c : ascii) : bool :=
  let n := nat_of_ascii c in
  ((n =? 32) || ((9 <=? n) && (n <=? 13)))%nat.

(** Before scanning, white space beyond ASCII becomes a space and any other
    character beyond ASCII that is no decimal digit becomes a question mark
    (below 256 there are no such digits). *)
Definition to_ascii (c : ascii) : ascii :=
  let n := nat_of_ascii c in
  if (n <? 127)%nat then c
  else if PyStr.isspace c then " "%char else "?"%char.

Fixpoint transform (s : string) : string :=
  match s with
  | EmptyString => EmptyString
  | String c s' => String (to_ascii c) (transform s')
  end.

Fixpoint skip_spaces (s : string) : string :=
  match s with
  | EmptyString => EmptyString
  | String c s' => if c_isspace c then skip_spaces s' else s
  end.

(** The run of digits and underscores: its value, the number of digits and
    the text after it; [None] when two underscores meet or the run ends with
    one. *)
Fixpoint scan_digits (prev_underscore : bool) (value : Z) (digits : nat)
    (s : string) : option (Z * nat * string) :=
  match s with
  | EmptyString =>
      if prev_underscore then None else Some (value, digits, EmptyString)
  | String c s' =>
      if Ascii.eqb c "_" then
        if prev_underscore then None else scan_digits true value digits s'
      else
        match Format.decimal_digit c with
        | Some d => scan_digits false (value * 10 + d)%Z (S digits) s'
        | None => if prev_underscore then None else Some (value, digits, s)
        end
  end.

Definition MAX_STR_DIGITS : nat := 4300.

(** The first [n] characters of [s]. *)
Fixpoint truncate (n : nat) (s : string) : string :=
  match n, s with
  | S n', String c s' => String c (truncate n' s')
  | _, _ => EmptyString
  end.

(** The message is made with [%.200R]: of the repr of the argument, the
    first 200 characters. *)
Definition invalid_literal (u : string) : PyError :=
  ValueError ("invalid literal for int() with base 10: "
              +:+ truncate 200 (Repr.repr u)).

Definition exceeds_limit (digits : nat) : PyError :=
  ValueError
    ("Exceeds the limit (4300 digits) for integer string conversion: value has "
     +:+ pretty digits
     +:+ " digits; use sys.set_int_max_str_digits() to increase the limit").

(** The digits after the sign: [u] is the text as given, for the message. *)
Definition from_digits (u : string) (negative : bool) (s : string)
    : PyResult Z :=
  match s with
  | String "_" _ => Err (invalid_literal u)
  | _ =>
      match scan_digits false 0 0 s with
      | None => Err (invalid_literal u)
      | Some (value, digits, rest) =>
          if (MAX_STR_DIGITS <? digits)%nat then Err (exceeds_limit digits)
          else if (digits =? 0)%nat then Err (invalid_literal u)
          else if all_chars c_isspace rest
          then Ok (if negative then (- value)%Z else value)
          else Err (invalid_literal u)
      end
  end.

Definition int (u : string) : PyResult Z :=
  match skip_spaces (transform u) with
  | String "+" s => from_digits u false s
  | String "-" s => from_digits u true s
  | s => from_digits u false s
  end.

End PyInt.

(** What an argparse [type=] function does: return the value, raise an
    exception of [int], or raise [argparse.ArgumentTypeError]. *)
Inductive Converted (A : Type) : Type :=
| Parsed (a : A)
| Raised (e : PyError)
| ArgumentTypeError (msg : string).
Arguments Parsed {A} a.
Arguments Raised {A} e.
Arguments ArgumentTypeError {A} msg.

Definition enforce_blank_range (value : string) : Converted Z :=
  match PyInt.int value with
  | Err e => Raised e
  | Ok count =>
      if negb ((8 <=? count) && (count <=? 10))%Z
      then ArgumentTypeError "Blank count must be between 8 and 10."
      else Parsed count
  end.

(** ** Asking for a template *)

(** [request_template], from the point where the client has answered:
    [response_text] is [response.text], [None] or a string.  The blank count,
    the theme and the model only go into the request. *)
(** ** Further vocabulary *)

(** A text with every brace doubled, which is how a format string spells a
    literal brace. *)
Fixpoint escape_braces (s : string) : string :=
  match s with
  | EmptyString => EmptyString
  | String c s' =>
      if Format.is_brace c then String c (String c (escape_braces s'))
      else String c (escape_braces s')
  end.

(** The answers [prompt_for_words] has stored once the lines typed for the
    keys are known: each line, stripped, under its key, a later one replacing
    an earlier one. *)
Fixpoint words_stored (keys lines : list string)
    (answers : gmap string string) : gmap string string :=
  match keys, lines with
  | k :: keys', line :: lines' =>
      words_stored keys' lines' (<[k := PyStr.strip line]> answers)
  | _, _ => answers
  end.

(** The parts of a skeleton with the braces of their texts doubled. *)
Definition escaped (parts : list (string * string)) : list (string * string) :=
  (λ part, (escape_braces part.1, part.2)) <$> parts.

(** ** The request to Gemini *)

(** [textwrap.dedent].  Its regular expressions work line by line, a line
    ending at a line feed: [_whitespace_only_re] matches a line of spaces
    and tabs, [_leading_whitespace_re] the spaces and tabs in front of the
    first other character of a line, and the final [re.sub] the margin at
    the start of a line. *)
Module Textwrap.

Definition LF : ascii := "010".
Definition TAB : ascii := "009".

Definition space_or_tab (c : ascii) : bool :=
  Ascii.eqb c " " || Ascii.eqb c TAB.

(** The lines of a text, without their line feeds. *)
Fixpoint lines (text : string) : list string :=
  match text with
  | EmptyString => [EmptyString]
  | String c text' =>
      if Ascii.eqb c LF then EmptyString :: lines text'
      else match lines text' with
           | line :: rest => String c line :: rest
           | [] => [String c EmptyString]
           end
  end.

Fixpoint unlines (rows : list string) : string :=
  match rows with
  | [] => EmptyString
  | [row] => row
  | row :: rows' => row +:+ String LF (unlines rows')
  end.

(** [_whitespace_only_re.sub('', text)] *)
Definition whitespace_only_sub (text : string) : string :=
  unlines ((λ line, if all_chars space_or_tab line then EmptyString else line)
             <$> lines text).

Fixpoint indent (line : string) : string :=
  match line with
  | EmptyString => EmptyString
  | String c line' =>
      if space_or_tab c then String c (indent line') else EmptyString
  end.

(** [_leading_whitespace_re.findall(text)]: the indentation of every line
    that has a character other than a space or a tab. *)
Definition leading_whitespace_findall (text : string) : list string :=
  indent <$> List.filter (λ line, negb (all_chars space_or_tab line))
               (lines text).

(** The inner loop: [margin[:i]] for the first [i] at which the two differ;
    [margin] itself if the shorter one runs out first. *)
Fixpoint cut_at_mismatch (margin indent : string) : string :=
  match margin, indent with
  | String x margin', String y indent' =>
      if Ascii.eqb x y then String x (cut_at_mismatch margin' indent')
      else EmptyString
  | _, _ => margin
  end.

(** One round of the loop over the indents; [None] is Python's [None]. *)
Definition narrow (margin : option string) (indent : string)
    : option string :=
  match margin with
  | None => Some indent
  | Some m =>
      if PyStr.startswith indent m then Some m
      else if PyStr.startswith m indent then Some indent
      else Some (cut_at_mismatch m indent)
  end.

(** [re.sub(r'(?m)^' + margin, '', text)] for a margin of spaces and tabs *)
Definition remove_margin (margin text : string) : string :=
  unlines ((λ line, if PyStr.startswith line margin
                    then PyStr.drop (String.length margin) line else line)
             <$> lines text).

Definition dedent (text : string) : string :=
  let text := whitespace_only_sub text in
  match foldl narrow None (leading_whitespace_findall text) with
  | None | Some EmptyString => text
  | Some margin => remove_margin margin text
  end.

End Textwrap.

(** [str(n)] for an integer, as an f-string field shows it. *)
Definition str_int (n : Z) : PyResult string :=
  if (PyInt.MAX_STR_DIGITS <? String.length (pretty (Z.abs_N n)))%nat
  then Err (ValueError
              ("Exceeds the limit (4300 digits) for integer string conversion"
               +:+ "; use sys.set_int_max_str_digits() to increase the limit"))
  else Ok (pretty n).

Definition quoted (s : string) : string :=
  String Repr.DQUOTE (s +:+ String Repr.DQUOTE EmptyString).

(** The f-string of [build_template_prompt], row by row as it stands in the
    source, with [{{] and [}}] read as braces. *)
Definition prompt_rows (blank_count theme_clause : string) : list string :=
  [ "";
    "        You are designing a Mad Libs style word game.";
    "        Produce a single JSON object with the following shape:";
    "        {";
    "          " +:+ quoted "title" +:+ ": " +:+ quoted "<short descriptive title>" +:+ ",";
    "          " +:+ quoted "blanks" +:+ ": [";
    "            {" +:+ quoted "key" +:+ ": " +:+ quoted "snake_case_identifier" +:+ ", " +:+ quoted "prompt" +:+ ": " +:+ quoted "Friendly input prompt" +:+ "},";
    "            ...";
    "          ],";
    "          " +:+ quoted "skeleton" +:+ ": " +:+ quoted "Story text containing the placeholders like {snake_case_identifier}";
    "        }";
    "";
    "        Requirements:";
    "        - Provide exactly " +:+ blank_count +:+ " blank entries.";
    "        - Prompts should ask for varied parts of speech (nouns, adjectives, verbs, etc.).";
    "        - The skeleton must stay between 120 and 200 words, upbeat, and themed around: " +:+ theme_clause +:+ ".";
    "        - Use each placeholder exactly once and match the keys in the blanks list.";
    "        - Return only raw JSON (no Markdown fences, code blocks, or commentary).";
    "        " ].

Definition DEFAULT_THEME : string := "surprise me with any playful theme".

(** [theme or "surprise me with any playful theme"] *)
Definition theme_clause_of (theme : option string) : string :=
  match theme with
  | None | Some EmptyString => DEFAULT_THEME
  | Some t => t
  end.

(** [build_template_prompt] *)
Definition build_template_prompt (blank_count : Z) (theme : option string)
    : PyResult string :=
  let theme_clause := theme_clause_of theme in
  count ← str_int blank_count;
  Ok (PyStr.strip
        (Textwrap.dedent (Textwrap.unlines (prompt_rows count theme_clause)))).

Definition EMPTY_RESPONSE : PyError :=
  RuntimeError "Gemini returned an empty response.".

(** [request_template].  [generate_content model prompt] is the [text] of
    the client's response, which may be [None], or the exception the client
    raises. *)
Definition request_template (json_loads : string → Loaded)
    (generate_content : string → string → PyResult (option string))
    (blank_count : Z) (theme : option string) (model : string)
    : PyResult StoryTemplate :=
  prompt ← build_template_prompt blank_count theme;
  response_text ← generate_content model prompt;
  match response_text with
  | None | Some EmptyString => Err EMPTY_RESPONSE
  | Some text => parse_template_payload json_loads (strip_code_fence text)
  end.

(** A text without line feed. *)
Definition single_line (s : string) : bool :=
  all_chars (λ c, negb (Ascii.eqb c Textwrap.LF)) s.

(** ** The Hangman game ([hangman_cli.py])

    The word comes from [get_random_word]; [play_hangman] reads the guesses
    from the console, here the list of lines [input()] will return.  What
    the game prints (the pictures of [display_hangman], the remarks of
    [get_fun_statement], whose failures are caught) has no part in what it
    returns and is left out. *)

Module Hangman.

(** [str.isalpha] on one character: the letters of ASCII and of Latin-1. *)
Definition isalpha_char (c : ascii) : bool :=
  let n := nat_of_ascii c in
  (((65 <=? n) && (n <=? 90)) || ((97 <=? n) && (n <=? 122))
   || (n =? 170) || (n =? 181) || (n =? 186)
   || ((192 <=? n) && (n <=? 214)) || ((216 <=? n) && (n <=? 246))
   || (248 <=? n))%nat.

(** [s.isalpha()]: not empty, letters only. *)
Definition isalpha (s : string) : bool :=
  negb (String.eqb s "") && all_chars isalpha_char s.

(** [s.lstrip(chars)], [s.rstrip(chars)], [s.strip(chars)] *)
Fixpoint lstrip_chars (chars s : string) : string :=
  match s with
  | EmptyString => EmptyString
  | String c s' => if Repr.contains c chars then lstrip_chars chars s' else s
  end.

Fixpoint rstrip_chars (chars s : string) : string :=
  match s with
  | EmptyString => EmptyString
  | String c s' =>
      match rstrip_chars chars s' with
      | EmptyString =>
          if Repr.contains c chars then EmptyString else String c EmptyString
      | r => String c r
      end
  end.

Definition strip_chars (chars s : string) : string :=
  rstrip_chars chars (lstrip_chars chars s).

(** [''.join(c for c in s if keep(c))] *)
Fixpoint keep_chars (keep : ascii → bool) (s : string) : string :=
  match s with
  | EmptyString => EmptyString
  | String c s' =>
      if keep c then String c (keep_chars keep s') else keep_chars keep s'
  end.

(** [sep.join(items)] *)
Fixpoint join (sep : string) (items : list string) : string :=
  match items with
  | [] => EmptyString
  | [item] => item
  | item :: items' => item +:+ sep +:+ join sep items'
  end.

(** [p in s] for strings *)
Fixpoint str_in (p s : string) : bool :=
  String.prefix p s
  || match s with
     | EmptyString => false
     | String _ s' => str_in p s'
     end.

(** The dict of hints with its default. *)
Definition difficulty_hint (difficulty : string) : string :=
  if String.eqb difficulty "easy" then "a simple word between 4-6 letters"
  else if String.eqb difficulty "medium" then "a word between 5-8 letters"
  else if String.eqb difficulty "hard"
  then "a challenging word between 7-12 letters"
  else "a word between 5-8 letters".

Definition word_prompt (hint : string) : string :=
  "Give me a single random " +:+ hint +:+ " for a hangman game. "
  +:+ String Textwrap.LF
        ("Return ONLY the word itself, nothing else. No explanations, no quotes, no punctuation. "
         +:+ String Textwrap.LF "Just the word in lowercase letters.").

Definition NO_VALID_WORD : PyError :=
  RuntimeError "Gemini did not return a valid word.".

(** [get_random_word].  [generate_content model prompt] is the [text] of the
    client's response, or the exception the client raises. *)
Definition get_random_word
    (generate_content : string → string → PyResult (option string))
    (model difficulty : string) : PyResult string :=
  let prompt := word_prompt (difficulty_hint difficulty) in
  response_text ← generate_content model prompt;
  match response_text with
  | None | Some EmptyString => Err EMPTY_RESPONSE
  | Some text =>
      let word :=
        PyStr.lower
          (strip_chars "'"
             (strip_chars (String Repr.DQUOTE EmptyString)
                (PyStr.strip text))) in
      let word := keep_chars isalpha_char word in
      if String.eqb word "" then Err NO_VALID_WORD else Ok word
  end.

(** [display_word] *)
Definition display_word (word : string) (guessed_letters : gset string)
    : string :=
  join " " ((λ letter, if bool_decide (letter ∈ guessed_letters)
                       then letter else "_") <$> chars word).

(** The variables of the game loop. *)
Record Game : Type :=
  { guessed_letters : gset string; wrong_guesses : nat }.

Definition max_wrong_guesses : nat := 6.

(** How one round of the loop ends: with [continue] or at the end of the
    body, or with [return]. *)
Inductive Round : Type :=
| Continue (game : Game)
| Return (won : bool).

(** The body of the loop, [line] being what [input] returns. *)
Definition round (word : string) (game : Game) (line : string) : Round :=
  let guess := PyStr.lower (PyStr.strip line) in
  if String.eqb guess "" then Continue game
  else if negb (String.length guess =? 1)%nat then Continue game
  else if negb (isalpha guess) then Continue game
  else if bool_decide (guess ∈ guessed_letters game) then Continue game
  else
    let guessed := {[ guess ]} ∪ guessed_letters game in
    let is_correct := str_in guess word in
    let wrong :=
      if is_correct then wrong_guesses game else S (wrong_guesses game) in
    if forallb (λ letter, bool_decide (letter ∈ guessed)) (chars word)
    then Return true
    else if (max_wrong_guesses <=? wrong)%nat then Return false
    else Continue {| guessed_letters := guessed; wrong_guesses := wrong |}.

(** [while wrong_guesses < max_wrong_guesses: ...; return False] *)
Fixpoint loop (word : string) (stdin : list string) (game : Game)
    : PyResult bool :=
  if (wrong_guesses game <? max_wrong_guesses)%nat then
    match stdin with
    | [] => Err EOFError
    | line :: stdin' =>
        match round word game line with
        | Continue game' => loop word stdin' game'
        | Return won => Ok won
        end
    end
  else Ok false.

(** [play_hangman] *)
Definition play_hangman (word : string) (stdin : list string)
    : PyResult bool :=
  loop word stdin {| guessed_letters := ∅; wrong_guesses := 0 |}.

End Hangman.

(** A line that is no guess: blank, longer than one character once
    stripped, or not a letter. *)
Definition no_guess (line : string) : bool :=
  let guess := PyStr.lower (PyStr.strip line) in
  String.eqb guess "" || negb (String.length guess =? 1)%nat
  || negb (Hangman.isalpha guess).

(** A letter as the game stores it: lower case. *)
Definition lowercase_letter (c : ascii) : bool :=
  Hangman.isalpha_char c && Ascii.eqb (PyStr.lower_char c) c.

(** The letters guessed so far are lower-case letters. *)
Definition guessed_lowercase (game : Hangman.Game) : Prop :=
  ∀ c, String c EmptyString ∈ Hangman.guessed_letters game →
       lowercase_letter c = true.

(** * Properties *)

(** ** Strings *)

#[local] Arguments String.append !_ _ / : simpl nomatch.

Section StringFacts.
Implicit Types (s p q : string) (c : ascii).

Lemma append_empty_r s : s +:+ "" = s.
Proof. induction s; simpl; congruence. Qed.

Lemma append_assoc s p q : (s +:+ p) +:+ q = s +:+ p +:+ q.
Proof. induction s; simpl; congruence. Qed.

Lemma length_append s p :
  String.length (s +:+ p) = String.length s + String.length p.
Proof. induction s; simpl; congruence. Qed.

Lemma prefix_append p s :
  String.prefix p s = true ↔ ∃ q, s = p +:+ q.
Proof.
  revert s. induction p as [|c p IH]; intros [|d s]; simpl;
    try (split; [by eauto | by intros [? [=]]]); try (split; by eauto).
  - destruct (ascii_dec c d) as [->|Hne].
    + rewrite IH. split; intros [q Hq]; exists q; congruence.
    + split; [done | by intros [? [=]]].
Qed.

Lemma length_drop n s : String.length (PyStr.drop n s) = String.length s - n.
Proof. revert s. induction n; intros [|c s]; simpl; auto with lia. Qed.

Lemma all_chars_append P s1 s2 :
  all_chars P (s1 +:+ s2) = all_chars P s1 && all_chars P s2.
Proof. induction s1; simpl; [done|]. by rewrite IHs1, andb_assoc. Qed.

End StringFacts.

(** ** The sanitizer *)

Section Strip.
Import PyStr.
Implicit Types (s p q sep : string) (c : ascii).

Lemma lstrip_suffix s : ∃ lead, s = lead +:+ lstrip s.
Proof.
  induction s as [|c s [lead IH]]; simpl; [by exists ""|].
  destruct (isspace c); [|by exists ""].
  exists (String c lead). simpl. congruence.
Qed.

Lemma rstrip_prefix s : ∃ trail, s = rstrip s +:+ trail.
Proof.
  induction s as [|c s [trail IH]]; simpl; [by exists ""|].
  destruct (rstrip s) as [|d r] eqn:Hr.
  - destruct (isspace c); [by exists (String c s)|].
    exists s. simpl in *. congruence.
  - exists trail. simpl in *. congruence.
Qed.

(** What [strip] returns is a substring of its argument. *)
Lemma strip_substring s : ∃ lead trail, s = lead +:+ strip s +:+ trail.
Proof.
  destruct (lstrip_suffix s) as [lead Hl].
  destruct (rstrip_prefix (lstrip s)) as [trail Hr].
  exists lead, trail. unfold strip. congruence.
Qed.

Lemma rstrip_rstrip s : rstrip (rstrip s) = rstrip s.
Proof.
  induction s as [|c s IH]; simpl; [done|].
  destruct (rstrip s) as [|d r] eqn:Hr.
  - destruct (isspace c) eqn:Hc; simpl; [done|]. by rewrite Hc.
  - simpl in *. by rewrite IH.
Qed.

Lemma lstrip_head s :
  match lstrip s with
  | EmptyString => True
  | String c _ => isspace c = false
  end.
Proof.
  induction s as [|c s IH]; simpl; [done|].
  destruct (isspace c) eqn:Hc; [done|]. by simpl.
Qed.

(** [rstrip] keeps the first character of whatever it leaves. *)
Lemma rstrip_head c s :
  rstrip (String c s) = EmptyString ∨ ∃ r, rstrip (String c s) = String c r.
Proof.
  simpl. destruct (rstrip s); [destruct (isspace c)|]; eauto.
Qed.

Lemma lstrip_strip s : lstrip (strip s) = strip s.
Proof.
  unfold strip. pose proof (lstrip_head s) as Hh.
  destruct (lstrip s) as [|c r]; [done|].
  destruct (rstrip_head c r) as [->|[r' ->]]; [done|].
  simpl. by rewrite Hh.
Qed.

Lemma strip_strip s : strip (strip s) = strip s.
Proof.
  unfold strip at 1. rewrite lstrip_strip. unfold strip.
  apply rstrip_rstrip.
Qed.

Lemma occurs_empty sep : sep ≠ EmptyString → ¬ occurs sep EmptyString.
Proof.
  intros Hsep (pre & post & H). destruct pre, sep; done.
Qed.

Lemma occurs_prefix sep s : String.prefix sep s = true → occurs sep s.
Proof.
  intros [q ->]%prefix_append. by exists EmptyString, q.
Qed.

Lemma occurs_substring sep s lead trail :
  occurs sep s → occurs sep (lead +:+ s +:+ trail).
Proof.
  intros (pre & post & ->). exists (lead +:+ pre), (post +:+ trail).
  by rewrite !append_assoc.
Qed.

Lemma occurs_strip sep s : occurs sep (strip s) → occurs sep s.
Proof.
  intros H. destruct (strip_substring s) as (lead & trail & Hs).
  rewrite Hs. by apply occurs_substring.
Qed.

(** The first piece of a split is a prefix of the string. *)
Lemma split_from_head fuel sep s :
  ∃ p ps q, split_from fuel sep s = p :: ps ∧ s = p +:+ q.
Proof.
  revert s. induction fuel as [|fuel IH]; intros s; simpl.
  { exists s, [], EmptyString. by rewrite append_empty_r. }
  destruct s as [|c s]; [by exists EmptyString, [], EmptyString|].
  destruct (String.prefix sep (String c s)).
  - by eexists EmptyString, _, _.
  - destruct (IH s) as (p & ps & q & -> & ->).
    by exists (String c p), ps, q.
Qed.

(** No piece of a split contains the separator. *)
Lemma split_from_pieces fuel sep s p :
  sep ≠ EmptyString → String.length s < fuel →
  p ∈ split_from fuel sep s → ¬ occurs sep p.
Proof.
  intros Hsep. revert s p.
  induction fuel as [|fuel IH]; intros s p Hlen; [lia|]. simpl.
  destruct s as [|c s].
  { intros ->%list_elem_of_singleton. by apply occurs_empty. }
  destruct (String.prefix sep (String c s)) eqn:Hpre.
  - intros [->|Hin]%elem_of_cons; [by apply occurs_empty|].
    apply (IH _ _) in Hin; [done|]. rewrite length_drop. simpl in *.
    destruct sep; [done|]. simpl. lia.
  - destruct (split_from_head fuel sep s) as (p0 & ps & q & Hsp & Hs).
    rewrite Hsp. simpl.
    intros [->|Hin]%elem_of_cons.
    + intros ([|d pre] & post & Hocc); simpl in Hocc.
      * assert (String.prefix sep (String c s) = true) as Hp; [|congruence].
        apply prefix_append. exists (post +:+ q).
        rewrite Hs, <- append_assoc, <- Hocc. done.
      * injection Hocc as -> ->.
        assert (¬ occurs sep (pre +:+ sep +:+ post)) as Hno;
          [|apply Hno; by eexists _, _].
        apply (IH s); [simpl in *; lia|].
        rewrite Hsp. apply elem_of_cons; by left.
    + apply (IH s); [simpl in *; lia|].
      rewrite Hsp. apply elem_of_cons; by right.
Qed.

Lemma split_pieces s sep p :
  sep ≠ EmptyString → p ∈ split s sep → ¬ occurs sep p.
Proof. intros ?. apply split_from_pieces; [done | lia]. Qed.

End Strip.

Section SplitFuel.
Import PyStr.

(** The counter of [split_from] only has to exceed the length of the text:
    beyond that its value does not matter. *)
Lemma split_from_enough fuel1 fuel2 sep s :
  sep ≠ EmptyString →
  String.length s < fuel1 → String.length s < fuel2 →
  split_from fuel1 sep s = split_from fuel2 sep s.
Proof.
  intros Hsep. revert fuel2 s.
  induction fuel1 as [|fuel1 IH]; intros [|fuel2] s H1 H2; try lia.
  destruct s as [|c s]; [done|]. cbn [split_from].
  destruct (String.prefix sep (String c s)).
  - f_equal. apply IH; rewrite length_drop; destruct sep; simpl in *; try done; lia.
  - f_equal. apply IH; simpl in *; lia.
Qed.

End SplitFuel.

(** The loop of [strip_code_fence] returns [cleaned] or a stripped chunk. *)
Lemma first_chunk_cases parts cleaned :
  first_chunk parts cleaned = cleaned
  ∨ ∃ chunk, chunk ∈ parts ∧ first_chunk parts cleaned = PyStr.strip chunk.
Proof.
  induction parts as [|chunk parts IH]; simpl; [by left|].
  destruct (_ || _).
  - destruct IH as [?|(c & ? & ?)]; [by left|].
    right. exists c. split; [by apply elem_of_cons; right|done].
  - right. exists chunk. split; [by apply elem_of_cons; left|done].
Qed.

Lemma strip_code_fence_unfold text :
  strip_code_fence text =
  if PyStr.startswith (PyStr.strip text) FENCE
  then first_chunk (PyStr.split (PyStr.strip text) FENCE) (PyStr.strip text)
  else PyStr.strip text.
Proof. reflexivity. Qed.

(** A stripped text without a leading fence is returned as it is. *)
Lemma strip_code_fence_stripped s :
  PyStr.startswith (PyStr.strip s) FENCE = false →
  strip_code_fence (PyStr.strip s) = PyStr.strip s.
Proof. intros Hs. by rewrite strip_code_fence_unfold, strip_strip, Hs. Qed.

(** C8. The sanitizer is idempotent: sanitizing a sanitized text changes
    nothing, for every text. *)
Theorem strip_code_fence_idempotent (text : string) :
  strip_code_fence (strip_code_fence text) = strip_code_fence text.
Proof.
  rewrite (strip_code_fence_unfold text).
  destruct (PyStr.startswith (PyStr.strip text) FENCE) eqn:Hfence;
    [|by apply strip_code_fence_stripped].
  destruct (first_chunk_cases (PyStr.split (PyStr.strip text) FENCE)
              (PyStr.strip text)) as [Heq|(chunk & Hin & Heq)]; rewrite Heq.
  - by rewrite strip_code_fence_unfold, strip_strip, Hfence.
  - apply strip_code_fence_stripped.
    destruct (PyStr.startswith (PyStr.strip chunk) FENCE) eqn:Hc; [|done].
    exfalso.
    apply (split_pieces (PyStr.strip text) FENCE chunk); [done..|].
    by apply occurs_strip, occurs_prefix.
Qed.

(** *** A fenced block with a language tag line *)

Section TaggedFence.
Import PyStr.
Implicit Types (s t payload : string) (c : ascii).

Lemma rstrip_app_nonempty s t :
  rstrip t ≠ EmptyString → rstrip (s +:+ t) = s +:+ rstrip t.
Proof.
  intros Ht. induction s as [|c s IH]; simpl; [done|].
  rewrite IH. destruct (s +:+ rstrip t) eqn:Hs; [|done].
  destruct s; simpl in Hs; [done|discriminate].
Qed.

Lemma rstrip_app_space s t :
  all_chars isspace t = true → rstrip (s +:+ t) = rstrip s.
Proof.
  intros Ht. assert (rstrip t = EmptyString) as Hrt.
  { induction t as [|c t IH]; simpl in *; [done|].
    apply andb_true_iff in Ht as [-> Ht]. by rewrite IH. }
  induction s as [|c s IH]; simpl; [done|]. by rewrite IH.
Qed.

Lemma rstrip_of_strip s : strip s ≠ EmptyString → rstrip s ≠ EmptyString.
Proof.
  unfold strip. destruct (lstrip_suffix s) as [lead Hs]. intros Hne.
  rewrite Hs, rstrip_app_nonempty by done.
  destruct lead; simpl; [done|discriminate].
Qed.

(** A text between two characters that are no white space is not changed by
    [strip]. *)
Lemma strip_bounded c s d :
  isspace c = false → isspace d = false →
  strip (String c (s +:+ String d EmptyString))
  = String c (s +:+ String d EmptyString).
Proof.
  intros Hc Hd. unfold strip. cbn [lstrip]. rewrite Hc.
  change (String c (s +:+ String d EmptyString))
    with (String c s +:+ String d EmptyString).
  rewrite rstrip_app_nonempty; [|simpl; by rewrite Hd].
  simpl. by rewrite Hd.
Qed.

Lemma string_prefix_cons a p b s :
  String.prefix (String a p) (String b s)
  = if ascii_dec a b then String.prefix p s else false.
Proof. reflexivity. Qed.

Lemma prefix_fence_other c s :
  Ascii.eqb c "`" = false → String.prefix FENCE (String c s) = false.
Proof.
  intros Hc%Ascii.eqb_neq. unfold FENCE. rewrite string_prefix_cons.
  destruct (ascii_dec "`" c); [congruence|done].
Qed.

Lemma split_from_fence fuel rest :
  split_from (S fuel) FENCE (FENCE +:+ rest)
  = EmptyString :: split_from fuel FENCE rest.
Proof.
  assert (String.prefix FENCE (FENCE +:+ rest) = true) as Hfence
    by (apply prefix_append; eauto).
  cbn [split_from].
  change (FENCE +:+ rest) with (String "`" (String "`" (String "`" rest))) in *.
  by rewrite Hfence.
Qed.

Lemma split_from_other fuel c s :
  Ascii.eqb c "`" = false →
  split_from (S fuel) FENCE (String c s)
  = push_head c (split_from fuel FENCE s).
Proof.
  intros Hc. cbn [split_from]. by rewrite prefix_fence_other.
Qed.

(** A run without backticks in front of a fence is one piece. *)
Lemma split_from_plain_run fuel s rest :
  all_chars (λ c, negb (Ascii.eqb c "`")) s = true →
  split_from (String.length s + S fuel) FENCE (s +:+ FENCE +:+ rest)
  = s :: split_from fuel FENCE rest.
Proof.
  induction s as [|c s IH]; intros Hs.
  - apply split_from_fence.
  - cbn [all_chars] in Hs. apply andb_true_iff in Hs as [Hc Hs].
    apply negb_true_iff in Hc.
    change (split_from (S (String.length s + S fuel)) FENCE
              (String c (s +:+ FENCE +:+ rest)) = String c s :: split_from fuel FENCE rest).
    rewrite split_from_other by done. by rewrite IH.
Qed.

(** The language tag survives: a payload without backticks that is not blank,
    in a fenced block that opens with the tag line [json], comes back with
    the tag line in front. *)
Lemma strip_code_fence_json_fence payload :
  all_chars (λ c, negb (Ascii.eqb c "`")) payload = true →
  strip payload ≠ EmptyString →
  strip_code_fence
    ("```json" +:+ Examples.LF +:+ payload +:+ Examples.LF +:+ "```")
  = "json" +:+ Examples.LF +:+ rstrip payload.
Proof.
  intros Hplain Hne%rstrip_of_strip.
  set (inner := "json" +:+ Examples.LF +:+ payload +:+ Examples.LF).
  set (text := "```json" +:+ _).
  assert (text = "" +:+ FENCE +:+ inner +:+ FENCE +:+ "") as Htext.
  { unfold text, inner, FENCE. simpl. by rewrite !append_assoc. }
  assert (strip text = text) as Hstrip.
  { assert (text = String "`" (("``json" +:+ Examples.LF +:+ payload
                                   +:+ Examples.LF +:+ "``")
                                  +:+ String "`" EmptyString)) as ->.
    { unfold text. rewrite !append_assoc. reflexivity. }
    by apply strip_bounded. }
  assert (all_chars (λ c, negb (Ascii.eqb c "`")) inner = true) as Hinner.
  { unfold inner. by rewrite !all_chars_append, Hplain. }
  assert (strip inner = "json" +:+ Examples.LF +:+ rstrip payload) as Hchunk.
  { unfold strip, inner. simpl.
    assert (rstrip (payload +:+ Examples.LF) = rstrip payload) as ->
      by by apply rstrip_app_space.
    destruct (rstrip payload); done. }
  rewrite strip_code_fence_unfold, Hstrip.
  assert (startswith text FENCE = true) as -> by done.
  unfold split. rewrite Htext at 1 2.
  assert (S (String.length ("" +:+ FENCE +:+ inner +:+ FENCE +:+ ""))
          = String.length "" + S (String.length inner + S 5)) as ->.
  { rewrite !length_append. simpl. lia. }
  rewrite (split_from_plain_run _ "") by done.
  rewrite (split_from_plain_run _ inner) by done.
  cbn [first_chunk]. rewrite Hchunk.
  assert (strip "" = "") as -> by done. simpl.
  destruct (rstrip payload); done.
Qed.

End TaggedFence.

(** A text that does not open with a fence is only stripped. *)
Lemma strip_code_fence_no_fence text :
  PyStr.startswith (PyStr.strip text) FENCE = false →
  strip_code_fence text = PyStr.strip text.
Proof. intros H. by rewrite strip_code_fence_unfold, H. Qed.

(** A fence without a language tag is removed. *)
Example strip_code_fence_bare_fence :
  strip_code_fence ("```" +:+ Examples.LF +:+ "{}" +:+ Examples.LF +:+ "```")
  = "{}".
Proof. vm_compute. reflexivity. Qed.

(** C7. A payload in a fenced block that opens with a [json] tag line is not
    reduced to the payload: the chunk between the fences still starts with
    the tag, it is not the bare word [json], and the loop returns it, tag
    included. *)
Theorem strip_code_fence_keeps_language_tag :
  strip_code_fence Examples.fenced_json = "json" +:+ Examples.LF +:+ "{}".
Proof. vm_compute. reflexivity. Qed.

(** The text that comes back is no JSON document, and
    [parse_template_payload] reports it as such. *)
Lemma fenced_json_not_parsed (json_loads : string → Loaded) :
  json_loads ("json" +:+ Examples.LF +:+ "{}") = JSONDecodeError →
  parse_template_payload json_loads (strip_code_fence Examples.fenced_json)
  = Err NOT_JSON.
Proof.
  intros Hloads. unfold parse_template_payload.
  assert (strip_code_fence Examples.fenced_json
          = "json" +:+ Examples.LF +:+ "{}") as -> by by vm_compute.
  by rewrite Hloads.
Qed.

(** ** The validator *)

Lemma except_missed_fields {A} (r : PyResult A) e :
  r = Err e → key_or_type_error e →
  except_KeyError_TypeError MISSED_FIELDS r = Err MISSED_FIELDS.
Proof. intros -> He. by destruct e. Qed.

Lemma subscript_err v name e :
  subscript v name = Err e → key_or_type_error e.
Proof.
  destruct v; simpl; try (by intros [= <-]).
  destruct (_ !! _); by intros [= <-].
Qed.

Lemma iterate_err v e : iterate v = Err e → key_or_type_error e.
Proof. destruct v; simpl; by intros [= <-]. Qed.

Lemma make_blank_err item e : make_blank item = Err e → key_or_type_error e.
Proof.
  unfold make_blank.
  destruct (subscript item "key") eqn:Hk; simpl;
    [|intros [= <-]; by eapply subscript_err].
  destruct (subscript item "prompt") eqn:Hp; simpl; [done|].
  intros [= <-]; by eapply subscript_err.
Qed.

Lemma for_each_make_blank_err items e :
  for_each make_blank items = Err e → key_or_type_error e.
Proof.
  induction items as [|item items IH]; simpl; [done|].
  destruct (make_blank item) eqn:Hb; simpl;
    [|intros [= <-]; by eapply make_blank_err].
  destruct (for_each make_blank items); simpl; [done|].
  intros [= <-]. by apply IH.
Qed.

Lemma make_blank_of item b : blank_of item b → make_blank item = Ok b.
Proof.
  intros (o & -> & Hk & Hp). unfold make_blank. simpl.
  rewrite Hk. simpl. rewrite Hp. simpl. by destruct b.
Qed.

Lemma for_each_make_blank_of items bs :
  Forall2 blank_of items bs → for_each make_blank items = Ok bs.
Proof.
  induction 1 as [|item b items bs Hb _ IH]; simpl; [done|].
  by rewrite (make_blank_of _ _ Hb), IH.
Qed.

Lemma read_template_of as_dict t :
  template_of as_dict t → read_template as_dict = Ok t.
Proof.
  intros (o & items & -> & Ht & Hs & Hb & Hitems).
  unfold read_template. simpl. rewrite Hb. simpl.
  rewrite (for_each_make_blank_of _ _ Hitems). simpl.
  rewrite Ht. simpl. rewrite Hs. simpl. by destruct t.
Qed.

(** What [parse_template_payload] does with a document of the expected
    shape: the blank count alone decides. *)
Lemma parse_template_dict_of as_dict t :
  template_of as_dict t →
  parse_template_dict as_dict =
  if negb ((8 <=? length (blanks t)) && (length (blanks t) <=? 10))%nat
  then Err BLANK_COUNT else Ok t.
Proof.
  intros Ht. unfold parse_template_dict.
  by rewrite (read_template_of _ _ Ht).
Qed.

Lemma parse_template_dict_accepts as_dict t :
  template_of as_dict t → 8 ≤ length (blanks t) ≤ 10 →
  parse_template_dict as_dict = Ok t.
Proof.
  intros Ht [Hlo Hhi]. rewrite (parse_template_dict_of _ _ Ht).
  apply Nat.leb_le in Hlo, Hhi. by rewrite Hlo, Hhi.
Qed.

(** The examples' documents have the expected shape. *)
Lemma template_of_object t : template_of (template_object t) t.
Proof.
  exists {[ "title" := title t;
            "blanks" := JArr (blank_object <$> blanks t);
            "skeleton" := skeleton t ]}, (blank_object <$> blanks t).
  repeat split; try done.
  induction (blanks t) as [|b bs IH]; constructor; [|done].
  by exists {[ "key" := key b; "prompt" := prompt b ]}.
Qed.

Lemma read_template_lacking as_dict :
  lacks_member as_dict →
  ∃ e, read_template as_dict = Err e ∧ key_or_type_error e.
Proof.
  intros Hlack. unfold read_template.
  destruct (subscript as_dict "blanks") as [blanks_data|e] eqn:Hb; simpl;
    [|exists e; split; [done|by eapply subscript_err]].
  destruct (iterate blanks_data) as [items|e] eqn:Hi; simpl;
    [|exists e; split; [done|by eapply iterate_err]].
  destruct (for_each make_blank items) as [bs|e] eqn:Hbs; simpl;
    [|exists e; split; [done|by eapply for_each_make_blank_err]].
  destruct (subscript as_dict "title") as [title|e] eqn:Ht; simpl;
    [|exists e; split; [done|by eapply subscript_err]].
  destruct (subscript as_dict "skeleton") as [skel|e] eqn:Hs; simpl;
    [|exists e; split; [done|by eapply subscript_err]].
  exfalso. destruct as_dict; try done. simpl in *.
  destruct Hlack as [H|[H|H]]; rewrite H in *; done.
Qed.

Lemma for_each_make_blank_strings (l : list string) :
  for_each make_blank (JStr <$> l) = Ok [] ∨
  ∃ e, for_each make_blank (JStr <$> l) = Err e ∧ key_or_type_error e.
Proof. destruct l; [by left|right]. by eexists. Qed.

Lemma parse_template_dict_blanks_not_array o blanks_data :
  o !! "blanks" = Some blanks_data → is_array blanks_data = false →
  parse_template_dict (JObj o) = Err MISSED_FIELDS
  ∨ parse_template_dict (JObj o) = Err BLANK_COUNT.
Proof.
  intros Hb Harr. unfold parse_template_dict.
  assert (∀ l : list string,
    iterate blanks_data = Ok (JStr <$> l) →
    (template ← except_KeyError_TypeError MISSED_FIELDS (read_template (JObj o));
     if negb ((8 <=? length (blanks template))
              && (length (blanks template) <=? 10))%nat
     then Err BLANK_COUNT else Ok template) = Err MISSED_FIELDS
    ∨ (template ← except_KeyError_TypeError MISSED_FIELDS (read_template (JObj o));
       if negb ((8 <=? length (blanks template))
                && (length (blanks template) <=? 10))%nat
       then Err BLANK_COUNT else Ok template) = Err BLANK_COUNT) as Hstr.
  { intros l Hl. unfold read_template. simpl. rewrite Hb. simpl.
    rewrite Hl. simpl.
    destruct (for_each_make_blank_strings l) as [->|(e & -> & He)]; simpl;
      [|left; by destruct e].
    destruct (o !! "title"); simpl; [|by left].
    destruct (o !! "skeleton"); simpl; [|by left].
    by right. }
  destruct blanks_data; try done;
    try (left; unfold read_template; simpl; rewrite Hb; by simpl).
  - by apply (Hstr (chars s)).
  - by apply (Hstr (map_to_list members).*1).
Qed.

(** A value of [blanks] that is no array and over which the loop makes at
    least one round: the round fails on its item. *)
Lemma read_template_blanks_no_array o blanks_data :
  o !! "blanks" = Some blanks_data → is_array blanks_data = false →
  ¬ iterates_empty blanks_data →
  ∃ e, read_template (JObj o) = Err e ∧ key_or_type_error e.
Proof.
  intros Hb Harr Hne. unfold read_template. simpl. rewrite Hb. simpl.
  assert (∀ k l, for_each make_blank (JStr <$> k :: l)
                 = Err (TypeError "string indices must be integers, not 'str'"))
    as Hstr by done.
  destruct blanks_data as [| | | |s|items|members]; try done;
    try (eexists; split; [reflexivity|done]).
  - destruct s as [|c s]; [by destruct Hne; left|].
    simpl. eexists. split; [reflexivity|done].
  - cbn [iterate mbind PyResult_bind].
    destruct (map_to_list members) as [|[k v] l] eqn:Hl.
    { apply map_to_list_empty_iff in Hl as ->. destruct Hne. by right. }
    cbn [fmap list_fmap fst]. rewrite (Hstr k l.*1).
    eexists. split; [reflexivity|done].
Qed.

Lemma parse_template_dict_blanks_no_array o blanks_data :
  o !! "blanks" = Some blanks_data → is_array blanks_data = false →
  (iterates_empty blanks_data →
   is_Some (o !! "title") → is_Some (o !! "skeleton") →
   parse_template_dict (JObj o) = Err BLANK_COUNT)
  ∧ (¬ iterates_empty blanks_data →
     parse_template_dict (JObj o) = Err MISSED_FIELDS).
Proof.
  intros Hb Harr. split.
  - intros Hempty [ti Hti] [sk Hsk].
    unfold parse_template_dict, read_template. simpl. rewrite Hb. simpl.
    assert (iterate blanks_data = Ok []) as ->.
    { destruct Hempty as [-> | ->]; [done|].
      simpl. by rewrite map_to_list_empty. }
    simpl. rewrite Hti. simpl. by rewrite Hsk.
  - intros Hne. unfold parse_template_dict.
    destruct (read_template_blanks_no_array o blanks_data Hb Harr Hne)
      as (e & He & Hkt).
    by rewrite (except_missed_fields _ e He Hkt).
Qed.

Lemma length_for_each_make_blank items bs :
  for_each make_blank items = Ok bs → length bs = length items.
Proof.
  revert bs. induction items as [|item items IH]; intros bs; simpl.
  - by intros [= <-].
  - destruct (make_blank item); simpl; [|done].
    destruct (for_each make_blank items) as [bs'|]; simpl; [|done].
    intros [= <-]. simpl. by rewrite (IH bs').
Qed.

(** What an accepted document went through. *)
Lemma parse_template_dict_Ok as_dict t :
  parse_template_dict as_dict = Ok t →
  read_template as_dict = Ok t ∧ 8 ≤ length (blanks t) ≤ 10.
Proof.
  unfold parse_template_dict.
  destruct (read_template as_dict) as [t'|e]; [|by destruct e].
  cbn -[Nat.leb].
  destruct (8 <=? length (blanks t'))%nat eqn:Hlo; [|done].
  destruct (length (blanks t') <=? 10)%nat eqn:Hhi; [|done].
  cbn. intros [= <-]. apply Nat.leb_le in Hlo, Hhi. done.
Qed.

(** Whatever else a document holds, an array of fewer than 8 or more than 10
    blanks is never accepted. *)
Lemma out_of_range_never_accepted o items t :
  o !! "blanks" = Some (JArr items) →
  length items < 8 ∨ 10 < length items →
  parse_template_dict (JObj o) ≠ Ok t.
Proof.
  intros Hb Hn [Hread Hlen]%parse_template_dict_Ok.
  unfold read_template in Hread. simpl in Hread.
  rewrite Hb in Hread. simpl in Hread.
  destruct (for_each make_blank items) as [bs|e] eqn:Hbs; [|done].
  apply length_for_each_make_blank in Hbs. simpl in Hread.
  destruct (o !! "title"); [|done]. simpl in Hread.
  destruct (o !! "skeleton"); [|done]. simpl in Hread.
  injection Hread as <-. simpl in Hlen. lia.
Qed.

(** C4 (as amended). A document of the expected shape whose [blanks] array
    has fewer than 8 or more than 10 elements is rejected with the
    blank-count violation, a [ValueError] whose message is fixed: it names
    the bounds and not the count.  Seven blanks are rejected. *)
Theorem blank_count_out_of_range as_dict t :
  template_of as_dict t →
  length (blanks t) < 8 ∨ 10 < length (blanks t) →
  parse_template_dict as_dict = Err BLANK_COUNT.
Proof.
  intros Ht Hn. rewrite (parse_template_dict_of _ _ Ht).
  destruct Hn as [Hn|Hn].
  - apply Nat.leb_gt in Hn. by rewrite Hn.
  - apply Nat.leb_gt in Hn. by rewrite Hn, andb_false_r.
Qed.

(** ** The markup iterator always comes to an end *)

Section MarkupFuel.
Import Format.

Lemma scan_literal_length s lit rest :
  scan_literal s = (lit, rest) →
  String.length s = String.length lit + String.length rest.
Proof.
  revert lit rest. induction s as [|c s IH]; intros lit rest; simpl.
  - by intros [= <- <-].
  - destruct (is_brace c); [by intros [= <- <-]|].
    destruct (scan_literal s) as [lit' rest'].
    intros [= <- <-]. simpl. by rewrite (IH lit' rest').
Qed.

Lemma scan_field_name_length in_bracket s name stop rest :
  scan_field_name in_bracket s = Ok (name, stop, rest) →
  String.length rest < String.length s.
Proof.
  revert in_bracket name. induction s as [|c s IH]; intros b name; [done|].
  cbn [scan_field_name].
  assert (∀ b',
    (('(name, stop, rest) ← scan_field_name b' s;
      Ok (String c name, stop, rest)) : PyResult _) = Ok (name, stop, rest) →
    String.length rest < String.length (String c s)) as Hkeep.
  { intros b'. destruct (scan_field_name b' s) as [[[n st] r]|] eqn:Hs; [|done].
    simpl. intros [= <- <- <-]. apply IH in Hs. simpl. lia. }
  destruct b; [apply Hkeep|].
  destruct (Ascii.eqb c "{"); [done|].
  destruct (Ascii.eqb c "["); [apply Hkeep|].
  destruct (_ || _); [|apply Hkeep].
  intros [= <- <- <-]. simpl. lia.
Qed.

Lemma scan_format_spec_length nested s spec expand rest :
  scan_format_spec nested s = Ok (spec, expand, rest) →
  String.length rest < String.length s.
Proof.
  revert nested spec expand. induction s as [|c s IH];
    intros nested spec expand; [done|].
  cbn [scan_format_spec].
  destruct (Ascii.eqb c "{").
  { destruct (scan_format_spec (S nested) s) as [[[sp e] r]|] eqn:Hs; [|done].
    simpl. intros [= <- <- <-]. apply IH in Hs. simpl. lia. }
  destruct (Ascii.eqb c "}").
  { destruct nested as [|nested]; [intros [= <- <- <-]; simpl; lia|].
    destruct (scan_format_spec nested s) as [[[sp e] r]|] eqn:Hs; [|done].
    simpl. intros [= <- <- <-]. apply IH in Hs. simpl. lia. }
  destruct (scan_format_spec nested s) as [[[sp e] r]|] eqn:Hs; [|done].
  simpl. intros [= <- <- <-]. apply IH in Hs. simpl. lia.
Qed.

Lemma with_format_spec_length name conv s f rest :
  with_format_spec name conv s = Ok (f, rest) →
  String.length rest < String.length s.
Proof.
  unfold with_format_spec.
  destruct (scan_format_spec 0 s) as [[[sp e] r]|] eqn:Hs; [|done].
  simpl. intros [= <- <-]. by apply scan_format_spec_length in Hs.
Qed.

Lemma parse_field_length s f rest :
  parse_field s = Ok (f, rest) → String.length rest < String.length s.
Proof.
  unfold parse_field.
  destruct (scan_field_name false s) as [[[name stop] r]|] eqn:Hs; [|done].
  apply scan_field_name_length in Hs. cbn -[Ascii.eqb].
  destruct (Ascii.eqb stop "}"); [intros [= <- <-]; lia|].
  destruct (Ascii.eqb stop "!").
  - destruct r as [|conv [|d r']]; [done..|].
    destruct (Ascii.eqb d "}"); [intros [= <- <-]; simpl in *; lia|].
    destruct (Ascii.eqb d ":"); [|done].
    intros Hw%with_format_spec_length. simpl in *. lia.
  - intros Hw%with_format_spec_length. lia.
Qed.

(** Every step of the iterator consumes some of the format string. *)
Lemma MarkupIterator_next_length s m rest :
  MarkupIterator_next s = Yield m rest →
  String.length rest < String.length s.
Proof.
  unfold MarkupIterator_next. destruct s as [|c0 s0]; [done|].
  destruct (scan_literal (String c0 s0)) as [lit at_brace] eqn:Hlit.
  apply scan_literal_length in Hlit. rewrite Hlit.
  destruct at_brace as [|c [|d r]].
  - intros [= <- <-]. simpl in *. lia.
  - done.
  - destruct (Ascii.eqb c d); [intros [= <- <-]; simpl; lia|].
    destruct (Ascii.eqb c "}"); [done|].
    destruct (parse_field (String d r)) as [[f r']|] eqn:Hp; [|done].
    intros [= <- <-]. apply parse_field_length in Hp. simpl in *. lia.
Qed.

(** The counter of [markup_from] only has to reach the length of the format
    string: beyond that its value does not matter, so [markup] never stops
    for want of it. *)
Lemma markup_from_enough fuel1 fuel2 s :
  String.length s ≤ fuel1 → String.length s ≤ fuel2 →
  markup_from fuel1 s = markup_from fuel2 s.
Proof.
  revert fuel2 s. induction fuel1 as [|fuel1 IH]; intros fuel2 s H1 H2.
  - destruct s; [|simpl in *; lia]. by destruct fuel2.
  - destruct fuel2 as [|fuel2].
    { destruct s; [done|simpl in *; lia]. }
    cbn [markup_from].
    destruct (MarkupIterator_next s) as [| |m rest] eqn:Hnext; [done..|].
    apply MarkupIterator_next_length in Hnext.
    rewrite (IH fuel2 rest); [done|lia..].
Qed.

End MarkupFuel.

(** ** The markup iterator on a well-formed skeleton *)

Section Markup.
Import Format.
Implicit Types (s text name rest : string) (c : ascii).

(** A run of plain text is read up to the brace that follows it. *)
Lemma scan_literal_plain text c rest :
  plain_text text = true → is_brace c = true →
  scan_literal (text +:+ String c rest) = (text, String c rest).
Proof.
  intros Htext Hc. induction text as [|d text IH]; simpl in *.
  - by rewrite Hc.
  - apply andb_true_iff in Htext as [Hd Htext].
    apply negb_true_iff in Hd. rewrite Hd, IH; done.
Qed.

Lemma scan_literal_end text :
  plain_text text = true → scan_literal text = (text, EmptyString).
Proof.
  induction text as [|d text IH]; simpl; [done|].
  intros [Hd Htext]%andb_true_iff.
  apply negb_true_iff in Hd. by rewrite Hd, IH.
Qed.

Lemma name_char_spec c :
  name_char c = true →
  Ascii.eqb c "{" = false ∧ Ascii.eqb c "}" = false
  ∧ Ascii.eqb c "[" = false ∧ Ascii.eqb c "." = false
  ∧ Ascii.eqb c "!" = false ∧ Ascii.eqb c ":" = false.
Proof.
  unfold name_char, is_brace. intros H%negb_true_iff.
  repeat (apply orb_false_iff in H as [H ?]). done.
Qed.

Lemma scan_field_name_plain name rest :
  all_chars name_char name = true →
  scan_field_name false (name +:+ String "}" rest) = Ok (name, "}"%char, rest).
Proof.
  induction name as [|c name IH]; simpl; [done|].
  intros [Hc Hname]%andb_true_iff.
  destruct (name_char_spec c Hc) as (-> & -> & -> & _ & -> & ->). simpl.
  by rewrite IH.
Qed.

Lemma parse_field_plain name rest :
  all_chars name_char name = true →
  parse_field (name +:+ String "}" rest) = Ok (plain_field name, rest).
Proof.
  intros Hname. unfold parse_field.
  by rewrite scan_field_name_plain.
Qed.

(** One step of the iterator over [text{name}rest]. *)
Lemma MarkupIterator_next_part text name rest :
  plain_text text = true → all_chars name_char name = true →
  MarkupIterator_next (text +:+ "{" +:+ name +:+ String "}" rest)
  = Yield {| literal := text; field := Some (plain_field name) |} rest.
Proof.
  intros Htext Hname. unfold MarkupIterator_next.
  change ("{" +:+ name +:+ String "}" rest)
    with (String "{" (name +:+ String "}" rest)).
  rewrite scan_literal_plain by done.
  assert (∀ d r, name +:+ String "}" rest = String d r →
                 Ascii.eqb "{" d = false) as Hd.
  { intros d r Heq. destruct name as [|c name]; simpl in Heq;
      injection Heq as <- _; [done|].
    simpl in Hname. apply andb_true_iff in Hname as [Hc _].
    destruct (name_char_spec c Hc) as (H & _). by rewrite Ascii.eqb_sym. }
  pose proof (parse_field_plain name rest Hname) as Hp.
  destruct (name +:+ String "}" rest) as [|d r] eqn:Hs.
  { destruct name; done. }
  rewrite (Hd d r eq_refl). simpl. rewrite Hp.
  by destruct text.
Qed.

Lemma length_skeleton_part text name rest :
  String.length (text +:+ "{" +:+ name +:+ String "}" rest)
  = String.length text + String.length name + String.length rest + 2.
Proof. rewrite !length_append. simpl. lia. Qed.

Lemma markup_from_empty fuel : markup_from fuel EmptyString = ([], None).
Proof. by destruct fuel. Qed.

(** The iterator yields one item for each part, then the ending. *)
Lemma markup_from_skeleton_text fuel parts ending :
  Forall well_formed_part parts → plain_text ending = true →
  String.length (skeleton_text parts ending) ≤ fuel →
  markup_from fuel (skeleton_text parts ending)
  = (items_of parts ending, None).
Proof.
  intros Hparts Hend. revert fuel.
  induction Hparts as [|[text name] parts [Htext Hname] _ IH]; intros fuel.
  - simpl. unfold items_of. simpl. destruct ending as [|c ending].
    { intros _. apply markup_from_empty. }
    destruct fuel as [|fuel]; [simpl; lia|]. intros _.
    cbn [markup_from]. unfold MarkupIterator_next.
    rewrite scan_literal_end by done.
    by rewrite markup_from_empty.
  - cbn [skeleton_text].
    change ("{" +:+ name +:+ "}" +:+ skeleton_text parts ending)
      with ("{" +:+ name +:+ String "}" (skeleton_text parts ending)).
    rewrite length_skeleton_part.
    destruct fuel as [|fuel]; [lia|]. intros Hfuel.
    cbn [markup_from]. simpl in Htext, Hname.
    rewrite MarkupIterator_next_part by done.
    rewrite IH by lia. done.
Qed.

Lemma markup_skeleton_text parts ending :
  Forall well_formed_part parts → plain_text ending = true →
  markup (skeleton_text parts ending) = (items_of parts ending, None).
Proof. intros. by apply markup_from_skeleton_text. Qed.

Lemma field_name_split_plain name :
  all_chars name_char name = true →
  field_name_split name = (name, EmptyString).
Proof.
  induction name as [|c name IH]; simpl; [done|].
  intros [Hc Hname]%andb_true_iff.
  destruct (name_char_spec c Hc) as (_ & _ & -> & -> & _). simpl.
  by rewrite IH.
Qed.

End Markup.

(** ** Rendering a well-formed skeleton *)

Section RenderParts.
Import Format.
Context {formatter : FieldFormatter}.
Implicit Types (answers : gmap string string) (k : string).

Lemma get_first_lookup answers k :
  lookup_name k →
  get_first answers k =
  match answers !! k with Some v => Ok v | None => Err (KeyError k) end.
Proof.
  intros (_ & Hne & Hint). unfold get_first. rewrite Hint. simpl.
  by apply String.eqb_neq in Hne as ->.
Qed.

Lemma output_markup_plain answers expand k :
  lookup_name k →
  output_markup answers expand (plain_field k) =
  match answers !! k with Some v => Ok v | None => Err (KeyError k) end.
Proof.
  intros Hk. unfold output_markup. simpl.
  rewrite field_name_split_plain by apply Hk.
  rewrite get_first_lookup by done.
  by destruct (answers !! k).
Qed.

Lemma items_of_cons text k parts ending :
  items_of ((text, k) :: parts) ending
  = {| literal := text; field := Some (plain_field k) |}
      :: items_of parts ending.
Proof. reflexivity. Qed.

Lemma do_markup_items_of answers expand parts ending :
  Forall lookup_name parts.*2 →
  do_markup answers expand (items_of parts ending) None =
  match first_unresolved answers parts with
  | Some k => Err (KeyError k)
  | None => Ok (fill answers parts ending)
  end.
Proof.
  induction parts as [|[text k] parts IH].
  - intros _. unfold items_of. simpl.
    destruct ending; simpl; [done|]. by rewrite append_empty_r.
  - intros [Hk Hparts]%Forall_cons. rewrite items_of_cons.
    cbn [do_markup field literal first_unresolved fill].
    rewrite output_markup_plain by done.
    destruct (answers !! k) as [v|]; simpl; [|done].
    rewrite IH by done.
    by destruct (first_unresolved answers parts).
Qed.

Lemma well_formed_parts parts :
  Forall (λ text, plain_text text = true) parts.*1 →
  Forall lookup_name parts.*2 →
  Forall well_formed_part parts.
Proof.
  induction parts as [|[text k] parts IH]; [done|].
  simpl. intros [? ?]%Forall_cons [[? _] ?]%Forall_cons.
  constructor; [done|]. by apply IH.
Qed.

(** The names looked up in a well-formed skeleton are its placeholders. *)
Lemma placeholders_skeleton_text parts ending :
  Forall (λ text, plain_text text = true) parts.*1 →
  Forall lookup_name parts.*2 →
  plain_text ending = true →
  placeholders (skeleton_text parts ending) = parts.*2.
Proof.
  intros Htexts Hnames Hend. unfold placeholders. cbn [placeholder_names].
  rewrite markup_skeleton_text; [|by apply well_formed_parts|done].
  simpl. clear Htexts Hend.
  induction parts as [|[text k] parts IH]; [by destruct ending|].
  rewrite items_of_cons. cbn [markup_names field].
  simpl in Hnames. apply Forall_cons in Hnames as [[Hk _] Hnames].
  unfold field_names. simpl.
  rewrite field_name_split_plain by done. simpl. by rewrite IH.
Qed.

(** [str.format] on a skeleton of plain text and [{name}] placeholders:
    the first placeholder without an answer raises [KeyError]; if there is
    none, every placeholder is replaced by its answer. *)
Lemma format_skeleton_text answers parts ending :
  Forall (λ text, plain_text text = true) parts.*1 →
  Forall lookup_name parts.*2 →
  plain_text ending = true →
  format answers (skeleton_text parts ending) =
  match first_unresolved answers parts with
  | Some k => Err (KeyError k)
  | None => Ok (fill answers parts ending)
  end.
Proof.
  intros Htexts Hnames Hend. unfold format. cbn [build_string].
  rewrite markup_skeleton_text; [by apply do_markup_items_of| |done].
  by apply well_formed_parts.
Qed.

Lemma first_unresolved_complete answers parts :
  (∀ k, k ∈ parts.*2 → is_Some (answers !! k)) →
  first_unresolved answers parts = None.
Proof.
  induction parts as [|[text k] parts IH]; simpl; [done|]. intros Hall.
  destruct (Hall k) as [v ->]; [by left|].
  apply IH. intros k' Hk'. apply Hall. by right.
Qed.

Lemma plain_text_fill answers parts ending :
  Forall (λ text, plain_text text = true) parts.*1 →
  plain_text ending = true →
  (∀ k v, answers !! k = Some v → plain_text v = true) →
  plain_text (fill answers parts ending) = true.
Proof.
  intros Htexts Hend Hans.
  induction parts as [|[text k] parts IH]; simpl in *; [done|].
  apply Forall_cons in Htexts as [Htext Htexts].
  unfold plain_text in *. rewrite !all_chars_append, Htext, IH by done.
  destruct (answers !! k) as [v|] eqn:Hv; simpl; [|done].
  by rewrite (Hans _ _ Hv).
Qed.

End RenderParts.

(** ** Names that are looked up as they are *)

Section Names.
Import Format.

Lemma decimal_digit_range c d : decimal_digit c = Some d → (0 ≤ d ≤ 9)%Z.
Proof.
  unfold decimal_digit. destruct (_ && _) eqn:H; [|done].
  apply andb_true_iff in H as [H1%Nat.leb_le H2%Nat.leb_le].
  intros [= <-]. lia.
Qed.

Lemma decimal_digit_is_digit c :
  is_digit c = match decimal_digit c with Some _ => true | None => false end.
Proof. unfold is_digit, decimal_digit. by destruct (_ && _). Qed.

Lemma leading_number_from_ge acc s :
  (0 ≤ acc)%Z → (acc ≤ leading_number_from acc s)%Z.
Proof.
  revert acc. induction s as [|c s IH]; intros acc Hacc; simpl; [lia|].
  destruct (decimal_digit c) as [d|] eqn:Hd; [|lia].
  apply decimal_digit_range in Hd.
  etrans; [|apply IH]; lia.
Qed.

(** A name with a character that is not a digit, whose leading digits stay
    in range, is not taken for an index. *)
Lemma get_integer_from_name acc s :
  (0 ≤ acc)%Z → all_chars is_digit s = false →
  (leading_number_from acc s ≤ PY_SSIZE_T_MAX)%Z →
  get_integer_from acc s = Ok None.
Proof.
  revert acc. induction s as [|c s IH]; intros acc Hacc; simpl; [done|].
  rewrite decimal_digit_is_digit.
  destruct (decimal_digit c) as [d|] eqn:Hd; [|done]. simpl.
  intros Hs Hmax. pose proof (decimal_digit_range _ _ Hd) as Hrange.
  pose proof (leading_number_from_ge (acc * 10 + d) s ltac:(lia)) as Hge.
  destruct (acc >? (PY_SSIZE_T_MAX - d) / 10)%Z eqn:Hcmp.
  - exfalso. apply Z.gtb_lt in Hcmp.
    assert (PY_SSIZE_T_MAX - d < acc * 10)%Z; [|lia].
    pose proof (Z.mul_succ_div_gt (PY_SSIZE_T_MAX - d) 10 ltac:(lia)). lia.
  - apply IH; [lia|done..].
Qed.

Lemma identifier_char_name_char c : identifier_char c = true → name_char c = true.
Proof.
  unfold identifier_char, name_char, is_brace, is_letter, is_digit.
  destruct c as [[] [] [] [] [] [] [] []]; by vm_compute.
Qed.

Lemma all_chars_impl (P Q : ascii → bool) s :
  (∀ c, P c = true → Q c = true) → all_chars P s = true → all_chars Q s = true.
Proof.
  intros HPQ. induction s as [|c s IH]; simpl; [done|].
  intros [Hc Hs]%andb_true_iff. by rewrite (HPQ _ Hc), IH.
Qed.

(** An identifier of the contract is looked up by name, provided the
    number it starts with, if any, fits a machine integer. *)
Lemma identifier_lookup_name k :
  identifier k = true → (leading_number k ≤ PY_SSIZE_T_MAX)%Z →
  lookup_name k.
Proof.
  unfold identifier. intros [[Hne Hchars]%andb_true_iff Hdig]%andb_true_iff Hmax.
  apply negb_true_iff in Hne, Hdig. apply String.eqb_neq in Hne.
  split; [|split; [done|]].
  - by eapply all_chars_impl; [apply identifier_char_name_char|].
  - unfold get_integer. destruct k; [done|].
    by apply get_integer_from_name.
Qed.

End Names.

(** ** What a rendering depends on *)

Section Lookups.
Import Format.
Context {formatter : FieldFormatter}.
Implicit Types (answers : gmap string string) (k : string).

Lemma get_first_agree answers1 answers2 first :
  answers1 !! first = answers2 !! first →
  get_first answers1 first = get_first answers2 first.
Proof. intros Heq. unfold get_first. by rewrite Heq. Qed.

Lemma output_markup_agree answers1 answers2 expand1 expand2 nested f :
  (∀ k, k ∈ field_names nested f → answers1 !! k = answers2 !! k) →
  (format_spec_needs_expanding f = true →
   expand1 (format_spec f) = expand2 (format_spec f)) →
  output_markup answers1 expand1 f = output_markup answers2 expand2 f.
Proof.
  intros Hk Hexp. unfold output_markup, field_names in *.
  destruct (field_name_split (field_name f)) as [first rest]. simpl in Hk.
  rewrite (get_first_agree answers1 answers2 first)
    by (apply Hk; by left).
  destruct (format_spec_needs_expanding f); [|done].
  by rewrite Hexp.
Qed.

Lemma do_markup_agree answers1 answers2 expand1 expand2 nested items stop :
  (∀ k, k ∈ markup_names nested items → answers1 !! k = answers2 !! k) →
  (∀ m f, m ∈ items → field m = Some f →
          format_spec_needs_expanding f = true →
          expand1 (format_spec f) = expand2 (format_spec f)) →
  do_markup answers1 expand1 items stop
  = do_markup answers2 expand2 items stop.
Proof.
  induction items as [|m items IH]; [done|]. intros Hk Hexp.
  cbn [do_markup markup_names] in *.
  rewrite IH.
  - destruct (field m) as [f|] eqn:Hf; [|done].
    rewrite (output_markup_agree answers1 answers2 expand1 expand2 nested f);
      [done| |].
    + intros k Hin. apply Hk, elem_of_app. by left.
    + apply (Hexp m); [by left|done].
  - intros k Hin. apply Hk, elem_of_app. by right.
  - intros m' f' Hin. apply Hexp. by right.
Qed.

(** Two answer maps that agree on the names a format string looks up give
    the same result, output or exception. *)
Lemma build_string_agree answers1 answers2 depth s :
  (∀ k, k ∈ placeholder_names depth s → answers1 !! k = answers2 !! k) →
  build_string answers1 depth s = build_string answers2 depth s.
Proof.
  revert s. induction depth as [|depth IH]; intros s Hk; [done|].
  cbn [build_string placeholder_names] in *.
  destruct (markup s) as [items stop]. simpl in Hk.
  apply (do_markup_agree _ _ _ _ (placeholder_names depth)); [done|].
  intros m f Hm Hf Hexp. apply IH. intros k Hin. apply Hk.
  clear -Hm Hf Hexp Hin.
  induction items as [|m' items IHi]; [by apply elem_of_nil in Hm|].
  cbn [markup_names]. apply elem_of_app.
  apply elem_of_cons in Hm as [<-|Hm]; [left|right; by apply IHi].
  rewrite Hf. unfold field_names. rewrite Hexp. by right.
Qed.

Lemma get_first_Ok answers first v :
  get_first answers first = Ok v → answers !! first = Some v.
Proof.
  unfold get_first. destruct (get_integer first) as [[i|]|]; simpl; try done.
  destruct (String.eqb first ""); [done|].
  by destruct (answers !! first); intros [= ->].
Qed.

Lemma output_markup_Ok answers expand nested f out k :
  output_markup answers expand f = Ok out →
  (∀ spec o, expand spec = Ok o → ∀ k, k ∈ nested spec → is_Some (answers !! k)) →
  k ∈ field_names nested f → is_Some (answers !! k).
Proof.
  unfold output_markup, field_names.
  destruct (field_name_split (field_name f)) as [first rest]. simpl.
  destruct (get_first answers first) as [v|] eqn:Hv; [|done]. simpl.
  apply get_first_Ok in Hv.
  intros Hout Hnested [->|Hin]%elem_of_cons; [by eexists|].
  destruct (match rest with
            | EmptyString => _ | _ => _ end) as [fmt|]; [|done].
  simpl in Hout.
  destruct (format_spec_needs_expanding f); [|by apply elem_of_nil in Hin].
  destruct (expand (format_spec f)) as [spec|] eqn:Hspec; [|done].
  by eapply Hnested.
Qed.

Lemma do_markup_Ok answers expand nested items stop out k :
  do_markup answers expand items stop = Ok out →
  (∀ spec o, expand spec = Ok o → ∀ k, k ∈ nested spec → is_Some (answers !! k)) →
  k ∈ markup_names nested items → is_Some (answers !! k).
Proof.
  intros Hout Hnested. revert out Hout.
  induction items as [|m items IH]; intros out Hout Hin;
    [by apply elem_of_nil in Hin|].
  cbn [do_markup markup_names] in *.
  destruct (field m) as [f|].
  - destruct (output_markup answers expand f) as [o|] eqn:Ho; [|done].
    simpl in Hout.
    destruct (do_markup answers expand items stop) as [tail|]; [|done].
    apply elem_of_app in Hin as [Hin|Hin]; [|by eapply IH].
    by eapply output_markup_Ok.
  - simpl in Hout.
    destruct (do_markup answers expand items stop) as [tail|]; [|done].
    by eapply IH.
Qed.

(** A format string is rendered only if every name it looks up has an
    answer. *)
Lemma build_string_Ok answers depth s out k :
  build_string answers depth s = Ok out →
  k ∈ placeholder_names depth s → is_Some (answers !! k).
Proof.
  revert s out k. induction depth as [|depth IH]; intros s out k; [done|].
  cbn [build_string placeholder_names].
  destruct (markup s) as [items stop]. simpl. intros Hout.
  eapply do_markup_Ok; [done|]. intros spec o Ho k'. by eapply IH.
Qed.

End Lookups.

(** ** Fields that are bare names *)

Section BareNames.
Import Format.
Variables formatter1 formatter2 : FieldFormatter.
Implicit Types (answers : gmap string string) (f : Field).




End BareNames.

(** ** Statements about the validator *)

Lemma length_str_blanks (bs : list (string * string)) :
  length (str_blank <$> bs) = length bs.
Proof. apply length_fmap. Qed.

(** Scenario B: seven blanks are rejected. *)
Lemma blank_count_scenario_B :
  parse_template_dict (template_object Examples.scenario_B) = Err BLANK_COUNT.
Proof.
  apply (blank_count_out_of_range _ Examples.scenario_B).
  - apply template_of_object.
  - left. vm_compute. lia.
Defined.

(** The violation does not tell the count: seven blanks and eleven blanks are
    rejected with one and the same error, whose message names the bounds;
    for scenario B it is not the violation [blank-count:7]. *)
Lemma blank_count_not_reported :
  length (blanks Examples.scenario_B) = 7
  ∧ length (blanks Examples.eleven) = 11
  ∧ parse_template_dict (template_object Examples.scenario_B)
    = Err (ValueError "Template must contain between 8 and 10 blanks.")
  ∧ parse_template_dict (template_object Examples.eleven)
    = Err (ValueError "Template must contain between 8 and 10 blanks.")
  ∧ parse_template_dict (template_object Examples.scenario_B)
    ≠ Err (ValueError "blank-count:7").
Proof. repeat split; try (vm_compute; reflexivity). by vm_compute. Qed.

(** C2 (as amended). The validator does not compare keys: a document of the
    expected shape with 8 to 10 blanks is accepted also when two blanks have
    the same key, and the template keeps every blank, duplicates included, in
    the order of the document. *)
Theorem duplicate_keys_accepted as_dict title bs skeleton :
  template_of as_dict (str_template title bs skeleton) →
  8 ≤ length bs ≤ 10 →
  ¬ NoDup bs.*1 →
  parse_template_dict as_dict = Ok (str_template title bs skeleton).
Proof.
  intros Ht Hn _. apply parse_template_dict_accepts; [done|].
  simpl. by rewrite length_str_blanks.
Qed.

Lemma duplicate_keys_accepted_twice_animal :
  parse_template_dict (template_object Examples.twice_animal)
  = Ok Examples.twice_animal.
Proof.
  apply (duplicate_keys_accepted _ "T"
           (("animal", "Another animal:") :: take 7 Examples.eight_blanks)
           "A wild {animal} appeared.").
  - apply (template_of_object Examples.twice_animal).
  - vm_compute. lia.
  - by apply (bool_decide_unpack _); vm_compute.
Defined.

(** The key [animal] is declared twice, and the document is accepted. *)
Lemma twice_animal_validates :
  ¬ NoDup (("animal", "Another animal:") :: take 7 Examples.eight_blanks).*1
  ∧ parse_template_dict (template_object Examples.twice_animal)
    = Ok Examples.twice_animal.
Proof. split; [by apply (bool_decide_unpack _); vm_compute|reflexivity]. Qed.

(** C3 (as amended). The validator does not look at the text of a key: a
    document of the expected shape with 8 to 10 blanks is accepted also when
    a key is empty, has a character that is no letter, digit or underscore,
    or has only digits; the key is kept as it is. *)
Theorem bad_key_accepted as_dict title bs skeleton k :
  template_of as_dict (str_template title bs skeleton) →
  8 ≤ length bs ≤ 10 →
  k ∈ bs.*1 → identifier k = false →
  parse_template_dict as_dict = Ok (str_template title bs skeleton).
Proof.
  intros Ht Hn _ _. apply parse_template_dict_accepts; [done|].
  simpl. by rewrite length_str_blanks.
Qed.

Lemma bad_key_accepted_spaced_key :
  parse_template_dict (template_object Examples.spaced_key)
  = Ok Examples.spaced_key.
Proof.
  apply (bad_key_accepted _ "T"
           (("my animal", "An animal:") :: take 7 Examples.eight_blanks)
           "A wild {animal} appeared." "my animal").
  - apply (template_of_object Examples.spaced_key).
  - vm_compute. lia.
  - by left.
  - reflexivity.
Defined.

(** The key [my animal] is no identifier, and the document is accepted. *)
Lemma spaced_key_validates :
  identifier "my animal" = false
  ∧ parse_template_dict (template_object Examples.spaced_key)
    = Ok Examples.spaced_key.
Proof. split; reflexivity. Qed.

(** C5 (as amended). A top-level value that is no object, or an object
    without [title], [blanks] or [skeleton], is rejected with the
    missing-fields violation, one message for all three members.  An
    object that has the three members and whose [blanks] is no array is
    rejected too: with the blank-count violation when that value iterates as
    empty (the empty string, the empty object), with the missing-fields
    violation in every other case.  The values of [title] and [skeleton] are
    not inspected: with 8 to 10 well-formed blanks the template is built
    around whatever they are. *)
Theorem missing_member_rejected :
  (∀ as_dict, lacks_member as_dict →
     parse_template_dict as_dict = Err MISSED_FIELDS)
  ∧ (∀ o blanks_data,
       o !! "blanks" = Some blanks_data → is_array blanks_data = false →
       (iterates_empty blanks_data →
        is_Some (o !! "title") → is_Some (o !! "skeleton") →
        parse_template_dict (JObj o) = Err BLANK_COUNT)
       ∧ (¬ iterates_empty blanks_data →
          parse_template_dict (JObj o) = Err MISSED_FIELDS))
  ∧ (∀ as_dict t,
       template_of as_dict t → 8 ≤ length (blanks t) ≤ 10 →
       parse_template_dict as_dict = Ok t).
Proof.
  split; [|split].
  - intros as_dict Hlack. unfold parse_template_dict.
    destruct (read_template_lacking _ Hlack) as (e & He & Hkt).
    by rewrite (except_missed_fields _ e He Hkt).
  - apply parse_template_dict_blanks_no_array.
  - apply parse_template_dict_accepts.
Qed.

Lemma missing_member_rejected_untitled :
  parse_template_dict Examples.untitled = Err MISSED_FIELDS.
Proof.
  apply (proj1 missing_member_rejected Examples.untitled).
  left. reflexivity.
Defined.

(** A title that is a number is accepted and kept. *)
Lemma numeric_title_validates :
  is_str (title Examples.numeric_title) = false
  ∧ parse_template_dict (template_object Examples.numeric_title)
    = Ok Examples.numeric_title.
Proof. split; reflexivity. Qed.

(** ** Statements about the renderer *)

Section RendererClaims.
Context {formatter : Format.FieldFormatter}.
Implicit Types (answers : gmap string string) (t : StoryTemplate).

(** C1 (as amended). Take a document with a string title, 8 to 10 blanks
    with string keys and prompts, the keys pairwise distinct identifiers
    whose leading digits, if any, spell a number that fits a machine
    integer, and a skeleton of brace-free text in which every key occurs
    exactly once as a placeholder.  It is accepted, and rendering the
    template with one answer for each key returns the skeleton with every
    placeholder replaced by its answer: no marker of the skeleton is left,
    and the output has a brace only where an answer has one. *)
Theorem validate_then_render as_dict title bs parts ending answers :
  template_of as_dict (str_template title bs (skeleton_text parts ending)) →
  8 ≤ length bs ≤ 10 →
  NoDup bs.*1 →
  Forall (λ k, identifier k = true
               ∧ (leading_number k ≤ Format.PY_SSIZE_T_MAX)%Z) bs.*1 →
  Forall (λ text, plain_text text = true) parts.*1 →
  plain_text ending = true →
  parts.*2 ≡ₚ bs.*1 →
  dom answers = list_to_set bs.*1 →
  parse_template_dict as_dict
  = Ok (str_template title bs (skeleton_text parts ending))
  ∧ build (str_template title bs (skeleton_text parts ending)) answers
    = Ok (fill answers parts ending)
  ∧ ((∀ k v, answers !! k = Some v → plain_text v = true) →
     plain_text (fill answers parts ending) = true).
Proof.
  intros Ht Hn _ Hkeys Htexts Hend Hperm Hdom. split; [|split].
  - apply parse_template_dict_accepts; [done|].
    simpl. by rewrite length_str_blanks.
  - unfold build. simpl. rewrite format_skeleton_text; [|done| |done].
    + rewrite first_unresolved_complete; [done|].
      intros k Hk. apply (elem_of_dom (D:=gset string)).
      rewrite Hdom. apply elem_of_list_to_set. by rewrite <- Hperm.
    + rewrite Hperm. eapply Forall_impl; [exact Hkeys|].
      intros k [Hid Hmax]. by apply identifier_lookup_name.
  - intros Hans. by apply plain_text_fill.
Qed.

(** C6 (as amended). If the format string of the skeleton looks up a name
    that has no answer, rendering never returns an output.  On a skeleton
    of brace-free text and [{name}] placeholders the failure is the
    unresolved-placeholder error of the first placeholder, in skeleton
    order, that has no answer: [build] raises [KeyError] with that name
    and [build_story] reports it as the missing answer. *)
Theorem unresolved_placeholder :
  (∀ t s answers k,
     skeleton t = JStr s → k ∈ placeholders s → answers !! k = None →
     ∀ out, build t answers ≠ Ok out)
  ∧ (∀ t parts ending answers k,
       skeleton t = JStr (skeleton_text parts ending) →
       Forall (λ text, plain_text text = true) parts.*1 →
       Forall lookup_name parts.*2 →
       plain_text ending = true →
       first_unresolved answers parts = Some k →
       build t answers = Err (KeyError k)
       ∧ except_KeyError (build t answers)
         = Err (RuntimeError
                  ("Missing answer for placeholder: " +:+ Repr.repr k))).
Proof.
  split.
  - intros t s answers k Hs Hk Hnone out Hout. unfold build in Hout.
    rewrite Hs in Hout.
    destruct (build_string_Ok answers 2 s out k Hout Hk) as [v Hv].
    congruence.
  - intros t parts ending answers k Hs Htexts Hnames Hend Hfirst.
    assert (build t answers = Err (KeyError k)) as ->; [|done].
    unfold build. rewrite Hs.
    by rewrite format_skeleton_text, Hfirst.
Qed.


(** C10 (as amended). An answer under a name that the skeleton does not
    look up changes nothing: rendering gives the same result, output or
    exception, as without that entry, so no failure is ever due to an
    unused answer.  The result is an output whenever the skeleton is
    brace-free text with [{name}] placeholders that all have an answer. *)
Theorem unused_answers_ignored :
  (∀ t s answers extra,
     skeleton t = JStr s → extra ∉ placeholders s →
     build t answers = build t (delete extra answers))
  ∧ (∀ t parts ending answers extra,
       skeleton t = JStr (skeleton_text parts ending) →
       Forall (λ text, plain_text text = true) parts.*1 →
       Forall lookup_name parts.*2 →
       plain_text ending = true →
       (∀ k, k ∈ parts.*2 → is_Some (answers !! k)) →
       extra ∉ parts.*2 →
       build t answers = Ok (fill answers parts ending)
       ∧ build t (delete extra answers) = Ok (fill answers parts ending)).
Proof.
  assert (∀ t s answers extra,
     skeleton t = JStr s → extra ∉ placeholders s →
     build t answers = build t (delete extra answers)) as Hsame.
  { intros t s answers extra Hs Hextra. unfold build. rewrite Hs.
    apply build_string_agree. intros k Hk.
    rewrite lookup_delete_ne; [done|]. by intros ->. }
  split; [done|].
  intros t parts ending answers extra Hs Htexts Hnames Hend Hall Hextra.
  assert (build t answers = Ok (fill answers parts ending)) as Hbuild.
  { unfold build. rewrite Hs.
    by rewrite format_skeleton_text, first_unresolved_complete. }
  split; [done|]. rewrite <- Hbuild. symmetry.
  apply (Hsame t (skeleton_text parts ending)); [done|].
  by rewrite placeholders_skeleton_text.
Qed.

End RendererClaims.

(** Scenario A: the eight-blank template is accepted and rendered. *)
Lemma validate_then_render_scenario_A :
  parse_template_dict (template_object Examples.scenario_A)
  = Ok Examples.scenario_A
  ∧ build (formatter:=plain_only) Examples.scenario_A Examples.eight_answers
    = Ok (fill Examples.eight_answers Examples.eight_parts ".")
  ∧ ((∀ k v, Examples.eight_answers !! k = Some v → plain_text v = true) →
     plain_text (fill Examples.eight_answers Examples.eight_parts ".") = true).
Proof.
  apply (validate_then_render (formatter:=plain_only)
           (template_object Examples.scenario_A) "T" Examples.eight_blanks
           Examples.eight_parts "." Examples.eight_answers).
  - apply (template_of_object Examples.scenario_A).
  - vm_compute. lia.
  - by apply (bool_decide_unpack _); vm_compute.
  - repeat constructor; vm_compute; congruence.
  - repeat constructor.
  - reflexivity.
  - reflexivity.
  - unfold Examples.eight_answers. rewrite dom_list_to_map_L. f_equal.
Defined.

Example scenario_A_story :
  build (formatter:=plain_only) Examples.scenario_A Examples.eight_answers
  = Ok ("A wild walrus appeared. It was teal and ate soup in Oslo, where it "
        +:+ "would dance in a jolly way with a spoon named Bo.").
Proof. vm_compute. reflexivity. Qed.

(** The bound on leading digits is needed: the key
    [9223372036854775808a] is an identifier, the document is accepted, every
    key is referenced once and has an answer, and the formatter gives up on
    the number the name starts with. *)
Lemma long_number_key_not_rendered :
  NoDup Examples.long_number_blanks.*1
  ∧ Forall (λ k, identifier k = true) Examples.long_number_blanks.*1
  ∧ Examples.long_number_parts.*2 ≡ₚ Examples.long_number_blanks.*1
  ∧ dom Examples.long_number_answers
    = list_to_set Examples.long_number_blanks.*1
  ∧ parse_template_dict (template_object Examples.long_number_template)
    = Ok Examples.long_number_template
  ∧ build (formatter:=plain_only) Examples.long_number_template
      Examples.long_number_answers
    = Err (ValueError "Too many decimal digits in format string").
Proof.
  split; [by apply (bool_decide_unpack _); vm_compute|].
  split; [repeat constructor|].
  split; [reflexivity|].
  split; [|split; reflexivity].
  unfold Examples.long_number_answers. rewrite dom_list_to_map_L. f_equal.
Qed.

(** Scenario C: the skeleton names [ghost], which is no blank's key. *)
Lemma unresolved_placeholder_ghost :
  build (formatter:=plain_only) Examples.ghost_template Examples.eight_answers
  = Err (KeyError "ghost")
  ∧ except_KeyError
      (build (formatter:=plain_only) Examples.ghost_template
         Examples.eight_answers)
    = Err (RuntimeError
             ("Missing answer for placeholder: " +:+ Repr.repr "ghost")).
Proof.
  apply (proj2 (unresolved_placeholder (formatter:=plain_only))
           Examples.ghost_template
           [("A wild ", "animal"); (" met a ", "ghost")] "."
           Examples.eight_answers "ghost").
  - reflexivity.
  - repeat constructor.
  - repeat constructor; vm_compute; congruence.
  - reflexivity.
  - reflexivity.
Defined.

Example scenario_A_told :
  build_story (formatter:=plain_only) Examples.scenario_A Examples.eight_words
  = Ok ("A wild walrus appeared. It was teal and ate soup in Oslo, where it "
        +:+ "would dance in a jolly way with a spoon named Bo.").
Proof. vm_compute. reflexivity. Qed.

Example scenario_C_story :
  build_story (formatter:=plain_only) Examples.ghost_template
    Examples.eight_words
  = Err (RuntimeError "Missing answer for placeholder: 'ghost'").
Proof. vm_compute. reflexivity. Qed.

(** An earlier brace hides an unresolved placeholder: the skeleton contains
    the placeholder [{ghost}], [ghost] has no answer, and the failure is the
    formatter's complaint about the brace before it, which [build_story]
    passes on unchanged. *)
Lemma stray_brace_hides_ghost :
  PyStr.occurs "{ghost}" "A wild } met a {ghost}."
  ∧ Examples.eight_answers !! "ghost" = None
  ∧ build (formatter:=plain_only) Examples.stray_brace_template
      Examples.eight_answers
    = Err (ValueError "Single '}' encountered in format string")
  ∧ build_story (formatter:=plain_only) Examples.stray_brace_template
      Examples.eight_words
    = Err (ValueError "Single '}' encountered in format string").
Proof.
  split; [by exists "A wild } met a ", "."|].
  repeat split; vm_compute; reflexivity.
Qed.



Lemma unused_answers_ignored_mood :
  build (formatter:=plain_only) Examples.scenario_B Examples.eight_answers
  = build (formatter:=plain_only) Examples.scenario_B
      (delete "mood" Examples.eight_answers).
Proof.
  apply (proj1 (unused_answers_ignored (formatter:=plain_only))
           Examples.scenario_B "A wild {animal} appeared."
           Examples.eight_answers "mood").
  - reflexivity.
  - by apply (bool_decide_unpack _); vm_compute.
Defined.

(** Complete answers do not make a skeleton renderable: [animal], the one
    name the skeleton looks up, has an answer, [mood] is an answer for no placeholder,
    and rendering fails on the closing brace. *)
Lemma closing_brace_not_rendered :
  placeholders "A wild {animal} appeared. }" = ["animal"]
  ∧ Examples.eight_answers !! "animal" = Some "walrus"
  ∧ Examples.eight_answers !! "mood" = Some "jolly"
  ∧ build (formatter:=plain_only) Examples.closing_brace_template
      Examples.eight_answers
    = Err (ValueError "Single '}' encountered in format string").
Proof. repeat split; vm_compute; reflexivity. Qed.

(** * Further properties *)

(** ** The validator: what is accepted, what is raised *)

Lemma make_blank_inv item b : make_blank item = Ok b → blank_of item b.
Proof.
  unfold make_blank. destruct item; try done. simpl.
  destruct (members !! "key") as [k|] eqn:Hk; [|done]. simpl.
  destruct (members !! "prompt") as [p|] eqn:Hp; [|done]. simpl.
  intros [= <-]. by exists members.
Qed.

Lemma for_each_make_blank_inv items bs :
  for_each make_blank items = Ok bs → Forall2 blank_of items bs.
Proof.
  revert bs. induction items as [|item items IH]; intros bs; simpl.
  - intros [= <-]. constructor.
  - destruct (make_blank item) as [b|] eqn:Hb; [|done]. simpl.
    destruct (for_each make_blank items) as [bs'|]; [|done]. simpl.
    intros [= <-]. constructor; [by apply make_blank_inv|by apply IH].
Qed.

(** What an accepted document looks like. *)
Lemma parse_template_dict_spells as_dict t :
  parse_template_dict as_dict = Ok t →
  template_of as_dict t ∧ 8 ≤ length (blanks t) ≤ 10.
Proof.
  intros [Hread Hn]%parse_template_dict_Ok. split; [|done].
  unfold read_template in Hread.
  destruct as_dict as [| | | | | |o]; try done. simpl in Hread.
  destruct (o !! "blanks") as [blanks_data|] eqn:Hb; [|done]. simpl in Hread.
  destruct (iterate blanks_data) as [items|] eqn:Hi; [|done]. simpl in Hread.
  destruct (for_each make_blank items) as [bs|] eqn:Hbs; [|done].
  simpl in Hread.
  destruct (o !! "title") as [ti|] eqn:Ht; [|done]. simpl in Hread.
  destruct (o !! "skeleton") as [sk|] eqn:Hs; [|done]. simpl in Hread.
  injection Hread as <-. simpl in *.
  assert (∀ l : list string, for_each make_blank (JStr <$> l) = Ok bs → False)
    as Hstrings.
  { intros l Hl.
    destruct (for_each_make_blank_strings l) as [H0|(e & He & _)];
      rewrite Hl in *; [|done].
    injection H0 as ->. simpl in Hn. lia. }
  destruct blanks_data; try done; simpl in Hi; injection Hi as <-.
  - by destruct (Hstrings _ Hbs).
  - exists o, items0. repeat split; try done. by apply for_each_make_blank_inv.
  - by destruct (Hstrings _ Hbs).
Qed.

(** X1. [parse_template_payload] accepts a decoded document exactly when it
    is an object with members [title] and [skeleton] and an array [blanks] of
    8 to 10 objects that each have [key] and [prompt]; the template it
    returns holds those values as they are, the blanks in the order of the
    array. *)
Theorem parse_template_dict_accepts_iff as_dict t :
  parse_template_dict as_dict = Ok t
  ↔ template_of as_dict t ∧ 8 ≤ length (blanks t) ≤ 10.
Proof.
  split; [apply parse_template_dict_spells|].
  intros [Ht Hn]. by apply parse_template_dict_accepts.
Qed.

(** Of the exceptions of the field accesses none gets out. *)
Lemma parse_template_dict_errors as_dict :
  (∃ t, parse_template_dict as_dict = Ok t)
  ∨ parse_template_dict as_dict = Err MISSED_FIELDS
  ∨ parse_template_dict as_dict = Err BLANK_COUNT.
Proof.
  unfold parse_template_dict.
  destruct (read_template as_dict) as [t|e] eqn:Hread.
  - cbn -[Nat.leb]. destruct (negb _); [by do 2 right|left; by eexists].
  - right; left.
    assert (key_or_type_error e) as He; [|by destruct e].
    revert Hread. unfold read_template.
    destruct (subscript as_dict "blanks") as [b|] eqn:H1; simpl;
      [|intros [= <-]; by eapply subscript_err].
    destruct (iterate b) as [items|] eqn:H2; simpl;
      [|intros [= <-]; by eapply iterate_err].
    destruct (for_each make_blank items) as [bs|] eqn:H3; simpl;
      [|intros [= <-]; by eapply for_each_make_blank_err].
    destruct (subscript as_dict "title") as [ti|] eqn:H4; simpl;
      [|intros [= <-]; by eapply subscript_err].
    destruct (subscript as_dict "skeleton") as [sk|] eqn:H5; simpl;
      [done|intros [= <-]; by eapply subscript_err].
Qed.

(** X2. What [parse_template_payload] can end with, by what [json.loads]
    does with the payload.  A [JSONDecodeError] becomes the not-valid-JSON
    [ValueError]; any other exception of [json.loads] ([RecursionError], the
    [ValueError] of the digit limit) is not caught and gets out as it is;
    a decoded document gives a template or one of two [ValueError]s, missed
    required fields or blank count.  No [KeyError] or [TypeError] of the
    field accesses gets out. *)
Theorem parse_template_payload_errors json_loads payload :
  match json_loads payload with
  | Decoded _ =>
      (∃ t, parse_template_payload json_loads payload = Ok t)
      ∨ parse_template_payload json_loads payload = Err MISSED_FIELDS
      ∨ parse_template_payload json_loads payload = Err BLANK_COUNT
  | JSONDecodeError =>
      parse_template_payload json_loads payload = Err NOT_JSON
  | Raises e => parse_template_payload json_loads payload = Err e
  end.
Proof.
  unfold parse_template_payload.
  destruct (json_loads payload) as [as_dict| |e]; [|done..].
  apply parse_template_dict_errors.
Qed.

(** X3. Members the pipeline does not know are ignored: adding a member
    under any other name to the top-level object changes nothing in what
    [parse_template_payload] returns, and adding one to an element of
    [blanks] changes nothing in the blank made of it. *)
Theorem unknown_members_ignored :
  (∀ o name v,
     name ≠ "title" → name ≠ "blanks" → name ≠ "skeleton" →
     parse_template_dict (JObj (<[name := v]> o)) = parse_template_dict (JObj o))
  ∧ (∀ o name v,
       name ≠ "key" → name ≠ "prompt" →
       make_blank (JObj (<[name := v]> o)) = make_blank (JObj o)).
Proof.
  split.
  - intros o name v Ht Hb Hs. unfold parse_template_dict, read_template.
    simpl. by rewrite !lookup_insert_ne.
  - intros o name v Hk Hp. unfold make_blank. simpl.
    by rewrite !lookup_insert_ne.
Qed.

Lemma unknown_members_ignored_note :
  parse_template_dict
    (JObj (<["note" := JStr "fresh"]>
             {[ "title" := JStr "T";
                "blanks" := JArr (blank_object <$> blanks Examples.scenario_A);
                "skeleton" := skeleton Examples.scenario_A ]}))
  = parse_template_dict (template_object Examples.scenario_A).
Proof.
  apply (proj1 unknown_members_ignored); done.
Defined.

(** ** The sanitizer: what comes back *)

Section Sanitized.
Import PyStr.
Implicit Types (s p text payload : string).

Lemma drop_suffix n s : ∃ pre, s = pre +:+ drop n s.
Proof.
  revert s. induction n as [|n IH]; intros s; [by exists EmptyString|].
  destruct s as [|c s]; [by exists EmptyString|].
  destruct (IH s) as [pre Hpre]. exists (String c pre). simpl. congruence.
Qed.

(** Every piece of a split is a substring of the text. *)
Lemma split_from_substring fuel sep s p :
  p ∈ split_from fuel sep s → occurs p s.
Proof.
  revert s p. induction fuel as [|fuel IH]; intros s p; simpl.
  { intros ->%list_elem_of_singleton. exists EmptyString, EmptyString.
    by rewrite append_empty_r. }
  destruct s as [|c s].
  { intros ->%list_elem_of_singleton. by exists EmptyString, EmptyString. }
  destruct (String.prefix sep (String c s)).
  - intros [->|Hin]%elem_of_cons; [by exists EmptyString, (String c s)|].
    apply IH in Hin as (pre & post & Hs).
    destruct (drop_suffix (String.length sep) (String c s)) as [pre' Hd].
    exists (pre' +:+ pre), post. rewrite Hd at 1. rewrite Hs.
    by rewrite append_assoc.
  - destruct (split_from_head fuel sep s) as (p0 & ps & q & Hsp & Hs).
    rewrite Hsp. simpl. intros [->|Hin]%elem_of_cons.
    + exists EmptyString, q. simpl. by rewrite Hs at 1.
    + destruct (IH s p) as (pre & post & Hp).
      { rewrite Hsp. by right. }
      exists (String c pre), post. simpl. by rewrite Hp at 1.
Qed.

Lemma occurs_trans p q s : occurs p q → occurs q s → occurs p s.
Proof.
  intros (pre & post & ->) (pre' & post' & ->).
  exists (pre' +:+ pre), (post +:+ post'). by rewrite !append_assoc.
Qed.

Lemma occurs_strip_self s : occurs (strip s) s.
Proof. destruct (strip_substring s) as (lead & trail & Hs). by exists lead, trail. Qed.

(** The loop of [strip_code_fence], with what it knows of the chunk it
    returns. *)
Lemma first_chunk_returned parts cleaned :
  first_chunk parts cleaned = cleaned
  ∨ ∃ chunk, chunk ∈ parts
      ∧ first_chunk parts cleaned = strip chunk
      ∧ strip chunk ≠ EmptyString
      ∧ String.eqb (lower (strip chunk)) "json" = false.
Proof.
  induction parts as [|chunk parts IH]; simpl; [by left|].
  destruct (String.eqb (strip chunk) "") eqn:He; simpl.
  - destruct IH as [?|(c & ? & ?)]; [by left|].
    right. exists c. split; [by right|done].
  - destruct (String.eqb (lower (strip chunk)) "json") eqn:Hj.
    + destruct IH as [?|(c & ? & ?)]; [by left|].
      right. exists c. split; [by right|done].
    + right. exists chunk. apply String.eqb_neq in He.
      split; [by left|done].
Qed.

(** X4. What [strip_code_fence] returns has no white space at either end:
    stripping it again changes nothing. *)
Theorem strip_code_fence_trimmed text :
  strip (strip_code_fence text) = strip_code_fence text.
Proof.
  rewrite strip_code_fence_unfold.
  destruct (startswith (strip text) FENCE); [|apply strip_strip].
  destruct (first_chunk_cases (split (strip text) FENCE) (strip text))
    as [->|(chunk & _ & ->)]; apply strip_strip.
Qed.

(** X5. [strip_code_fence] only removes text: what it returns occurs in the
    raw text as it stands. *)
Theorem strip_code_fence_substring text :
  occurs (strip_code_fence text) text.
Proof.
  rewrite strip_code_fence_unfold.
  destruct (startswith (strip text) FENCE); [|apply occurs_strip_self].
  destruct (first_chunk_cases (split (strip text) FENCE) (strip text))
    as [->|(chunk & Hin & ->)]; [apply occurs_strip_self|].
  eapply occurs_trans; [apply occurs_strip_self|].
  eapply occurs_trans; [|apply occurs_strip_self].
  by eapply split_from_substring.
Qed.

(** X6. A fence is returned only when there is nothing else to return: the
    result is free of fences, or it is the whole stripped text (a text
    without leading fence, or one whose chunks are all blank or the bare
    word [json]). *)
Theorem strip_code_fence_no_fence_left text :
  strip_code_fence text = strip text
  ∨ ¬ occurs FENCE (strip_code_fence text).
Proof.
  rewrite strip_code_fence_unfold.
  destruct (startswith (strip text) FENCE); [|by left].
  destruct (first_chunk_cases (split (strip text) FENCE) (strip text))
    as [->|(chunk & Hin & ->)]; [by left|right].
  intros Hocc%occurs_strip.
  exact (split_pieces _ FENCE chunk ltac:(done) Hin Hocc).
Qed.

(** X7. The sanitizer returns the empty string only for a blank text. *)
Theorem strip_code_fence_empty_iff text :
  strip_code_fence text = EmptyString ↔ strip text = EmptyString.
Proof.
  rewrite strip_code_fence_unfold.
  destruct (startswith (strip text) FENCE) eqn:Hf; [|done].
  destruct (first_chunk_returned (split (strip text) FENCE) (strip text))
    as [->|(chunk & _ & -> & Hne & _)]; [done|].
  split; [done|]. intros Hs. rewrite Hs in Hf. done.
Qed.

Lemma split_from_plain_end fuel s :
  all_chars (λ c, negb (Ascii.eqb c "`")) s = true →
  split_from fuel FENCE s = [s].
Proof.
  revert s. induction fuel as [|fuel IH]; intros s Hs; [done|].
  destruct s as [|c s]; [done|].
  cbn [all_chars] in Hs. apply andb_true_iff in Hs as [Hc Hs].
  apply negb_true_iff in Hc.
  rewrite split_from_other by done. by rewrite IH.
Qed.

(** The run between the opening fence and the next one. *)
Lemma strip_code_fence_run text payload tail :
  strip text = FENCE +:+ payload +:+ tail →
  tail = EmptyString ∨ (∃ rest, tail = FENCE +:+ rest) →
  all_chars (λ c, negb (Ascii.eqb c "`")) payload = true →
  strip payload ≠ EmptyString →
  String.eqb (lower (strip payload)) "json" = false →
  strip_code_fence text = strip payload.
Proof.
  intros Htext Htail Hplain Hne%String.eqb_neq Hjson.
  rewrite strip_code_fence_unfold, Htext.
  assert (startswith (FENCE +:+ payload +:+ tail) FENCE = true) as ->.
  { apply prefix_append. by eexists. }
  unfold split.
  change (String.length (FENCE +:+ payload +:+ tail))
    with (3 + String.length (payload +:+ tail)).
  rewrite (split_from_fence (3 + String.length (payload +:+ tail))).
  assert (∃ more, split_from (3 + String.length (payload +:+ tail)) FENCE
                    (payload +:+ tail) = payload :: more) as [more ->].
  { destruct Htail as [->|[rest ->]].
    - rewrite append_empty_r, split_from_plain_end by done. by eexists.
    - rewrite !length_append.
      replace (3 + (String.length payload + (String.length FENCE + String.length rest)))
        with (String.length payload + S (5 + String.length rest))
        by (simpl; lia).
      rewrite split_from_plain_run by done. by eexists. }
  cbn [first_chunk].
  assert (strip "" = "") as -> by done.
  simpl. by rewrite Hne, Hjson.
Qed.

(** X8. When the stripped text opens with a fence, the run up to the next
    fence (or to the end, if there is none) is what comes back, stripped,
    provided it has no backtick, is not blank and is not the bare word
    [json]: whatever follows the second fence is dropped, and a language tag
    at the head of the run is part of the result. *)
Theorem strip_code_fence_first_run text payload tail :
  strip text = FENCE +:+ payload +:+ tail →
  tail = EmptyString ∨ (∃ rest, tail = FENCE +:+ rest) →
  all_chars (λ c, negb (Ascii.eqb c "`")) payload = true →
  strip payload ≠ EmptyString →
  String.eqb (lower (strip payload)) "json" = false →
  strip_code_fence text = strip payload.
Proof. apply strip_code_fence_run. Qed.

End Sanitized.

Lemma strip_code_fence_first_run_bare :
  strip_code_fence ("```" +:+ Examples.LF +:+ "{}" +:+ Examples.LF +:+ "```")
  = PyStr.strip (Examples.LF +:+ "{}" +:+ Examples.LF).
Proof.
  apply (strip_code_fence_first_run _ (Examples.LF +:+ "{}" +:+ Examples.LF)
           "```").
  - reflexivity.
  - right. by exists EmptyString.
  - reflexivity.
  - vm_compute. congruence.
  - reflexivity.
Defined.

(** ** Collecting the words *)

Section Words.
Context {formatter : Format.FieldFormatter}.
Implicit Types (bs : list (string * string)) (lines keys : list string)
  (answers : gmap string string).

(** With string keys and prompts, [prompt_for_words] reads one line for each
    blank; it fails only when the lines run out. *)
Lemma prompt_for_words_strings bs lines answers :
  prompt_for_words (str_blank <$> bs) lines answers =
  if decide (length bs ≤ length lines)
  then Ok (words_stored bs.*1 lines answers)
  else Err EOFError.
Proof.
  revert lines answers. induction bs as [|[k p] bs IH]; intros lines answers.
  - simpl. by destruct lines.
  - destruct lines as [|line lines]; [done|]. cbn [fmap list_fmap].
    cbn [prompt_for_words prompt key str_blank fst snd words_stored].
    rewrite IH. simpl. repeat case_decide; try done; lia.
Qed.

Lemma words_stored_lookup_other keys lines answers k :
  k ∉ keys → words_stored keys lines answers !! k = answers !! k.
Proof.
  revert lines answers. induction keys as [|k' keys IH]; intros lines answers;
    [done|].
  intros [Hne Hk]%not_elem_of_cons. destruct lines as [|line lines]; [done|].
  simpl. rewrite IH by done. by rewrite lookup_insert_ne.
Qed.

Lemma words_stored_dom keys lines answers :
  length keys ≤ length lines →
  dom (words_stored keys lines answers) = list_to_set keys ∪ dom answers.
Proof.
  revert lines answers. induction keys as [|k keys IH]; intros lines answers.
  - intros _. simpl. by rewrite (left_id_L ∅ (∪)).
  - destruct lines as [|line lines]; [simpl; lia|]. simpl. intros Hlen.
    rewrite IH by lia. rewrite dom_insert_L.
    by rewrite (assoc_L (∪)), (comm_L (∪) (list_to_set keys) {[k]}).
Qed.

Lemma words_stored_lookup keys lines answers i k line :
  keys !! i = Some k → lines !! i = Some line →
  (∀ j, i < j → keys !! j ≠ Some k) →
  words_stored keys lines answers !! k = Some (PyStr.strip line).
Proof.
  revert lines answers i. induction keys as [|k' keys IH];
    intros lines answers i; [done|].
  destruct lines as [|line' lines]; [by destruct i|].
  destruct i as [|i]; simpl.
  - intros [= ->] [= ->] Hlast.
    rewrite words_stored_lookup_other; [by rewrite lookup_insert_eq|].
    intros [j Hj]%list_elem_of_lookup. by apply (Hlast (S j)); [lia|].
  - intros Hk Hline Hlast. apply (IH _ _ i); [done..|].
    intros j Hj. apply (Hlast (S j)). lia.
Qed.

(** X9. With string keys and prompts and at least as many lines as blanks,
    [prompt_for_words] returns a dict whose keys are exactly the keys of the
    blanks; under each key it holds the line typed for the last blank with
    that key, stripped of surrounding white space.  Lines beyond the last
    blank are not read. *)
Theorem prompt_for_words_collects bs lines :
  length bs ≤ length lines →
  ∃ answers,
    prompt_for_words (str_blank <$> bs) lines ∅ = Ok answers
    ∧ prompt_for_words (str_blank <$> bs) (take (length bs) lines) ∅
      = Ok answers
    ∧ dom answers = list_to_set bs.*1
    ∧ ∀ i k line,
        bs.*1 !! i = Some k → lines !! i = Some line →
        (∀ j, i < j → bs.*1 !! j ≠ Some k) →
        answers !! k = Some (PyStr.strip line)
        ∧ PyStr.strip (PyStr.strip line) = PyStr.strip line.
Proof.
  intros Hlen. exists (words_stored bs.*1 lines ∅).
  assert (∀ ks ls (a : gmap string string),
            length ks ≤ length ls →
            words_stored ks (take (length ks) ls) a = words_stored ks ls a)
    as Htake.
  { induction ks as [|k ks IH]; intros ls a Hl; [by destruct ls|].
    destruct ls as [|l ls]; [simpl in Hl; lia|]. simpl. apply IH.
    simpl in Hl. lia. }
  split; [|split; [|split]].
  - rewrite prompt_for_words_strings. by case_decide.
  - rewrite prompt_for_words_strings, length_take.
    case_decide; [|lia].
    rewrite <- (Htake bs.*1 lines) by by rewrite length_fmap.
    by rewrite length_fmap.
  - rewrite words_stored_dom by by rewrite length_fmap.
    by rewrite dom_empty_L, (right_id_L ∅ (∪)).
  - intros i k line Hk Hline Hlast. split; [|apply strip_strip].
    by eapply words_stored_lookup.
Qed.


(** X11. A story is told when the skeleton is brace-free text with [{name}]
    placeholders that are all keys of blanks: with string keys and prompts
    and enough lines, [build_story] returns the skeleton with every
    placeholder replaced by the word collected for it, and the words are put
    in as they are, braces included. *)
Theorem build_story_told title bs parts ending lines :
  Forall (λ text, plain_text text = true) parts.*1 →
  Forall lookup_name parts.*2 →
  plain_text ending = true →
  (∀ k, k ∈ parts.*2 → k ∈ bs.*1) →
  length bs ≤ length lines →
  build_story (str_template title bs (skeleton_text parts ending)) lines
  = Ok (fill (words_stored bs.*1 lines ∅) parts ending).
Proof.
  intros Htexts Hnames Hend Hdecl Hlen. unfold build_story. simpl.
  rewrite prompt_for_words_strings. case_decide; [|lia]. simpl.
  unfold build. simpl. rewrite format_skeleton_text by done.
  rewrite first_unresolved_complete; [done|].
  intros k Hk. apply (elem_of_dom (D:=gset string)).
  rewrite words_stored_dom by by rewrite length_fmap.
  apply elem_of_union. left. apply elem_of_list_to_set. by apply Hdecl.
Qed.

(** X12. A placeholder that is no blank's key stops the story: when the
    skeleton is brace-free text with [{name}] placeholders and the first one
    that is not declared is [k], [build_story] asks for all the words and
    then raises [RuntimeError] with the message that names [k] in quotes. *)
Theorem build_story_missing_answer title bs before text k after ending lines :
  Forall (λ text, plain_text text = true) (before ++ (text, k) :: after).*1 →
  Forall lookup_name (before ++ (text, k) :: after).*2 →
  plain_text ending = true →
  (∀ k', k' ∈ before.*2 → k' ∈ bs.*1) →
  k ∉ bs.*1 →
  length bs ≤ length lines →
  build_story
    (str_template title bs
       (skeleton_text (before ++ (text, k) :: after) ending)) lines
  = Err (RuntimeError ("Missing answer for placeholder: " +:+ Repr.repr k)).
Proof.
  intros Htexts Hnames Hend Hdecl Hk Hlen. unfold build_story. simpl.
  rewrite prompt_for_words_strings. case_decide; [|lia]. simpl.
  unfold build. simpl. rewrite format_skeleton_text by done.
  assert (first_unresolved (words_stored bs.*1 lines ∅)
            (before ++ (text, k) :: after) = Some k) as ->; [|done].
  clear Htexts Hnames. induction before as [|[t' k'] before IH]; simpl.
  - by rewrite words_stored_lookup_other.
  - assert (is_Some (words_stored bs.*1 lines ∅ !! k')) as [v ->].
    { apply (elem_of_dom (D:=gset string)).
      rewrite words_stored_dom by by rewrite length_fmap.
      apply elem_of_union. left. apply elem_of_list_to_set.
      apply Hdecl. by left. }
    apply IH. intros k'' Hin. apply Hdecl. by right.
Qed.

End Words.

(** ** [str.format], piece by piece *)

Section FormatPieces.
Import Format.
Context {formatter : FieldFormatter}.
Implicit Types (answers : gmap string string) (s rest text : string)
  (c : ascii) (depth : nat).

(** The iterator run from [s] is its first step followed by the run from
    what that step leaves. *)
Lemma markup_unfold s :
  markup s =
  match MarkupIterator_next s with
  | Stop => ([], None)
  | Raise e => ([], Some e)
  | Yield m rest => let '(ms, e) := markup rest in (m :: ms, e)
  end.
Proof.
  unfold markup. destruct s as [|c s]; [done|].
  cbn [String.length markup_from].
  destruct (MarkupIterator_next (String c s)) as [| |m rest] eqn:Hnext;
    [done..|].
  apply MarkupIterator_next_length in Hnext. simpl in Hnext.
  rewrite (markup_from_enough (String.length s) (String.length rest) rest);
    [done|lia..].
Qed.

Lemma build_string_empty answers depth :
  build_string answers (S depth) EmptyString = Ok EmptyString.
Proof. done. Qed.

Lemma scan_literal_cons c s :
  is_brace c = false →
  scan_literal (String c s) = ((String c (scan_literal s).1), (scan_literal s).2).
Proof. intros Hc. simpl. rewrite Hc. by destruct (scan_literal s). Qed.

(** A character that is no brace is copied. *)
Lemma build_string_plain_char answers depth c s :
  is_brace c = false →
  build_string answers (S depth) (String c s)
  = String c <$> build_string answers (S depth) s.
Proof.
  intros Hc. cbn [build_string].
  destruct s as [|c' s'].
  { unfold markup. simpl. by rewrite Hc. }
  rewrite (markup_unfold (String c _)), (markup_unfold (String c' s')).
  unfold MarkupIterator_next. rewrite (scan_literal_cons c) by done.
  destruct (scan_literal (String c' s')) as [lit at_brace].
  cbn [fst snd].
  destruct at_brace as [|b [|d r]]; [| |].
  - rewrite (markup_unfold EmptyString). simpl. done.
  - done.
  - destruct (Ascii.eqb b d).
    { destruct (markup r) as [ms e]. cbn [do_markup field literal].
      simpl. by destruct (do_markup _ _ ms e). }
    destruct (Ascii.eqb b "}"); [done|].
    destruct (parse_field (String d r)) as [[f r']|]; [|done].
    destruct (markup r') as [ms e]. cbn [do_markup field literal].
    destruct (output_markup _ _ f); [|done]. simpl.
    by destruct (do_markup _ _ ms e).
Qed.

(** A doubled brace gives one brace. *)
Lemma build_string_doubled_brace answers depth c s :
  is_brace c = true →
  build_string answers (S depth) (String c (String c s))
  = String c <$> build_string answers (S depth) s.
Proof.
  intros Hc. cbn [build_string]. rewrite (markup_unfold (String c _)).
  unfold MarkupIterator_next. cbn [scan_literal]. rewrite Hc.
  rewrite Ascii.eqb_refl.
  destruct (markup s) as [ms e]. cbn [do_markup field literal]. simpl.
  by destruct (do_markup _ _ ms e).
Qed.

Lemma build_string_plain_text answers depth text s :
  plain_text text = true →
  build_string answers (S depth) (text +:+ s)
  = String.append text <$> build_string answers (S depth) s.
Proof.
  induction text as [|c text IH].
  { intros _. change ("" +:+ s) with s.
    by destruct (build_string answers (S depth) s). }
  intros [Hc Htext]%andb_true_iff. apply negb_true_iff in Hc.
  change (String c text +:+ s) with (String c (text +:+ s)).
  rewrite build_string_plain_char, IH by done.
  by destruct (build_string answers (S depth) s).
Qed.

(** Text with its braces doubled comes out as it was before the doubling,
    whatever follows it. *)
Lemma build_string_escape_braces answers depth text s :
  build_string answers (S depth) (escape_braces text +:+ s)
  = String.append text <$> build_string answers (S depth) s.
Proof.
  induction text as [|c text IH]; cbn [escape_braces].
  { change ("" +:+ s) with s.
    by destruct (build_string answers (S depth) s). }
  destruct (is_brace c) eqn:Hc.
  - change (String c (String c (escape_braces text)) +:+ s)
      with (String c (String c (escape_braces text +:+ s))).
    rewrite build_string_doubled_brace, IH by done.
    by destruct (build_string answers (S depth) s).
  - change (String c (escape_braces text) +:+ s)
      with (String c (escape_braces text +:+ s)).
    rewrite build_string_plain_char, IH by done.
    by destruct (build_string answers (S depth) s).
Qed.

(** The placeholder [{k}] is replaced by the answer for [k]. *)
Lemma build_string_placeholder answers depth k s :
  lookup_name k →
  build_string answers (S depth) ("{" +:+ k +:+ "}" +:+ s)
  = match answers !! k with
    | Some v => String.append v <$> build_string answers (S depth) s
    | None => Err (KeyError k)
    end.
Proof.
  intros Hk. cbn [build_string]. rewrite markup_unfold.
  pose proof (MarkupIterator_next_part EmptyString k s eq_refl (proj1 Hk))
    as Hnext.
  change (MarkupIterator_next ("{" +:+ k +:+ "}" +:+ s)
          = Yield {| literal := ""; field := Some (plain_field k) |} s)
    in Hnext.
  rewrite Hnext. destruct (markup s) as [ms e].
  cbn [do_markup field literal]. rewrite output_markup_plain by done.
  destruct (answers !! k) as [v|]; [|done]. simpl.
  by destruct (do_markup _ _ ms e).
Qed.

(** A closing brace that is not doubled stops the formatter. *)
Lemma build_string_single_closing answers depth s :
  (∀ rest, s ≠ String "}" rest) →
  build_string answers (S depth) (String "}" s)
  = Err (ValueError "Single '}' encountered in format string").
Proof.
  intros Hs. cbn [build_string]. rewrite markup_unfold.
  unfold MarkupIterator_next.
  change (scan_literal (String "}" s)) with (EmptyString, String "}" s).
  destruct s as [|d r]; [done|].
  destruct (Ascii.eqb "}" d) eqn:Hd.
  { apply Ascii.eqb_eq in Hd as <-. by destruct (Hs r). }
  done.
Qed.

Lemma get_integer_from_digits acc digits :
  (0 ≤ acc)%Z → all_chars is_digit digits = true →
  (leading_number_from acc digits ≤ PY_SSIZE_T_MAX)%Z →
  get_integer_from acc digits = Ok (Some (leading_number_from acc digits)).
Proof.
  revert acc. induction digits as [|c s IH]; intros acc Hacc; simpl; [done|].
  rewrite decimal_digit_is_digit.
  destruct (decimal_digit c) as [d|] eqn:Hd; [|done]. simpl.
  intros Hs Hmax. pose proof (decimal_digit_range _ _ Hd) as Hrange.
  pose proof (leading_number_from_ge (acc * 10 + d) s ltac:(lia)) as Hge.
  destruct (acc >? (PY_SSIZE_T_MAX - d) / 10)%Z eqn:Hcmp.
  - exfalso. apply Z.gtb_lt in Hcmp.
    assert (PY_SSIZE_T_MAX - d < acc * 10)%Z; [|lia].
    pose proof (Z.mul_succ_div_gt (PY_SSIZE_T_MAX - d) 10 ltac:(lia)). lia.
  - apply IH; [lia|done..].
Qed.

Lemma is_digit_name_char c : is_digit c = true → name_char c = true.
Proof. by destruct c as [[] [] [] [] [] [] [] []]; vm_compute. Qed.

(** A placeholder whose name is a number, or empty, asks for a positional
    argument, and [build] passes none. *)
Lemma build_string_positional answers depth digits s :
  all_chars is_digit digits = true →
  (leading_number digits ≤ PY_SSIZE_T_MAX)%Z →
  build_string answers (S depth) ("{" +:+ digits +:+ "}" +:+ s)
  = Err (IndexError (leading_number digits)).
Proof.
  intros Hdigits Hmax. cbn [build_string]. rewrite markup_unfold.
  assert (all_chars name_char digits = true) as Hname.
  { eapply all_chars_impl; [|done]. apply is_digit_name_char. }
  pose proof (MarkupIterator_next_part EmptyString digits s eq_refl Hname)
    as Hnext.
  change (MarkupIterator_next ("{" +:+ digits +:+ "}" +:+ s)
          = Yield {| literal := ""; field := Some (plain_field digits) |} s)
    in Hnext.
  rewrite Hnext. destruct (markup s) as [ms e].
  cbn [do_markup field literal]. unfold output_markup. simpl.
  rewrite field_name_split_plain by done.
  unfold get_first, get_integer. destruct digits as [|c digits]; [done|].
  unfold leading_number in *.
  by rewrite get_integer_from_digits.
Qed.

(** [str.format] on a skeleton whose parts are resolved, up to what
    follows them. *)
Lemma build_string_parts answers depth parts s :
  Forall lookup_name parts.*2 →
  build_string answers (S depth) (skeleton_text (escaped parts) s)
  = match first_unresolved answers parts with
    | Some k => Err (KeyError k)
    | None =>
        (λ out, fill answers parts out) <$> build_string answers (S depth) s
    end.
Proof.
  induction parts as [|[text k] parts IH].
  { intros _. cbn [escaped fmap list_fmap skeleton_text first_unresolved fill].
    by destruct (build_string answers (S depth) s). }
  intros [Hk Hparts]%Forall_cons. unfold escaped in *.
  cbn [fmap list_fmap skeleton_text first_unresolved fill fst snd].
  rewrite build_string_escape_braces.
  rewrite build_string_placeholder by done.
  destruct (answers !! k) as [v|]; [|done].
  rewrite IH by done.
  destruct (first_unresolved answers parts); [done|].
  by destruct (build_string answers (S depth) s).
Qed.

Lemma escape_braces_plain text :
  plain_text text = true → escape_braces text = text.
Proof.
  induction text as [|c text IH]; simpl; [done|].
  intros [Hc Htext]%andb_true_iff. apply negb_true_iff in Hc.
  by rewrite Hc, IH.
Qed.

Lemma escaped_plain parts :
  Forall (λ text, plain_text text = true) parts.*1 → escaped parts = parts.
Proof.
  induction parts as [|[text k] parts IH]; [done|].
  simpl. intros [Ht Hparts]%Forall_cons. unfold escaped in *.
  cbn [fmap list_fmap fst snd]. rewrite escape_braces_plain by done.
  f_equal. by apply IH.
Qed.

End FormatPieces.

(** ** Skeletons with literal or unbalanced braces *)

Section Braces.
Context {formatter : Format.FieldFormatter}.
Implicit Types (bs parts : list (string * string)) (lines : list string)
  (answers : gmap string string).

Lemma build_story_strings title bs s lines :
  length bs ≤ length lines →
  build_story (str_template title bs s) lines
  = except_KeyError (Format.format (words_stored bs.*1 lines ∅) s).
Proof.
  intros Hlen. unfold build_story. cbn [blanks str_template].
  rewrite prompt_for_words_strings. by case_decide; [|lia].
Qed.

Lemma first_unresolved_declared bs parts lines :
  (∀ k, k ∈ parts.*2 → k ∈ bs.*1) → length bs ≤ length lines →
  first_unresolved (words_stored bs.*1 lines ∅) parts = None.
Proof.
  intros Hdecl Hlen. apply first_unresolved_complete. intros k Hk.
  apply (elem_of_dom (D:=gset string)).
  rewrite words_stored_dom by by rewrite length_fmap.
  apply elem_of_union. left. apply elem_of_list_to_set. by apply Hdecl.
Qed.

Lemma scan_field_name_unclosed name :
  all_chars name_char name = true →
  Format.scan_field_name false name
  = Err (ValueError "expected '}' before end of string").
Proof.
  induction name as [|c name IH]; [done|]. cbn [all_chars].
  intros [Hc Hname]%andb_true_iff. cbn [Format.scan_field_name].
  destruct (name_char_spec c Hc) as (-> & -> & -> & _ & -> & ->).
  cbn [orb]. by rewrite IH.
Qed.

(** X13. Doubling the braces of the narrative text makes them literal:
    on a skeleton whose texts have every brace doubled and whose
    placeholders are [{name}], [build] raises [KeyError] for the first
    placeholder without an answer and otherwise returns the texts as they
    were before the doubling, with the answers in place of the
    placeholders.  Without placeholders this is a round trip: the doubled
    text renders to the original text under any answers. *)
Theorem build_doubled_braces title bs parts ending answers :
  Forall lookup_name parts.*2 →
  build
    (str_template title bs
       (skeleton_text (escaped parts) (escape_braces ending))) answers
  = match first_unresolved answers parts with
    | Some k => Err (KeyError k)
    | None => Ok (fill answers parts ending)
    end.
Proof.
  intros Hnames. unfold build. cbn [skeleton str_template].
  unfold Format.format. rewrite build_string_parts by done.
  destruct (first_unresolved answers parts); [done|].
  rewrite <- (append_empty_r (escape_braces ending)).
  rewrite build_string_escape_braces, build_string_empty.
  cbn. by rewrite append_empty_r.
Qed.

(** X14. Unbalanced braces stop the story with [str.format]'s own
    [ValueError], which [build_story] does not turn into its
    missing-answer error: after placeholders that are all declared, a
    closing brace that is not doubled, an opening brace at the very end,
    and a placeholder that is never closed each raise [ValueError] once the
    words have been collected. *)
Theorem build_story_unbalanced title bs parts text lines :
  Forall lookup_name parts.*2 →
  (∀ k, k ∈ parts.*2 → k ∈ bs.*1) →
  length bs ≤ length lines →
  (∀ tail,
     (∀ rest, tail ≠ String "}" rest) →
     build_story
       (str_template title bs
          (skeleton_text (escaped parts)
             (escape_braces text +:+ String "}" tail))) lines
     = Err (ValueError "Single '}' encountered in format string"))
  ∧ build_story
      (str_template title bs
         (skeleton_text (escaped parts) (escape_braces text +:+ "{"))) lines
    = Err (ValueError "Single '{' encountered in format string")
  ∧ (∀ name,
       all_chars name_char name = true → name ≠ EmptyString →
       build_story
         (str_template title bs
            (skeleton_text (escaped parts)
               (escape_braces text +:+ String "{" name))) lines
       = Err (ValueError "expected '}' before end of string")).
Proof.
  intros Hnames Hdecl Hlen.
  assert (∀ s e,
            Format.build_string (words_stored bs.*1 lines ∅) 2 s
            = Err (ValueError e) →
            build_story
              (str_template title bs
                 (skeleton_text (escaped parts) (escape_braces text +:+ s)))
              lines
            = Err (ValueError e)) as Hstop.
  { intros s e Hs. rewrite build_story_strings by done.
    unfold Format.format. rewrite build_string_parts by done.
    rewrite first_unresolved_declared by done.
    by rewrite build_string_escape_braces, Hs. }
  split; [|split].
  - intros tail Htail. apply Hstop.
    by apply build_string_single_closing.
  - by apply Hstop.
  - intros name Hname Hne. apply Hstop.
    cbn [Format.build_string]. rewrite markup_unfold.
    unfold Format.MarkupIterator_next.
    change (Format.scan_literal (String "{" name))
      with (EmptyString, String "{" name).
    destruct name as [|d r]; [done|].
    assert (Ascii.eqb "{" d = false) as ->.
    { cbn [all_chars] in Hname. apply andb_true_iff in Hname as [Hd _].
      destruct (name_char_spec d Hd) as (H & _). by rewrite Ascii.eqb_sym. }
    cbn [Ascii.eqb Bool.eqb]. unfold Format.parse_field.
    by rewrite scan_field_name_unclosed.
Qed.

(** X15. A placeholder whose name is a number, or empty, can never be
    filled in: [build] passes the answers as keyword arguments only, so
    after placeholders that are all declared the story stops with
    [IndexError] for that number ([0] for the empty name), whether or not
    a blank has the number as its key and whatever was typed for it. *)
Theorem build_story_positional title bs parts text digits tail lines :
  Forall lookup_name parts.*2 →
  (∀ k, k ∈ parts.*2 → k ∈ bs.*1) →
  length bs ≤ length lines →
  all_chars is_digit digits = true →
  (leading_number digits ≤ Format.PY_SSIZE_T_MAX)%Z →
  build_story
    (str_template title bs
       (skeleton_text (escaped parts)
          (escape_braces text +:+ "{" +:+ digits +:+ "}" +:+ tail))) lines
  = Err (IndexError (leading_number digits)).
Proof.
  intros Hnames Hdecl Hlen Hdigits Hmax.
  rewrite build_story_strings by done.
  unfold Format.format. rewrite build_string_parts by done.
  rewrite first_unresolved_declared by done.
  rewrite build_string_escape_braces.
  by rewrite build_string_positional.
Qed.

End Braces.

(** ** The [--blanks] argument *)

Section BlankRange.
Import PyInt.
Implicit Types (s lead trail zeros : string) (c : ascii) (x : N).

Lemma transform_ascii s :
  all_chars (λ c, (nat_of_ascii c <? 127)%nat) s = true → transform s = s.
Proof.
  induction s as [|c s IH]; simpl; [done|].
  intros [Hc Hs]%andb_true_iff. unfold to_ascii. by rewrite Hc, IH.
Qed.

Lemma transform_append s1 s2 :
  transform (s1 +:+ s2) = transform s1 +:+ transform s2.
Proof. induction s1 as [|c s1 IH]; simpl; [done|]. by rewrite IH. Qed.

Lemma c_isspace_ascii c : c_isspace c = true → (nat_of_ascii c <? 127)%nat = true.
Proof.
  unfold c_isspace. intros H. apply Nat.ltb_lt.
  apply orb_true_iff in H as [H%Nat.eqb_eq|[H1%Nat.leb_le H2%Nat.leb_le]%andb_true_iff];
    lia.
Qed.

Lemma is_digit_ascii c : is_digit c = true → (nat_of_ascii c <? 127)%nat = true.
Proof.
  unfold is_digit. intros [H1%Nat.leb_le H2%Nat.leb_le]%andb_true_iff.
  apply Nat.ltb_lt. lia.
Qed.

Lemma skip_spaces_append lead s :
  all_chars c_isspace lead = true →
  skip_spaces (lead +:+ s) = skip_spaces s.
Proof.
  induction lead as [|c lead IH]; simpl; [done|].
  intros [Hc Hlead]%andb_true_iff. by rewrite Hc, IH.
Qed.

Lemma pretty_N_char_digit x :
  (x < 10)%N → Format.decimal_digit (pretty_N_char x) = Some (Z.of_N x).
Proof.
  intros Hx.
  assert (x = 0 ∨ x = 1 ∨ x = 2 ∨ x = 3 ∨ x = 4 ∨ x = 5 ∨ x = 6 ∨ x = 7
          ∨ x = 8 ∨ x = 9)%N as Hcases by lia.
  by repeat (destruct Hcases as [->|Hcases]; [done|]); subst.
Qed.

Lemma decimal_digit_not_underscore c d :
  Format.decimal_digit c = Some d → Ascii.eqb c "_" = false.
Proof.
  intros Hd. apply Ascii.eqb_neq. by intros ->.
Qed.

(** The digits [pretty_N_go] puts in front of [s]. *)
Lemma pretty_N_go_append x s :
  pretty_N_go x s = pretty_N_go x "" +:+ s.
Proof.
  revert s. induction (N.lt_wf_0 x) as [x _ IH]; intros s.
  assert (x = 0 ∨ 0 < x)%N as [->|Hx] by lia; [done|].
  rewrite (pretty_N_go_step x s), (pretty_N_go_step x "") by done.
  assert (x `div` 10 < x)%N as Hlt by by apply N.div_lt.
  rewrite (IH _ Hlt (String (pretty_N_char (x `mod` 10)) s)).
  rewrite (IH _ Hlt (String (pretty_N_char (x `mod` 10)) "")).
  by rewrite append_assoc.
Qed.

Lemma pretty_N_go_digits x :
  all_chars is_digit (pretty_N_go x "") = true.
Proof.
  induction (N.lt_wf_0 x) as [x _ IH].
  assert (x = 0 ∨ 0 < x)%N as [->|Hx] by lia; [done|].
  rewrite pretty_N_go_step, pretty_N_go_append by done.
  rewrite all_chars_append, IH by by apply N.div_lt.
  simpl. rewrite decimal_digit_is_digit.
  rewrite pretty_N_char_digit; [done|]. by apply N.mod_lt.
Qed.

(** Scanning the digits of [x] appends them to the value read so far. *)
Lemma scan_digits_pretty_N_go x value digits s :
  scan_digits false value digits (pretty_N_go x s)
  = scan_digits false
      (value * 10 ^ Z.of_nat (String.length (pretty_N_go x "")) + Z.of_N x)
      (digits + String.length (pretty_N_go x "")) s.
Proof.
  revert value digits s. induction (N.lt_wf_0 x) as [x _ IH];
    intros value digits s.
  assert (x = 0 ∨ 0 < x)%N as [->|Hx] by lia.
  { rewrite !pretty_N_go_0. simpl. f_equal; lia. }
  rewrite (pretty_N_go_step x s), (pretty_N_go_step x "") by done.
  rewrite IH by by apply N.div_lt.
  rewrite (pretty_N_go_append _ (String _ "")), length_append.
  cbn [scan_digits String.length].
  pose proof (pretty_N_char_digit (x `mod` 10)%N
                ltac:(by apply N.mod_lt)) as Hd.
  rewrite (decimal_digit_not_underscore _ _ Hd), Hd.
  f_equal; [|lia].
  rewrite Nat2Z.inj_add, Z.pow_add_r by lia.
  assert (Z.of_N x
          = 10 * Z.of_N (x `div` 10) + Z.of_N (x `mod` 10))%Z as ->.
  { change 10%Z with (Z.of_N 10).
    rewrite <- N2Z.inj_mul, <- N2Z.inj_add. f_equal. by apply N.div_mod. }
  change (Z.of_nat 1) with 1%Z. rewrite Z.pow_1_r. ring.
Qed.

Lemma pretty_N_go_length x :
  (0 < x)%N →
  (10 ^ Z.of_nat (String.length (pretty_N_go x "")) ≤ 10 * Z.of_N x)%Z
  ∧ 0 < String.length (pretty_N_go x "").
Proof.
  induction (N.lt_wf_0 x) as [x _ IH]. intros Hx.
  rewrite (pretty_N_go_step x ""), pretty_N_go_append, length_append by done.
  cbn [String.length]. split; [|lia].
  rewrite Nat2Z.inj_add, Z.pow_add_r by lia.
  change (Z.of_nat 1) with 1%Z. rewrite Z.pow_1_r.
  destruct (N.eq_0_gt_0_cases (x `div` 10)) as [H0|Hpos].
  - rewrite H0, pretty_N_go_0. change (Z.of_nat (String.length "")) with 0%Z.
    rewrite Z.pow_0_r. lia.
  - destruct (IH (x `div` 10)%N) as [Hle _]; [by apply N.div_lt|done|].
    pose proof (N.Div0.mul_div_le x 10) as Hdiv.
    apply N2Z.inj_le in Hdiv. rewrite N2Z.inj_mul in Hdiv.
    change (Z.of_N 10) with 10%Z in Hdiv. lia.
Qed.

Lemma scan_digits_zeros zeros value digits s :
  all_chars (Ascii.eqb "0") zeros = true →
  scan_digits false value digits (zeros +:+ s)
  = scan_digits false (value * 10 ^ Z.of_nat (String.length zeros))
      (digits + String.length zeros) s.
Proof.
  revert value digits. induction zeros as [|c zeros IH]; intros value digits.
  { intros _. simpl. f_equal; lia. }
  cbn [all_chars]. intros [Hc Hzeros]%andb_true_iff.
  apply Ascii.eqb_eq in Hc as <-.
  change (String "0" zeros +:+ s) with (String "0" (zeros +:+ s)).
  cbn [scan_digits]. change (Ascii.eqb "0" "_") with false.
  change (Format.decimal_digit "0") with (Some 0%Z). cbn iota.
  rewrite IH by done. cbn [String.length].
  f_equal; [|lia].
  rewrite Nat2Z.inj_succ, Z.pow_succ_r by lia. ring.
Qed.

Lemma scan_digits_trail value digits trail :
  all_chars c_isspace trail = true →
  scan_digits false value digits trail = Some (value, digits, trail).
Proof.
  destruct trail as [|c trail]; [done|]. cbn [all_chars].
  intros [Hc _]%andb_true_iff. cbn [scan_digits].
  assert (Ascii.eqb c "_" = false) as ->.
  { apply Ascii.eqb_neq. by intros ->. }
  destruct (Format.decimal_digit c) as [d|] eqn:Hd; [|done].
  exfalso. unfold Format.decimal_digit in Hd. unfold c_isspace in Hc.
  destruct (_ && _)%nat eqn:Hrange in Hd; [|done].
  apply andb_true_iff in Hrange as [H1%Nat.leb_le H2%Nat.leb_le].
  apply orb_true_iff in Hc
    as [H%Nat.eqb_eq|[H3%Nat.leb_le H4%Nat.leb_le]%andb_true_iff]; lia.
Qed.

(** A numeral as [int] accepts it: white space around an optional sign,
    zeros and the decimal digits of [x]. *)
Lemma int_numeral lead (negative : bool) sign zeros x trail :
  all_chars c_isspace lead = true →
  (sign, negative) ∈ [("", false); ("+", false); ("-", true)] →
  all_chars (Ascii.eqb "0") zeros = true →
  all_chars c_isspace trail = true →
  String.length zeros + String.length (pretty x) ≤ MAX_STR_DIGITS →
  int (lead +:+ sign +:+ zeros +:+ pretty x +:+ trail)
  = Ok (if negative then - Z.of_N x else Z.of_N x)%Z.
Proof.
  intros Hlead Hsign Hzeros Htrail Hlen.
  set (digits := zeros +:+ pretty x +:+ trail).
  assert (all_chars is_digit (pretty x) = true
          ∧ 0 < String.length (pretty x)
          ∧ ∀ value n s,
              scan_digits false value n (pretty x +:+ s)
              = scan_digits false
                  (value * 10 ^ Z.of_nat (String.length (pretty x))
                   + Z.of_N x)
                  (n + String.length (pretty x)) s)
    as (Hdigits & Hpos & Hscan).
  { unfold pretty, pretty_N. case_decide as Hx.
    - subst x. split; [done|]. split; [simpl; lia|]. intros value n s.
      change ("0" +:+ s) with (String "0" s). cbn [scan_digits].
      change (Ascii.eqb "0" "_") with false.
      change (Format.decimal_digit "0") with (Some 0%Z). cbn iota.
      simpl. f_equal; lia.
    - split; [apply pretty_N_go_digits|].
      split; [apply pretty_N_go_length; lia|]. intros value n s.
      by rewrite <- pretty_N_go_append, scan_digits_pretty_N_go. }
  assert (transform digits = digits) as Htd.
  { apply transform_ascii. unfold digits.
    rewrite !all_chars_append. repeat (apply andb_true_iff; split).
    - eapply all_chars_impl; [|done]. intros c Hc%Ascii.eqb_eq. by subst c.
    - eapply all_chars_impl; [|done]. apply is_digit_ascii.
    - eapply all_chars_impl; [|done]. apply c_isspace_ascii. }
  assert (∃ c rest, digits = String c rest ∧ is_digit c = true)
    as (c & rest & Hdig & Hc).
  { unfold digits. destruct zeros as [|z zeros].
    - destruct (pretty x) as [|c p]; [simpl in Hpos; lia|].
      exists c, (p +:+ trail). split; [done|].
      by apply andb_true_iff in Hdigits as [? _].
    - exists z, (zeros +:+ pretty x +:+ trail). split; [done|].
      cbn [all_chars] in Hzeros. apply andb_true_iff in Hzeros as [Hz _].
      apply Ascii.eqb_eq in Hz. by subst z. }
  assert (scan_digits false 0 0 digits
          = Some (Z.of_N x,
                  String.length zeros + String.length (pretty x), trail))
    as Hvalue.
  { unfold digits. rewrite scan_digits_zeros, Hscan by done.
    rewrite scan_digits_trail by done. f_equal; repeat f_equal; lia. }
  assert (c_isspace c = false ∧ c ≠ "+"%char ∧ c ≠ "-"%char ∧ c ≠ "_"%char)
    as (Hnsp & Hnplus & Hnminus & Hnus).
  { clear -Hc. unfold is_digit in Hc. unfold c_isspace.
    apply andb_true_iff in Hc as [H1%Nat.leb_le H2%Nat.leb_le].
    split; [|by repeat split; intros ->; vm_compute in H1, H2; lia].
    apply orb_false_iff. split; [apply Nat.eqb_neq; lia|].
    apply andb_false_iff. right. apply Nat.leb_gt. lia. }
  assert (int (lead +:+ sign +:+ digits)
          = from_digits (lead +:+ sign +:+ digits) negative digits) as ->.
  { unfold int. rewrite transform_append.
    rewrite (transform_ascii lead)
      by (eapply all_chars_impl; [|done]; apply c_isspace_ascii).
    rewrite skip_spaces_append by done. rewrite transform_append, Htd.
    assert (skip_spaces digits = digits) as Hskip.
    { rewrite Hdig. simpl. by rewrite Hnsp. }
    apply elem_of_cons in Hsign as [[= -> ->]|Hsign].
    { change (transform "" +:+ digits) with digits. rewrite Hskip.
      clear Hvalue Htd Hskip. rewrite Hdig.
      destruct c as [[] [] [] [] [] [] [] []]; try done; congruence. }
    apply elem_of_cons in Hsign as [[= -> ->]|Hsign]; [done|].
    by apply list_elem_of_singleton in Hsign as [= -> ->]. }
  unfold from_digits.
  assert (match digits with
          | String "_" _ => true
          | _ => false
          end = false) as Hfirst.
  { rewrite Hdig. destruct c as [[] [] [] [] [] [] [] []]; try done. }
  destruct digits as [|c' rest']; [done|].
  assert (∀ A (a b : A),
            match c' with "_"%char => a | _ => b end
            = if Ascii.eqb c' "_" then a else b) as Hmatch.
  { intros A a b. by destruct c' as [[] [] [] [] [] [] [] []]. }
  rewrite Hmatch in Hfirst |- *.
  destruct (Ascii.eqb c' "_"); [done|].
  rewrite Hvalue.
  assert ((MAX_STR_DIGITS <? String.length zeros + String.length (pretty x))%nat
          = false) as -> by (apply Nat.ltb_ge; lia).
  assert ((String.length zeros + String.length (pretty x) =? 0)%nat = false)
    as -> by (apply Nat.eqb_neq; lia).
  by rewrite Htrail.
Qed.


Lemma transform_no_digit s :
  all_chars (λ c, negb (is_digit c)) s = true →
  all_chars (λ c, negb (is_digit c)) (transform s) = true.
Proof.
  induction s as [|c s IH]; simpl; [done|].
  intros [Hc Hs]%andb_true_iff. rewrite IH by done.
  unfold to_ascii. destruct (_ <? _)%nat; [by rewrite Hc|].
  by destruct (PyStr.isspace c).
Qed.

Lemma skip_spaces_no_digit s :
  all_chars (λ c, negb (is_digit c)) s = true →
  all_chars (λ c, negb (is_digit c)) (skip_spaces s) = true.
Proof.
  induction s as [|c s IH]; simpl; [done|].
  intros [Hc Hs]%andb_true_iff. destruct (c_isspace c); [by apply IH|].
  simpl. by rewrite Hc, Hs.
Qed.

Lemma from_digits_no_digit u negative s :
  all_chars (λ c, negb (is_digit c)) s = true →
  from_digits u negative s = Err (invalid_literal u).
Proof.
  unfold from_digits.
  destruct s as [|c s]; [done|]. cbn [all_chars].
  intros [Hc _]%andb_true_iff. apply negb_true_iff in Hc.
  rewrite decimal_digit_is_digit in Hc.
  destruct (Ascii.eqb c "_") eqn:Hus.
  { apply Ascii.eqb_eq in Hus as ->. done. }
  assert (scan_digits false 0 0 (String c s) = Some (0%Z, 0, String c s))
    as ->.
  { cbn [scan_digits]. rewrite Hus.
    by destruct (Format.decimal_digit c). }
  destruct c as [[] [] [] [] [] [] [] []]; done.
Qed.

Lemma int_no_digit u :
  all_chars (λ c, negb (is_digit c)) u = true →
  int u = Err (invalid_literal u).
Proof.
  intros Hu. unfold int.
  pose proof (skip_spaces_no_digit _ (transform_no_digit _ Hu)) as Hs.
  destruct (skip_spaces (transform u)) as [|c s].
  { by apply from_digits_no_digit. }
  assert (all_chars (λ c, negb (is_digit c)) s = true) as Hs'.
  { cbn [all_chars] in Hs. by apply andb_true_iff in Hs as [_ ?]. }
  destruct c as [[] [] [] [] [] [] [] []];
    by apply from_digits_no_digit.
Qed.

(** X16. The two places that bound the number of blanks agree: a count can
    be given on the command line exactly when a template with that many
    blanks passes validation. *)
Theorem blank_bounds_agree (n : nat) :
  (∃ value, enforce_blank_range value = Parsed (Z.of_nat n))
  ↔ (∀ as_dict t,
       template_of as_dict t → length (blanks t) = n →
       parse_template_dict as_dict = Ok t).
Proof.
  split.
  - intros [value Hvalue] as_dict t Ht Hn.
    apply parse_template_dict_accepts; [done|]. rewrite Hn.
    unfold enforce_blank_range in Hvalue.
    destruct (int value) as [count|]; [|done].
    destruct (_ && _)%Z eqn:Hrange; [|done].
    injection Hvalue as ->.
    apply andb_true_iff in Hrange as [?%Z.leb_le ?%Z.leb_le]. lia.
  - intros Hall.
    pose (t := str_template "" (replicate n ("", "")) "").
    assert (length (blanks t) = n) as Hlen.
    { unfold t. cbn [blanks str_template].
      by rewrite length_fmap, length_replicate. }
    pose proof (Hall _ t (template_of_object t) Hlen) as Hok.
    apply parse_template_dict_Ok in Hok as [_ Hrange].
    rewrite Hlen in Hrange.
    assert (n = 8 ∨ n = 9 ∨ n = 10) as [-> | [-> | ->]] by lia.
    + by exists "8".
    + by exists "9".
    + by exists "10".
Qed.

(** X17. How [--blanks] reads a numeral: white space around it, a sign in
    front and zeros before the digits are allowed (up to 4300 digits in
    all); the count is returned when the number is 8, 9 or 10 and not
    negated, and every other number is refused with the range message. *)
Theorem enforce_blank_range_numeral lead sign zeros x trail :
  all_chars c_isspace lead = true →
  sign ∈ [""; "+"; "-"] →
  all_chars (Ascii.eqb "0") zeros = true →
  all_chars c_isspace trail = true →
  String.length zeros + String.length (pretty x) ≤ 4300 →
  enforce_blank_range (lead +:+ sign +:+ zeros +:+ pretty x +:+ trail)
  = if decide (sign ≠ "-" ∧ (8 ≤ x ≤ 10)%N)
    then Parsed (Z.of_N x)
    else ArgumentTypeError "Blank count must be between 8 and 10.".
Proof.
  intros Hlead Hsign Hzeros Htrail Hlen. unfold enforce_blank_range.
  rewrite (int_numeral lead (bool_decide (sign = "-")) sign zeros x trail);
    [|done| |done..].
  - case_bool_decide as Hneg.
    + subst sign. rewrite decide_False by by intros [? _].
      assert ((8 <=? - Z.of_N x)%Z = false) as ->; [|done].
      apply Z.leb_gt. lia.
    + case_decide as Hrange.
      * destruct Hrange as [_ Hrange].
        assert ((8 <=? Z.of_N x)%Z = true) as -> by (apply Z.leb_le; lia).
        assert ((Z.of_N x <=? 10)%Z = true) as -> by (apply Z.leb_le; lia).
        done.
      * destruct (8 <=? Z.of_N x)%Z eqn:H8; [|done].
        destruct (Z.of_N x <=? 10)%Z eqn:H10; [|done].
        apply Z.leb_le in H8, H10. destruct Hrange. split; [done|lia].
  - apply elem_of_cons in Hsign as [->|Hsign]; [by left|].
    apply elem_of_cons in Hsign as [->|Hsign]; [by right; left|].
    apply list_elem_of_singleton in Hsign as ->. by right; right; left.
Qed.

(** What is quoted is the whole [repr] when it has at most 200
    characters. *)
Lemma truncate_short n s : String.length s ≤ n → truncate n s = s.
Proof.
  revert n. induction s as [|c s IH]; intros [|n]; simpl; [done..|lia|].
  intros Hn. rewrite IH; [done|lia].
Qed.

Lemma truncate_length n s : String.length (truncate n s) ≤ n.
Proof.
  revert s. induction n as [|n IH]; intros [|c s]; simpl; [lia..|].
  specialize (IH s). lia.
Qed.

(** X18. Text without a decimal digit is no count: the empty string, white
    space, a lone sign or words make [int] raise [ValueError] with the
    message that quotes the text as it was given, that is, the first 200
    characters of its [repr]. *)
Theorem enforce_blank_range_no_digit value :
  all_chars (λ c, negb (is_digit c)) value = true →
  enforce_blank_range value
  = Raised (ValueError ("invalid literal for int() with base 10: "
                        +:+ truncate 200 (Repr.repr value))).
Proof.
  intros Hvalue. unfold enforce_blank_range. by rewrite int_no_digit.
Qed.

End BlankRange.

(** ** [textwrap.dedent] *)

Section Dedent.
Import Textwrap.
Implicit Types (text line row margin : string) (rows : list string)
  (c : ascii).

Lemma lines_nonempty text : ∃ line rest, lines text = line :: rest.
Proof.
  induction text as [|c text (line & rest & IH)]; simpl; [by eauto|].
  destruct (Ascii.eqb c LF); [by eauto|]. rewrite IH. by eauto.
Qed.

Lemma lines_single_line row : single_line row = true → lines row = [row].
Proof.
  induction row as [|c row IH]; simpl; [done|].
  intros [Hc Hrow]%andb_true_iff. apply negb_true_iff in Hc.
  by rewrite Hc, IH.
Qed.

Lemma lines_append_LF text1 text2 :
  lines (text1 +:+ String LF text2) = lines text1 ++ lines text2.
Proof.
  induction text1 as [|c text1 IH]; simpl; [done|].
  destruct (Ascii.eqb c LF); [by rewrite IH|]. rewrite IH.
  by destruct (lines_nonempty text1) as (line & rest & ->).
Qed.

Lemma unlines_cons row rows :
  rows ≠ [] → unlines (row :: rows) = row +:+ String LF (unlines rows).
Proof. by destruct rows. Qed.

Lemma lines_unlines rows :
  rows ≠ [] → Forall (λ row, single_line row = true) rows →
  lines (unlines rows) = rows.
Proof.
  induction rows as [|row rows IH]; [done|]. intros _ [Hrow Hrows]%Forall_cons.
  destruct rows as [|row' rows]; [by apply lines_single_line|].
  rewrite unlines_cons, lines_append_LF by done.
  by rewrite lines_single_line, IH.
Qed.

Lemma unlines_lines text : unlines (lines text) = text.
Proof.
  induction text as [|c text IH]; simpl; [done|].
  destruct (lines_nonempty text) as (line & rest & Hlines).
  destruct (Ascii.eqb c LF) eqn:Hc.
  - apply Ascii.eqb_eq in Hc as ->.
    rewrite unlines_cons, IH by by rewrite Hlines. done.
  - rewrite Hlines in IH |- *. rewrite <- IH. by destruct rest.
Qed.

Lemma lines_are_single text :
  Forall (λ row, single_line row = true) (lines text).
Proof.
  induction text as [|c text IH]; simpl; [by repeat constructor|].
  destruct (Ascii.eqb c LF) eqn:Hc; [by constructor|].
  destruct (lines text) as [|line rest].
  { repeat constructor. unfold single_line. simpl. by rewrite Hc. }
  apply Forall_cons in IH as [Hline Hrest].
  constructor; [|done]. unfold single_line in *. simpl. by rewrite Hc.
Qed.

Lemma startswith_empty row : PyStr.startswith row EmptyString = true.
Proof. unfold PyStr.startswith. apply prefix_append. by exists row. Qed.

Lemma startswith_indent row margin :
  all_chars space_or_tab margin = true →
  PyStr.startswith row margin = true →
  PyStr.startswith (indent row) margin = true.
Proof.
  unfold PyStr.startswith. intros Hmargin [q ->]%prefix_append.
  apply prefix_append. induction margin as [|c margin IH]; simpl.
  { by eauto. }
  cbn [all_chars] in Hmargin. apply andb_true_iff in Hmargin as [-> Hmargin].
  destruct (IH Hmargin) as [q' ->]. by exists q'.
Qed.

Lemma cut_at_mismatch_keeps margin m i :
  PyStr.startswith m margin = true → PyStr.startswith i margin = true →
  PyStr.startswith (cut_at_mismatch m i) margin = true.
Proof.
  unfold PyStr.startswith.
  intros [qm ->]%prefix_append [qi ->]%prefix_append. apply prefix_append.
  induction margin as [|c margin [q IH]]; simpl; [by eauto|].
  rewrite Ascii.eqb_refl, IH. by eauto.
Qed.

Lemma startswith_antisym m i :
  PyStr.startswith m i = true → PyStr.startswith i m = true → m = i.
Proof.
  unfold PyStr.startswith.
  intros [q ->]%prefix_append [q' Hq]%prefix_append.
  rewrite append_assoc in Hq.
  assert (String.length (q +:+ q') = 0) as Hlen.
  { apply (f_equal String.length) in Hq. rewrite !length_append in *. lia. }
  destruct q; [by rewrite append_empty_r|done].
Qed.

(** The margin the loop arrives at when every indent starts with [margin]
    and one of them is [margin]. *)
Lemma foldl_narrow_margin margin acc indents :
  match acc with
  | None => True
  | Some m => PyStr.startswith m margin = true
  end →
  Forall (λ i, PyStr.startswith i margin = true) indents →
  margin ∈ indents ∨ acc = Some margin →
  foldl narrow acc indents = Some margin.
Proof.
  revert acc. induction indents as [|i indents IH]; intros acc Hacc Hall Hin.
  { destruct Hin as [Hin|Hin]; [by apply elem_of_nil in Hin|done]. }
  apply Forall_cons in Hall as [Hi Hall]. cbn [foldl].
  assert (match narrow acc i with
          | None => True
          | Some m => PyStr.startswith m margin = true
          end) as Hacc'.
  { destruct acc as [m|]; [|done]. unfold narrow.
    destruct (PyStr.startswith i m); [done|].
    destruct (PyStr.startswith m i); [done|].
    by apply cut_at_mismatch_keeps. }
  apply IH; [done..|].
  destruct Hin as [[Heq | Hin]%elem_of_cons | ->]; [|by left|].
  - subst i. right. destruct acc as [m|]; [|done]. unfold narrow.
    destruct (PyStr.startswith margin m) eqn:Hm.
    + f_equal. by apply startswith_antisym.
    + by rewrite Hacc.
  - right. unfold narrow. by rewrite Hi.
Qed.

(** What [dedent] does to a text given by its rows when every row with
    another character than spaces and tabs starts with [margin] and for one
    of them that is its whole indentation. *)
Lemma dedent_rows rows margin :
  rows ≠ [] → Forall (λ row, single_line row = true) rows →
  all_chars space_or_tab margin = true →
  Forall (λ row, all_chars space_or_tab row = true
                 ∨ PyStr.startswith row margin = true) rows →
  (∃ row, row ∈ rows ∧ all_chars space_or_tab row = false
          ∧ indent row = margin) →
  dedent (unlines rows)
  = unlines ((λ row, if all_chars space_or_tab row then EmptyString
                     else PyStr.drop (String.length margin) row) <$> rows).
Proof.
  intros Hne Hsingle Hmargin Hrows (row0 & Hin0 & Hrow0 & Hindent0).
  set (blank_out := λ line, if all_chars space_or_tab line then EmptyString
                            else line).
  assert (whitespace_only_sub (unlines rows) = unlines (blank_out <$> rows))
    as Hsub.
  { unfold whitespace_only_sub. by rewrite lines_unlines. }
  assert (blank_out <$> rows ≠ []) as Hne1 by by destruct rows.
  assert (Forall (λ row, single_line row = true) (blank_out <$> rows))
    as Hsingle1.
  { apply Forall_fmap. eapply Forall_impl; [exact Hsingle|]. intros row Hrow.
    unfold blank_out. simpl. by destruct (all_chars space_or_tab row). }
  assert (foldl narrow None
            (leading_whitespace_findall (unlines (blank_out <$> rows)))
          = Some margin) as Hfold.
  { unfold leading_whitespace_findall. rewrite lines_unlines by done.
    apply foldl_narrow_margin; [done| |left].
    - apply Forall_fmap, Forall_forall. intros row.
      rewrite list_elem_of_In, filter_In, <- list_elem_of_In.
      intros [[row' [-> Hin']]%list_elem_of_fmap Hblank].
      apply negb_true_iff in Hblank. simpl. unfold blank_out in *.
      destruct (all_chars space_or_tab row') eqn:Hb; [done|].
      apply startswith_indent; [done|].
      rewrite Forall_forall in Hrows.
      destruct (Hrows row' Hin') as [?|?]; [congruence|done].
    - apply list_elem_of_fmap. exists row0. split; [done|].
      apply list_elem_of_In, filter_In. split.
      + apply list_elem_of_In, list_elem_of_fmap. exists row0.
        split; [|done]. unfold blank_out. by rewrite Hrow0.
      + by rewrite Hrow0. }
  unfold dedent. rewrite Hsub, Hfold.
  assert (remove_margin margin (unlines (blank_out <$> rows))
          = unlines ((λ row, if all_chars space_or_tab row then EmptyString
                             else PyStr.drop (String.length margin) row)
                       <$> rows)) as Hremove.
  { unfold remove_margin. rewrite lines_unlines by done.
    rewrite <- list_fmap_compose. f_equal.
    apply Forall_fmap_ext. rewrite Forall_forall in Hrows.
    apply Forall_forall. intros row Hin. simpl. unfold blank_out.
    destruct (all_chars space_or_tab row) eqn:Hb.
    - destruct margin; done.
    - destruct (Hrows row Hin) as [? | ->]; [congruence|done]. }
  by destruct margin as [|c margin].
Qed.

(** A line that starts with another character than a space or a tab
    leaves nothing to remove. *)
Lemma dedent_flush_line text1 c text2 :
  space_or_tab c = false → Ascii.eqb c LF = false →
  dedent (text1 +:+ String LF (String c text2))
  = whitespace_only_sub (text1 +:+ String LF (String c text2)).
Proof.
  intros Hc Hlf. set (text := text1 +:+ String LF (String c text2)).
  rewrite <- (unlines_lines text) at 1.
  destruct (lines_nonempty text) as (line & rest & Hlines).
  rewrite (dedent_rows (lines text) EmptyString).
  - done.
  - by rewrite Hlines.
  - apply lines_are_single.
  - done.
  - apply Forall_forall. intros row _. right. apply startswith_empty.
  - unfold text. rewrite lines_append_LF.
    destruct (lines_nonempty text2) as (line2 & rest2 & Hlines2).
    exists (String c line2). split; [|by simpl; rewrite Hc].
    apply elem_of_app. right. simpl. rewrite Hlf, Hlines2. by left.
Qed.

End Dedent.

(** ** The prompt *)

Section Prompt.
Import Textwrap.
Implicit Types (theme : option string) (rows : list string).

Lemma unlines_snoc rows row :
  rows ≠ [] → unlines (rows ++ [row]) = unlines rows +:+ String LF row.
Proof.
  induction rows as [|r rows IH]; [done|]. intros _.
  destruct rows as [|r' rows]; [done|].
  change ((r :: r' :: rows) ++ [row]) with (r :: ((r' :: rows) ++ [row])).
  rewrite !unlines_cons by done. rewrite IH by done.
  by rewrite append_assoc.
Qed.

Lemma unlines_middle rows1 rows2 :
  ∃ pre suf, ∀ row, unlines (rows1 ++ row :: rows2) = pre +:+ row +:+ suf.
Proof.
  induction rows1 as [|r rows1 (pre & suf & IH)].
  - destruct rows2 as [|r2 rows2].
    + exists EmptyString, EmptyString. intros row. simpl.
      by rewrite append_empty_r.
    + exists EmptyString, (String LF (unlines (r2 :: rows2))). done.
  - exists (r +:+ String LF pre), suf. intros row.
    change ((r :: rows1) ++ row :: rows2) with (r :: (rows1 ++ row :: rows2)).
    rewrite unlines_cons by by destruct rows1.
    rewrite IH, !append_assoc. done.
Qed.

Lemma single_line_digits s : all_chars is_digit s = true → single_line s = true.
Proof.
  apply all_chars_impl. intros c Hc. apply negb_true_iff, Ascii.eqb_neq.
  by intros ->.
Qed.

Lemma single_line_pretty (n : Z) : single_line (pretty n) = true.
Proof.
  assert (∀ p, single_line (pretty (N.pos p)) = true) as Hpos.
  { intros p. apply single_line_digits. unfold pretty, pretty_N.
    rewrite decide_False by done. apply pretty_N_go_digits. }
  destruct n as [|p|p]; [done|apply Hpos|].
  unfold pretty, pretty_Z. unfold single_line.
  rewrite all_chars_append. apply andb_true_iff. split; [done|apply Hpos].
Qed.

Lemma str_int_Ok (n : Z) :
  String.length (pretty (Z.abs_N n)) ≤ 4300 → str_int n = Ok (pretty n).
Proof.
  intros Hlen. unfold str_int.
  by assert ((PyInt.MAX_STR_DIGITS <? String.length (pretty (Z.abs_N n)))%nat
             = false) as -> by (apply Nat.ltb_ge; unfold PyInt.MAX_STR_DIGITS; lia).
Qed.

Lemma prompt_rows_single count clause :
  single_line count = true → single_line clause = true →
  Forall (λ row, single_line row = true) (prompt_rows count clause).
Proof.
  intros Hcount Hclause. unfold prompt_rows.
  repeat apply Forall_cons_2; try apply Forall_nil_2; try reflexivity.
  - unfold single_line in *. by rewrite !all_chars_append, Hcount.
  - unfold single_line in *. by rewrite !all_chars_append, Hclause.
Qed.

(** X19. For a count that can be printed and a theme without line break
    (or no theme, which stands for the default clause),
    [build_template_prompt] returns the text of the source with the eight
    spaces of indentation taken off every row, the count and the theme
    clause in their places, and neither the empty first row nor the last
    row of spaces. *)
Theorem build_template_prompt_single_line blank_count theme :
  String.length (pretty (Z.abs_N blank_count)) ≤ 4300 →
  single_line (theme_clause_of theme) = true →
  build_template_prompt blank_count theme
  = Ok (unlines
          (PyStr.drop 8
             <$> removelast
                   (tail (prompt_rows (pretty blank_count)
                            (theme_clause_of theme))))).
Proof.
  intros Hcount Hclause. unfold build_template_prompt.
  rewrite str_int_Ok by done. cbn [mbind PyResult_bind].
  set (count := pretty blank_count). set (clause := theme_clause_of theme).
  assert (single_line count = true) as Hc by apply single_line_pretty.
  f_equal.
  rewrite (dedent_rows (prompt_rows count clause) "        ").
  - set (body := PyStr.drop 8
                   <$> removelast (tail (prompt_rows count clause))).
    change ((λ row, if all_chars space_or_tab row then EmptyString
                    else PyStr.drop (String.length "        ") row)
              <$> prompt_rows count clause)
      with (EmptyString :: (body ++ [EmptyString])).
    rewrite unlines_cons by by destruct body.
    rewrite unlines_snoc by done.
    assert (∃ t, unlines body = String "Y" t) as [t Ht].
    { eexists. reflexivity. }
    unfold PyStr.strip.
    assert (PyStr.lstrip ("" +:+ String LF (unlines body +:+ String LF ""))
            = unlines body +:+ String LF "") as ->.
    { rewrite Ht. reflexivity. }
    rewrite rstrip_app_space by done.
    change body with (removelast body ++ [List.last body EmptyString]).
    rewrite unlines_snoc by done.
    by rewrite rstrip_app_nonempty.
  - done.
  - by apply prompt_rows_single.
  - done.
  - unfold prompt_rows.
    repeat apply Forall_cons_2; try apply Forall_nil_2;
      first [by left|by right].
  - exists "        You are designing a Mad Libs style word game.".
    split; [|done]. unfold prompt_rows. apply list_elem_of_further, list_elem_of_here.
Qed.

(** X20. A theme with a line break followed by any character other than a
    space, a tab or another line break defeats the dedenting: the margin
    the rows share with that line is empty, so the prompt keeps the
    indentation of the source; only rows of spaces and tabs are emptied
    before the text is stripped. *)
Theorem build_template_prompt_flush_line blank_count before c after :
  String.length (pretty (Z.abs_N blank_count)) ≤ 4300 →
  space_or_tab c = false → c ≠ LF →
  build_template_prompt blank_count
    (Some (before +:+ String LF (String c after)))
  = Ok (PyStr.strip
          (whitespace_only_sub
             (unlines
                (prompt_rows (pretty blank_count)
                   (before +:+ String LF (String c after)))))).
Proof.
  intros Hcount Hc Hlf. unfold build_template_prompt.
  rewrite str_int_Ok by done. cbn [mbind PyResult_bind].
  set (theme := before +:+ String LF (String c after)).
  assert (theme_clause_of (Some theme) = theme) as ->.
  { unfold theme. by destruct before. }
  f_equal. f_equal.
  set (count := pretty blank_count).
  assert (∃ text1 text2,
            unlines (prompt_rows count theme)
            = text1 +:+ String LF (String c text2)) as (text1 & text2 & ->).
  { set (lead := "        - The skeleton must stay between 120 and 200 words, upbeat, and themed around: ").
    change (prompt_rows count theme)
      with (take 15 (prompt_rows count theme)
            ++ (lead +:+ theme +:+ ".") :: drop 16 (prompt_rows count theme)).
    destruct (unlines_middle (take 15 (prompt_rows count theme))
                (drop 16 (prompt_rows count theme))) as (pre & suf & Hmid).
    rewrite Hmid. exists (pre +:+ lead +:+ before), (after +:+ "." +:+ suf).
    unfold theme. rewrite !append_assoc. done. }
  apply dedent_flush_line; [done|]. by apply Ascii.eqb_neq.
Qed.

End Prompt.

(** ** Requesting a template *)

Section Request.
Variable json_loads : string → Loaded.
Variable generate_content : string → string → PyResult (option string).
Implicit Types (blank_count : Z) (theme : option string)
  (model prompt text payload : string) (t : StoryTemplate).

Lemma request_template_text blank_count theme model prompt text :
  build_template_prompt blank_count theme = Ok prompt →
  generate_content model prompt = Ok (Some text) → text ≠ EmptyString →
  request_template json_loads generate_content blank_count theme model
  = parse_template_payload json_loads (strip_code_fence text).
Proof.
  intros Hprompt Htext Hne. unfold request_template.
  rewrite Hprompt. cbn [mbind PyResult_bind]. rewrite Htext.
  cbn [mbind PyResult_bind]. by destruct text.
Qed.

(** X21. [request_template] returns a template exactly when the prompt
    could be built, the client answered with a text that is not empty, and
    the text, fences removed, decodes to a document that spells out the
    template with 8 to 10 blanks.  The count that was asked for enters by
    the prompt only: the number of blanks that comes back is not compared
    with it. *)
Theorem request_template_Ok_iff blank_count theme model t :
  request_template json_loads generate_content blank_count theme model = Ok t
  ↔ ∃ prompt text as_dict,
      build_template_prompt blank_count theme = Ok prompt
      ∧ generate_content model prompt = Ok (Some text)
      ∧ text ≠ EmptyString
      ∧ json_loads (strip_code_fence text) = Decoded as_dict
      ∧ template_of as_dict t
      ∧ 8 ≤ length (blanks t) ≤ 10.
Proof.
  split.
  - unfold request_template.
    destruct (build_template_prompt blank_count theme) as [prompt|] eqn:Hp;
      [|done]. cbn [mbind PyResult_bind].
    destruct (generate_content model prompt) as [[text|]|] eqn:Hg; [|done..].
    cbn [mbind PyResult_bind].
    destruct text as [|c text]; [done|].
    unfold parse_template_payload.
    destruct (json_loads _) as [as_dict| |e] eqn:Hj; [|done..].
    intros [Ht Hn]%parse_template_dict_spells.
    by exists prompt, (String c text), as_dict.
  - intros (prompt & text & as_dict & Hp & Hg & Hne & Hj & Ht & Hn).
    rewrite (request_template_text _ _ _ prompt text) by done.
    unfold parse_template_payload. rewrite Hj.
    by apply parse_template_dict_accepts.
Qed.

(** X22. Only a response without text, or with the empty text, is reported
    as empty.  A text of white space alone gets past that test; the
    sanitizer reduces it to the empty string, which [json.loads] does not
    decode, so the error is the one for invalid JSON. *)
Theorem request_template_blank_response blank_count theme model prompt :
  build_template_prompt blank_count theme = Ok prompt →
  (generate_content model prompt = Ok None
   ∨ generate_content model prompt = Ok (Some EmptyString) →
   request_template json_loads generate_content blank_count theme model
   = Err EMPTY_RESPONSE)
  ∧ (∀ text,
       generate_content model prompt = Ok (Some text) →
       text ≠ EmptyString → PyStr.strip text = EmptyString →
       json_loads EmptyString = JSONDecodeError →
       request_template json_loads generate_content blank_count theme model
       = Err NOT_JSON).
Proof.
  intros Hp. split.
  - unfold request_template. rewrite Hp. cbn [mbind PyResult_bind].
    by intros [-> | ->].
  - intros text Hg Hne Hblank Hloads.
    rewrite (request_template_text _ _ _ prompt text) by done.
    rewrite strip_code_fence_no_fence by by rewrite Hblank.
    unfold parse_template_payload. by rewrite Hblank, Hloads.
Qed.

(** X23. A response that is the JSON between two code fences, without a
    language tag, is read like the JSON on its own: the template is parsed
    from the text between the fences, stripped. *)
Theorem request_template_bare_fence blank_count theme model prompt text
    payload :
  build_template_prompt blank_count theme = Ok prompt →
  generate_content model prompt = Ok (Some text) →
  PyStr.strip text = FENCE +:+ payload +:+ FENCE →
  all_chars (λ c, negb (Ascii.eqb c "`")) payload = true →
  PyStr.strip payload ≠ EmptyString →
  String.eqb (PyStr.lower (PyStr.strip payload)) "json" = false →
  request_template json_loads generate_content blank_count theme model
  = parse_template_payload json_loads (PyStr.strip payload)
  ∧ parse_template_payload json_loads (strip_code_fence payload)
    = parse_template_payload json_loads (PyStr.strip payload).
Proof.
  intros Hp Hg Htext Hplain Hne Hjson. split.
  - rewrite (request_template_text _ _ _ prompt text); [|done..|].
    + rewrite (strip_code_fence_run text payload FENCE); try done.
      right. by exists EmptyString.
    + intros ->. done.
  - rewrite strip_code_fence_no_fence; [done|].
    destruct (PyStr.startswith (PyStr.strip payload) FENCE) eqn:Hf; [|done].
    apply prefix_append in Hf as [q Hq].
    assert (all_chars (λ c, negb (Ascii.eqb c "`")) (PyStr.strip payload)
            = true) as Hs.
    { destruct (strip_substring payload) as (l & r & Hlr).
      rewrite Hlr, !all_chars_append in Hplain.
      by apply andb_true_iff in Hplain as [_ [? _]%andb_true_iff]. }
    by rewrite Hq in Hs.
Qed.

End Request.

(** ** The further properties on the example templates *)

Lemma prompt_for_words_collects_eight :
  ∃ answers,
    prompt_for_words (str_blank <$> Examples.eight_blanks)
      (Examples.eight_words ++ ["left over"]) ∅ = Ok answers
    ∧ dom answers = list_to_set Examples.eight_blanks.*1.
Proof.
  destruct (prompt_for_words_collects Examples.eight_blanks
              (Examples.eight_words ++ ["left over"]))
    as (answers & Hall & _ & Hdom & _).
  - simpl. lia.
  - by exists answers.
Defined.


Lemma build_story_told_scenario_A :
  build_story (formatter:=plain_only) Examples.scenario_A Examples.eight_words
  = Ok (fill (words_stored Examples.eight_blanks.*1 Examples.eight_words ∅)
          Examples.eight_parts ".").
Proof.
  apply (build_story_told (formatter:=plain_only) "T" Examples.eight_blanks
           Examples.eight_parts "." Examples.eight_words).
  - repeat constructor.
  - repeat constructor; vm_compute; congruence.
  - reflexivity.
  - intros k Hk. exact Hk.
  - simpl. lia.
Defined.

Lemma build_story_missing_answer_ghost :
  build_story (formatter:=plain_only) Examples.ghost_template
    Examples.eight_words
  = Err (RuntimeError
           ("Missing answer for placeholder: " +:+ Repr.repr "ghost")).
Proof.
  apply (build_story_missing_answer (formatter:=plain_only) "T"
           Examples.eight_blanks [("A wild ", "animal")] " met a " "ghost"
           [] "." Examples.eight_words).
  - repeat constructor.
  - repeat constructor; vm_compute; congruence.
  - reflexivity.
  - intros k [->|Hk%elem_of_nil]%elem_of_cons; [|done]. by left.
  - by apply (bool_decide_unpack _); vm_compute.
  - simpl. lia.
Defined.

Lemma build_doubled_braces_set :
  build (formatter:=plain_only)
    (str_template "T" [] "The set {{{animal}}} is not empty.")
    {[ "animal" := "cat" ]}
  = Ok "The set {cat} is not empty.".
Proof.
  rewrite (build_doubled_braces (formatter:=plain_only) "T" []
             [("The set {", "animal")] "} is not empty."
             {[ "animal" := "cat" ]}).
  - reflexivity.
  - repeat constructor; vm_compute; congruence.
Defined.

Lemma build_story_unbalanced_closing_brace :
  build_story (formatter:=plain_only) Examples.closing_brace_template
    Examples.eight_words
  = Err (ValueError "Single '}' encountered in format string").
Proof.
  apply (proj1 (build_story_unbalanced (formatter:=plain_only) "T"
                  Examples.eight_blanks [("A wild ", "animal")]
                  " appeared. " Examples.eight_words
                  ltac:(repeat constructor; vm_compute; congruence)
                  ltac:(intros k [->|Hk%elem_of_nil]%elem_of_cons;
                        [by left|done])
                  ltac:(simpl; lia)) EmptyString).
  done.
Defined.

Lemma build_story_positional_zero :
  build_story (formatter:=plain_only)
    (str_template "T" (("0", "A number:") :: take 7 Examples.eight_blanks)
       "Take {0}.")
    Examples.eight_words
  = Err (IndexError 0).
Proof.
  apply (build_story_positional (formatter:=plain_only) "T"
           (("0", "A number:") :: take 7 Examples.eight_blanks) []
           "Take " "0" "." Examples.eight_words).
  - constructor.
  - intros k Hk. by apply elem_of_nil in Hk.
  - simpl. lia.
  - reflexivity.
  - vm_compute. congruence.
Defined.

Lemma enforce_blank_range_numeral_nine :
  enforce_blank_range " +09 " = Parsed 9%Z.
Proof.
  apply (enforce_blank_range_numeral " " "+" "0" 9%N " ").
  - reflexivity.
  - by right; left.
  - reflexivity.
  - reflexivity.
  - vm_compute. lia.
Defined.

Lemma enforce_blank_range_no_digit_nine :
  enforce_blank_range "nine"
  = Raised (ValueError "invalid literal for int() with base 10: 'nine'").
Proof. apply (enforce_blank_range_no_digit "nine"). reflexivity. Defined.

Lemma build_template_prompt_single_line_default :
  build_template_prompt 9 None
  = Ok (Textwrap.unlines
          (PyStr.drop 8
             <$> removelast (tail (prompt_rows "9" DEFAULT_THEME)))).
Proof.
  apply (build_template_prompt_single_line 9 None).
  - vm_compute. lia.
  - reflexivity.
Defined.

Lemma build_template_prompt_flush_line_pirates :
  build_template_prompt 9
    (Some ("space" +:+ String Textwrap.LF "pirates"))
  = Ok (PyStr.strip
          (Textwrap.whitespace_only_sub
             (Textwrap.unlines
                (prompt_rows "9"
                   ("space" +:+ String Textwrap.LF "pirates"))))).
Proof.
  apply (build_template_prompt_flush_line 9 "space" "p" "irates").
  - vm_compute. lia.
  - reflexivity.
  - done.
Defined.

Lemma request_template_blank_response_space :
  request_template (λ _, JSONDecodeError) (λ _ _, Ok (Some " ")) 9 None "gemini"
  = Err NOT_JSON.
Proof.
  refine (proj2 (request_template_blank_response (λ _, JSONDecodeError)
                   (λ _ _, Ok (Some " ")) 9 None "gemini" _ _) " " _ _ _ _).
  - vm_compute. reflexivity.
  - reflexivity.
  - done.
  - reflexivity.
  - reflexivity.
Defined.

Lemma request_template_bare_fence_empty_object :
  request_template (λ _, JSONDecodeError) (λ _ _, Ok (Some "```{}```")) 9 None "gemini"
  = parse_template_payload (λ _, JSONDecodeError) (PyStr.strip "{}")
  ∧ parse_template_payload (λ _, JSONDecodeError) (strip_code_fence "{}")
    = parse_template_payload (λ _, JSONDecodeError) (PyStr.strip "{}").
Proof.
  refine (request_template_bare_fence (λ _, JSONDecodeError)
            (λ _ _, Ok (Some "```{}```")) 9 None "gemini" _ "```{}```" "{}"
            _ _ _ _ _ _).
  - vm_compute. reflexivity.
  - reflexivity.
  - reflexivity.
  - reflexivity.
  - vm_compute. congruence.
  - reflexivity.
Defined.

(** * The Hangman game *)

Section HangmanWord.
Import Hangman.
Implicit Types (s text word : string) (c : ascii).

Ltac by_cases c := destruct c as [[] [] [] [] [] [] [] []]; vm_compute; done.

Lemma isalpha_lower_char c :
  isalpha_char (PyStr.lower_char c) = isalpha_char c.
Proof. by_cases c. Qed.

Lemma lower_char_idemp c :
  PyStr.lower_char (PyStr.lower_char c) = PyStr.lower_char c.
Proof. by_cases c. Qed.

Lemma isalpha_not_space c : isalpha_char c = true → PyStr.isspace c = false.
Proof. by_cases c. Qed.

Lemma isalpha_not_quote c :
  isalpha_char c = true →
  Repr.contains c (String Repr.DQUOTE EmptyString) = false
  ∧ Repr.contains c "'" = false ∧ Ascii.eqb c "_" = false.
Proof. by_cases c. Qed.

Lemma keep_chars_lower s :
  keep_chars isalpha_char (PyStr.lower s)
  = PyStr.lower (keep_chars isalpha_char s).
Proof.
  induction s as [|c s IH]; simpl; [done|].
  rewrite isalpha_lower_char, IH. by destruct (isalpha_char c).
Qed.

Lemma keep_chars_lstrip s :
  keep_chars isalpha_char (PyStr.lstrip s) = keep_chars isalpha_char s.
Proof.
  induction s as [|c s IH]; simpl; [done|].
  destruct (PyStr.isspace c) eqn:Hc; [|done].
  rewrite IH. destruct (isalpha_char c) eqn:Ha; [|done].
  apply isalpha_not_space in Ha. congruence.
Qed.

Lemma keep_chars_rstrip s :
  keep_chars isalpha_char (PyStr.rstrip s) = keep_chars isalpha_char s.
Proof.
  induction s as [|c s IH]; simpl; [done|].
  destruct (PyStr.rstrip s) as [|d r] eqn:Hr.
  - simpl in IH. rewrite <- IH.
    destruct (PyStr.isspace c) eqn:Hc; [|done]. simpl.
    destruct (isalpha_char c) eqn:Ha; [|done].
    apply isalpha_not_space in Ha. congruence.
  - rewrite <- IH. done.
Qed.

Lemma keep_chars_lstrip_chars chars s :
  (∀ c, isalpha_char c = true → Repr.contains c chars = false) →
  keep_chars isalpha_char (lstrip_chars chars s) = keep_chars isalpha_char s.
Proof.
  intros Hchars. induction s as [|c s IH]; simpl; [done|].
  destruct (Repr.contains c chars) eqn:Hc; [|done].
  rewrite IH. destruct (isalpha_char c) eqn:Ha; [|done].
  apply Hchars in Ha. congruence.
Qed.

Lemma keep_chars_rstrip_chars chars s :
  (∀ c, isalpha_char c = true → Repr.contains c chars = false) →
  keep_chars isalpha_char (rstrip_chars chars s) = keep_chars isalpha_char s.
Proof.
  intros Hchars. induction s as [|c s IH]; simpl; [done|].
  destruct (rstrip_chars chars s) as [|d r] eqn:Hr.
  - simpl in IH. rewrite <- IH.
    destruct (Repr.contains c chars) eqn:Hc; [|done]. simpl.
    destruct (isalpha_char c) eqn:Ha; [|done].
    apply Hchars in Ha. congruence.
  - rewrite <- IH. done.
Qed.

Lemma lower_empty s : String.eqb (PyStr.lower s) "" = String.eqb s "".
Proof. by destruct s. Qed.

(** The cleaning of [get_random_word] comes down to taking the letters of
    the lowered response: the three [strip]s only remove what the filter
    removes anyway. *)
Lemma cleaned_letters text :
  keep_chars isalpha_char
    (PyStr.lower
       (strip_chars "'"
          (strip_chars (String Repr.DQUOTE EmptyString) (PyStr.strip text))))
  = keep_chars isalpha_char (PyStr.lower text).
Proof.
  rewrite !keep_chars_lower. f_equal. unfold strip_chars, PyStr.strip.
  rewrite keep_chars_rstrip_chars, keep_chars_lstrip_chars
    by (intros c Hc; by apply isalpha_not_quote in Hc as (? & ? & ?)).
  rewrite keep_chars_rstrip_chars, keep_chars_lstrip_chars
    by (intros c Hc; by apply isalpha_not_quote in Hc as (? & ? & ?)).
  by rewrite keep_chars_rstrip, keep_chars_lstrip.
Qed.

Lemma all_chars_keep_chars s :
  all_chars isalpha_char (keep_chars isalpha_char s) = true.
Proof.
  induction s as [|c s IH]; simpl; [done|].
  destruct (isalpha_char c) eqn:Hc; [|done]. simpl. by rewrite Hc.
Qed.

Lemma lower_idemp s : PyStr.lower (PyStr.lower s) = PyStr.lower s.
Proof.
  induction s as [|c s IH]; simpl; [done|]. by rewrite lower_char_idemp, IH.
Qed.

Lemma all_chars_isalpha_lower s :
  all_chars isalpha_char (PyStr.lower s) = all_chars isalpha_char s.
Proof.
  induction s as [|c s IH]; simpl; [done|].
  by rewrite isalpha_lower_char, IH.
Qed.

(** X24. The word [get_random_word] makes of a response is what is left of
    the lowered response when everything but its letters is dropped:
    quotes, white space, digits and punctuation go wherever they stand, not
    only at the ends, so a response of several words is fused into one.
    When nothing is left the no-valid-word error is raised. *)
Theorem get_random_word_letters generate_content model difficulty text :
  generate_content model (word_prompt (difficulty_hint difficulty))
  = Ok (Some text) →
  text ≠ EmptyString →
  get_random_word generate_content model difficulty
  = if String.eqb (keep_chars isalpha_char (PyStr.lower text)) ""
    then Err NO_VALID_WORD
    else Ok (keep_chars isalpha_char (PyStr.lower text)).
Proof.
  intros Hresponse Hne. unfold get_random_word. rewrite Hresponse.
  cbn [mbind PyResult_bind]. destruct text as [|c text]; [done|].
  by rewrite cleaned_letters.
Qed.

(** What [get_random_word] returns is a playable word. *)
Lemma get_random_word_Ok generate_content model difficulty word :
  get_random_word generate_content model difficulty = Ok word →
  word ≠ EmptyString ∧ all_chars isalpha_char word = true
  ∧ PyStr.lower word = word.
Proof.
  unfold get_random_word.
  destruct (generate_content _ _) as [[text|]|]; [|done..].
  cbn [mbind PyResult_bind]. destruct text as [|c text]; [done|].
  rewrite cleaned_letters.
  destruct (String.eqb _ "") eqn:Hempty; [done|]. intros Hword.
  assert (word = keep_chars isalpha_char (PyStr.lower (String c text)))
    as -> by congruence.
  split; [by apply String.eqb_neq|].
  split; [apply all_chars_keep_chars|].
  by rewrite keep_chars_lower, lower_idemp.
Qed.

End HangmanWord.

Section HangmanGame.
Import Hangman.
Implicit Types (s line word guess : string) (c : ascii) (game : Game)
  (stdin : list string).

Lemma elem_of_chars c s :
  String c EmptyString ∈ chars s ↔ Repr.contains c s = true.
Proof.
  induction s as [|d s IH]; simpl.
  - split; [by intros ?%elem_of_nil|done].
  - rewrite elem_of_cons, IH, orb_true_iff, Ascii.eqb_eq.
    split; (intros [H|H]; [left|by right]); congruence.
Qed.


Lemma string_prefix_empty s : String.prefix EmptyString s = true.
Proof. by destruct s. Qed.

Lemma str_in_letter c s :
  str_in (String c EmptyString) s = Repr.contains c s.
Proof.
  induction s as [|d s IH]; [done|].
  cbn [str_in Repr.contains]. rewrite IH, string_prefix_cons.
  rewrite string_prefix_empty.
  destruct (ascii_dec c d) as [->|Hne].
  - by rewrite Ascii.eqb_refl.
  - by apply Ascii.eqb_neq in Hne as ->.
Qed.

Lemma length_lower s : String.length (PyStr.lower s) = String.length s.
Proof. induction s as [|c s IH]; simpl; [done|]. by rewrite IH. Qed.

(** A guess that passes the tests of the loop is one lower-case letter. *)
Lemma guess_lowercase_letter line :
  no_guess line = false →
  ∃ c, PyStr.lower (PyStr.strip line) = String c EmptyString
       ∧ lowercase_letter c = true.
Proof.
  unfold no_guess. intros H.
  apply orb_false_iff in H as [H Halpha].
  apply orb_false_iff in H as [_ Hlen].
  apply negb_false_iff in Hlen, Halpha. apply Nat.eqb_eq in Hlen.
  rewrite length_lower in Hlen.
  destruct (PyStr.strip line) as [|x [|? ?]]; [done| |done].
  exists (PyStr.lower_char x). split; [done|].
  unfold lowercase_letter. rewrite lower_char_idemp, Ascii.eqb_refl.
  unfold isalpha in Halpha. simpl in Halpha.
  by destruct (isalpha_char (PyStr.lower_char x)).
Qed.

Lemma strip_letter c :
  lowercase_letter c = true →
  PyStr.lower (PyStr.strip (String c EmptyString)) = String c EmptyString
  ∧ no_guess (String c EmptyString) = false.
Proof.
  intros [Ha Hl%Ascii.eqb_eq]%andb_true_iff.
  assert (PyStr.strip (String c EmptyString) = String c EmptyString) as Hs.
  { pose proof (isalpha_not_space c Ha) as Hsp.
    unfold PyStr.strip. cbn [PyStr.lstrip]. rewrite Hsp.
    cbn [PyStr.rstrip]. by rewrite Hsp. }
  assert (PyStr.lower (PyStr.strip (String c EmptyString))
          = String c EmptyString) as Hg.
  { rewrite Hs. simpl. by rewrite Hl. }
  split; [done|]. unfold no_guess. rewrite Hg. unfold isalpha. simpl.
  by rewrite Ha.
Qed.

(** The body of the loop, by cases. *)
Lemma round_no_guess word game line :
  no_guess line = true → round word game line = Continue game.
Proof.
  unfold no_guess, round. intros H.
  destruct (String.eqb _ ""); [done|].
  destruct (String.length _ =? 1)%nat; [|done].
  simpl in H. by rewrite H.
Qed.

Lemma round_guess word game line c :
  PyStr.lower (PyStr.strip line) = String c EmptyString →
  no_guess line = false →
  round word game line =
  if bool_decide (String c EmptyString ∈ guessed_letters game)
  then Continue game
  else
    let guessed := {[ String c EmptyString ]} ∪ guessed_letters game in
    let wrong :=
      if Repr.contains c word then wrong_guesses game
      else S (wrong_guesses game) in
    if forallb (λ letter, bool_decide (letter ∈ guessed)) (chars word)
    then Return true
    else if (max_wrong_guesses <=? wrong)%nat then Return false
    else Continue {| guessed_letters := guessed; wrong_guesses := wrong |}.
Proof.
  unfold no_guess, round. intros Hg H. rewrite Hg in H |- *.
  apply orb_false_iff in H as [_ Halpha]. apply negb_false_iff in Halpha.
  rewrite Halpha. cbn [String.eqb String.length Nat.eqb negb].
  by rewrite str_in_letter.
Qed.

(** A round that goes on leaves fewer than six wrong guesses. *)
Lemma round_Continue word game line game' :
  wrong_guesses game < max_wrong_guesses →
  round word game line = Continue game' →
  wrong_guesses game' < max_wrong_guesses
  ∧ (game' = game
     ∨ ∃ c, PyStr.lower (PyStr.strip line) = String c EmptyString
            ∧ lowercase_letter c = true
            ∧ (String c EmptyString ∉ guessed_letters game)
            ∧ guessed_letters game'
              = {[ String c EmptyString ]} ∪ guessed_letters game).
Proof.
  intros Hwrong. destruct (no_guess line) eqn:Hline.
  { rewrite round_no_guess by done. intros [= <-]. by split; [|left]. }
  destruct (guess_lowercase_letter line Hline) as (c & Hg & Hc).
  rewrite (round_guess word game line c) by done.
  case_bool_decide as Hin; [intros [= <-]; by split; [|left]|].
  cbv zeta. destruct (forallb _ _); [done|].
  destruct (max_wrong_guesses <=? _)%nat eqn:Hmax; [done|].
  intros [= <-]. apply Nat.leb_gt in Hmax. split; [done|].
  right. by exists c.
Qed.

Lemma loop_unfold word stdin game :
  loop word stdin game =
  if (wrong_guesses game <? max_wrong_guesses)%nat then
    match stdin with
    | [] => Err EOFError
    | line :: stdin' =>
        match round word game line with
        | Continue game' => loop word stdin' game'
        | Return won => Ok won
        end
    end
  else Ok false.
Proof. by destruct stdin. Qed.

Lemma loop_won word stdin game :
  guessed_lowercase game →
  loop word stdin game = Ok true →
  all_chars lowercase_letter word = true.
Proof.
  revert game. induction stdin as [|line stdin IH]; intros game Hgood.
  { rewrite loop_unfold. by destruct (_ <? _)%nat. }
  rewrite loop_unfold. destruct (_ <? _)%nat eqn:Hwrong; [|done].
  apply Nat.ltb_lt in Hwrong.
  destruct (round word game line) as [game'|won] eqn:Hround.
  - apply IH. apply round_Continue in Hround as [_ Hround]; [|done].
    destruct Hround as [->|(c & _ & Hc & _ & Hguessed)]; [done|].
    intros d. rewrite Hguessed, elem_of_union, elem_of_singleton.
    intros [[= ->]|Hd]; [done|by apply Hgood].
  - intros [= ->]. destruct (no_guess line) eqn:Hline.
    { by rewrite round_no_guess in Hround. }
    destruct (guess_lowercase_letter line Hline) as (c & Hg & Hc).
    rewrite (round_guess word game line c) in Hround by done.
    case_bool_decide as Hin; [done|]. cbv zeta in Hround.
    destruct (forallb _ _) eqn:Hall;
      [|by destruct (max_wrong_guesses <=? _)%nat].
    clear Hround. rewrite forallb_forall in Hall.
    assert (∀ d, Repr.contains d word = true → lowercase_letter d = true)
      as Hletters.
    { intros d Hd%elem_of_chars. apply list_elem_of_In, Hall in Hd.
      apply bool_decide_eq_true in Hd.
      apply elem_of_union in Hd as [[= ->]%elem_of_singleton|Hd];
        [done|by apply Hgood]. }
    clear -Hletters. induction word as [|d word IH]; [done|].
    cbn [all_chars]. rewrite Hletters by (simpl; by rewrite Ascii.eqb_refl).
    apply IH. intros d' Hd'. apply Hletters. simpl. by rewrite Hd', orb_true_r.
Qed.

(** X25. A word can only be won if all its characters are lower-case
    letters: the guesses are lowered and must be letters, so a word with a
    capital, a digit, a space or a hyphen is lost or runs out of input
    whatever is typed. *)
Theorem play_hangman_needs_lowercase word stdin :
  play_hangman word stdin = Ok true →
  all_chars lowercase_letter word = true.
Proof.
  apply loop_won. intros c Hc. by apply elem_of_empty in Hc.
Qed.


Lemma round_letter word game c :
  lowercase_letter c = true →
  round word game (String c EmptyString) =
  if bool_decide (String c EmptyString ∈ guessed_letters game)
  then Continue game
  else
    let guessed := {[ String c EmptyString ]} ∪ guessed_letters game in
    let wrong :=
      if Repr.contains c word then wrong_guesses game
      else S (wrong_guesses game) in
    if forallb (λ letter, bool_decide (letter ∈ guessed)) (chars word)
    then Return true
    else if (max_wrong_guesses <=? wrong)%nat then Return false
    else Continue {| guessed_letters := guessed; wrong_guesses := wrong |}.
Proof.
  intros [Hg Hline]%strip_letter. by apply round_guess.
Qed.


Lemma forallb_guessed_false word (guessed : gset string) :
  forallb (λ letter, bool_decide (letter ∈ guessed)) (chars word) = false →
  ∃ c, Repr.contains c word = true ∧ String c EmptyString ∉ guessed.
Proof.
  induction word as [|d word IH]; [done|]. cbn [chars forallb].
  intros [Hd|Hrest]%andb_false_iff.
  - exists d. split; [simpl; by rewrite Ascii.eqb_refl|].
    by apply bool_decide_eq_false in Hd.
  - destruct (IH Hrest) as (c & Hc & Hnot). exists c. split; [|done].
    simpl. by rewrite Hc, orb_true_r.
Qed.

(** Typing the letters that are still missing, in the order in which the
    word has them, wins. *)
Lemma loop_own_letters word suffix stdin game :
  wrong_guesses game = 0 →
  all_chars lowercase_letter suffix = true →
  (∀ c, Repr.contains c suffix = true → Repr.contains c word = true) →
  (∀ c, Repr.contains c word = true →
        String c EmptyString ∈ guessed_letters game
        ∨ Repr.contains c suffix = true) →
  (∃ c, Repr.contains c word = true
        ∧ String c EmptyString ∉ guessed_letters game) →
  loop word (chars suffix ++ stdin) game = Ok true.
Proof.
  revert game. induction suffix as [|c suffix IH];
    intros game Hwrong Hletters Hsub Hcover (c0 & Hc0 & Hmissing).
  { destruct (Hcover c0 Hc0) as [?|?]; done. }
  cbn [all_chars] in Hletters.
  apply andb_true_iff in Hletters as [Hc Hletters].
  cbn [chars app]. rewrite loop_unfold, Hwrong. cbn [Nat.ltb Nat.leb max_wrong_guesses].
  rewrite round_letter by done.
  assert (∀ d, Repr.contains d suffix = true → Repr.contains d word = true)
    as Hsub'.
  { intros d Hd. apply Hsub. simpl. by rewrite Hd, orb_true_r. }
  case_bool_decide as Hin.
  - apply IH; [done..| |by exists c0].
    intros d Hd. destruct (Hcover d Hd) as [?|Hd']; [by left|].
    simpl in Hd'. apply orb_true_iff in Hd' as [->%Ascii.eqb_eq|?];
      [by left|by right].
  - cbv zeta. rewrite (Hsub c) by (simpl; by rewrite Ascii.eqb_refl).
    destruct (forallb _ _) eqn:Hall; [done|].
    rewrite Hwrong. cbn [Nat.leb max_wrong_guesses].
    apply IH; [done..| |].
    + intros d Hd. cbn [guessed_letters].
      destruct (Hcover d Hd) as [?|Hd'].
      { left. apply elem_of_union. by right. }
      simpl in Hd'. apply orb_true_iff in Hd' as [->%Ascii.eqb_eq|?];
        [|by right].
      left. apply elem_of_union. left. by apply elem_of_singleton.
    + cbn [guessed_letters]. by apply forallb_guessed_false.
Qed.

(** X26. Every word [get_random_word] returns can be won: typing its
    letters one per line, in the order of the word, makes [play_hangman]
    return [True], and what is typed after that is not read. *)
Theorem hangman_word_can_be_won generate_content model difficulty word stdin :
  get_random_word generate_content model difficulty = Ok word →
  play_hangman word (chars word ++ stdin) = Ok true.
Proof.
  intros (Hne & Halpha & Hlower)%get_random_word_Ok.
  apply loop_own_letters; [done| |done|by right|].
  - clear Hne. induction word as [|c word IH]; [done|].
    cbn [all_chars PyStr.lower] in *.
    apply andb_true_iff in Halpha as [Hc Halpha].
    injection Hlower as Hlc Hlower. rewrite IH by done.
    unfold lowercase_letter. by rewrite Hc, Hlc, Ascii.eqb_refl.
  - destruct word as [|c word]; [done|]. exists c. split.
    + simpl. by rewrite Ascii.eqb_refl.
    + by intros ?%elem_of_empty.
Qed.




(** What is typed before the rounds that differ does not matter. *)
Lemma loop_prefix word stdin stdin1 stdin2 game :
  (∀ game', wrong_guesses game' < max_wrong_guesses →
            loop word stdin1 game' = loop word stdin2 game') →
  wrong_guesses game < max_wrong_guesses →
  loop word (stdin ++ stdin1) game = loop word (stdin ++ stdin2) game.
Proof.
  intros Hsame. revert game. induction stdin as [|line stdin IH];
    intros game Hwrong; [by apply Hsame|].
  cbn [app]. rewrite !(loop_unfold _ (line :: _)).
  destruct (_ <? _)%nat; [|done].
  destruct (round word game line) as [game'|won] eqn:Hround; [|done].
  apply IH. by apply round_Continue in Hround as [? _].
Qed.

(** X28. Slips cost nothing.  Lines that are no guess (blank, more than one
    character once stripped, not a letter) can be left out of the input
    wherever they stand without changing how the game ends, and so can a
    line that repeats the line before it. *)
Theorem play_hangman_slips word stdin1 stdin2 :
  (∀ noise,
     Forall (λ line, no_guess line = true) noise →
     play_hangman word (stdin1 ++ noise ++ stdin2)
     = play_hangman word (stdin1 ++ stdin2))
  ∧ (∀ line,
       play_hangman word (stdin1 ++ line :: line :: stdin2)
       = play_hangman word (stdin1 ++ line :: stdin2)).
Proof.
  split.
  - intros noise Hnoise. apply loop_prefix; [|cbn; unfold max_wrong_guesses; lia].
    intros game Hwrong. induction Hnoise as [|line noise Hline _ IH]; [done|].
    cbn [app]. rewrite loop_unfold.
    apply Nat.ltb_lt in Hwrong as ->. by rewrite round_no_guess.
  - intros line. apply loop_prefix; [|cbn; unfold max_wrong_guesses; lia].
    intros game Hwrong. rewrite !(loop_unfold _ (line :: _)).
    pose proof Hwrong as ->%Nat.ltb_lt.
    destruct (round word game line) as [game'|won] eqn:Hround; [|done].
    pose proof Hround as [Hwrong' Hgame']%round_Continue; [|done].
    rewrite (loop_unfold _ (line :: _)).
    pose proof Hwrong' as ->%Nat.ltb_lt.
    destruct Hgame' as [->|(c & Hg & Hc & Hnew & Hguessed)].
    { by rewrite Hround. }
    destruct (no_guess line) eqn:Hline.
    { rewrite round_no_guess in Hround by done. injection Hround as <-.
      by rewrite round_no_guess. }
    rewrite (round_guess word game' line c) by done.
    rewrite bool_decide_eq_true_2; [done|].
    rewrite Hguessed. apply elem_of_union. left. by apply elem_of_singleton.
Qed.

End HangmanGame.

Section HangmanDisplay.
Import Hangman.
Implicit Types (word : string) (guessed : gset string) (c : ascii).

Lemma contains_append c s1 s2 :
  Repr.contains c (s1 +:+ s2) = Repr.contains c s1 || Repr.contains c s2.
Proof.
  induction s1 as [|d s1 IH]; simpl; [done|]. by rewrite IH, orb_assoc.
Qed.

Lemma display_word_cons c word guessed :
  word ≠ EmptyString →
  display_word (String c word) guessed
  = (if bool_decide (String c EmptyString ∈ guessed)
     then String c EmptyString else "_")
    +:+ " " +:+ display_word word guessed.
Proof. by destruct word. Qed.

(** X29. [display_word] shows every character of the word, separated by
    single spaces, so its length is twice that of the word less one; for a
    word without underscore it shows no underscore exactly when every
    letter of the word has been guessed, which is the test by which the
    game is won. *)
Theorem display_word_complete word guessed :
  String.length (display_word word guessed) = 2 * String.length word - 1
  ∧ (Repr.contains "_" word = false →
     (Repr.contains "_" (display_word word guessed) = false
      ↔ forallb (λ letter, bool_decide (letter ∈ guessed)) (chars word)
        = true)).
Proof.
  induction word as [|c word [IHlen IH]]; [done|].
  destruct (decide (word = EmptyString)) as [->|Hne].
  { split.
    - unfold display_word. simpl. by case_bool_decide.
    - simpl. rewrite orb_false_r. intros Hc. unfold display_word. simpl.
      case_bool_decide; simpl; [by rewrite orb_false_r|done]. }
  rewrite display_word_cons by done. split.
  - rewrite length_append. cbn [String.append String.length].
    rewrite IHlen. destruct word; [done|].
    case_bool_decide; simpl; lia.
  - cbn [Repr.contains chars forallb].
    intros [Hc Hword]%orb_false_iff. rewrite contains_append.
    cbn [String.append Repr.contains]. change (Ascii.eqb "_" " ") with false.
    cbn [orb]. rewrite orb_false_iff, andb_true_iff, (IH Hword).
    case_bool_decide.
    + cbn [Repr.contains andb]. rewrite Hc. cbn [orb].
      split; [by intros [_ ?]|by intros [_ ?]].
    + cbn [Repr.contains andb]. rewrite Ascii.eqb_refl.
      split; by intros [? ?].
Qed.

End HangmanDisplay.

(** ** The game on examples *)

Lemma get_random_word_letters_ice_cream :
  Hangman.get_random_word
    (λ _ _, Ok (Some (quoted "Ice cream!"))) "gemini" "easy"
  = Ok "icecream".
Proof.
  rewrite (get_random_word_letters _ "gemini" "easy"
             (quoted "Ice cream!")).
  - reflexivity.
  - reflexivity.
  - done.
Defined.

Lemma display_word_complete_cat :
  Repr.contains "_" (Hangman.display_word "cat" {[ "c"; "a"; "t" ]}) = false
  ↔ forallb (λ letter, bool_decide (letter ∈ ({[ "c"; "a"; "t" ]} : gset string)))
      (chars "cat") = true.
Proof.
  apply (proj2 (display_word_complete "cat" {[ "c"; "a"; "t" ]})).
  reflexivity.
Defined.

Lemma play_hangman_needs_lowercase_hi :
  all_chars lowercase_letter "hi" = true.
Proof.
  apply (play_hangman_needs_lowercase "hi" [" H "; "i"]).
  vm_compute. reflexivity.
Defined.

Lemma hangman_word_can_be_won_ice_cream :
  Hangman.play_hangman "icecream" (chars "icecream" ++ ["x"]) = Ok true.
Proof.
  apply (hangman_word_can_be_won
           (λ _ _, Ok (Some (quoted "Ice cream!"))) "gemini" "easy").
  vm_compute. reflexivity.
Defined.


(** Five wrong guesses do not end the game: it asks for a sixth guess and
    can still be won. *)
Lemma five_wrong_guesses_still_playing :
  Hangman.play_hangman "cat" ["b"; "d"; "e"; "f"; "g"] = Err EOFError
  ∧ Hangman.play_hangman "cat" ["b"; "d"; "e"; "f"; "g"; "c"; "a"; "t"]
    = Ok true.
Proof. split; vm_compute; reflexivity. Qed.

Lemma play_hangman_slips_cat :
  Hangman.play_hangman "cat" (["c"] ++ [""; "at"; "7"] ++ ["a"; "t"])
  = Hangman.play_hangman "cat" (["c"] ++ ["a"; "t"]).
Proof.
  apply (proj1 (play_hangman_slips "cat" ["c"] ["a"; "t"])).
  repeat constructor.
Defined.
